(** * Patent-disclosure backend: shallow embedding and verified properties

    The development follows the layout of the Python package:
    - [app/database.py]            docket sequencer, connection, statements
    - [app/services/storage.py]    blob store (S3/MinIO client)
    - [app/services/pdf_processor.py], [app/services/extractor.py]
    - [app/models.py]              request and response models
    - [app/routers/disclosures.py] the HTTP handlers

    Python [str] values are sequences of Unicode code points and are
    modelled as [list N]; handlers are functions in a state-and-exception
    monad over a [World] that holds the relational tables, the sequence,
    the blob store, the log and an event trace. *)

From Stdlib Require Import ZArith NArith Lia List String Ascii.
From Stdlib.Strings Require Import Byte.
From Stdlib Require Import Floats.SpecFloat.
From stdpp Require Import gmap list sorting.

Open Scope N_scope.

(* ===================================================================== *)
(** ** Python strings *)
(* ===================================================================== *)

Module Py.

(** A code point, and a string of them. *)
Abbreviation char := N (only parsing).
Abbreviation str := (list N) (only parsing).

(** ASCII literals. *)
Definition lit (s : string) : str :=
  List.map N_of_ascii (list_ascii_of_string s).

(** [str.isspace] for one code point (CPython's [_PyUnicode_IsWhitespace]). *)
Definition isspace (c : char) : bool :=
  ((9 <=? c) && (c <=? 13)) || ((28 <=? c) && (c <=? 32))
  || (c =? 133) || (c =? 160) || (c =? 5760)
  || ((8192 <=? c) && (c <=? 8202))
  || (c =? 8232) || (c =? 8233) || (c =? 8239) || (c =? 8287)
  || (c =? 12288).

Fixpoint lstrip (s : str) : str :=
  match s with
  | c :: s' => if isspace c then lstrip s' else s
  | [] => []
  end.

Definition rstrip (s : str) : str := rev (lstrip (rev s)).

(** A run of whitespace. *)
Definition blank (ws : str) : Prop := forallb isspace ws = true.

(** [s.strip()] *)
Definition strip (s : str) : str := rstrip (lstrip s).

(** [s.startswith(p)] *)
Fixpoint startswith (s p : str) {struct p} : bool :=
  match p with
  | [] => true
  | c :: p' =>
      match s with
      | d :: s' => (c =? d) && startswith s' p'
      | [] => false
      end
  end.

(** [s.endswith(p)] *)
Definition endswith (s p : str) : bool := startswith (rev s) (rev p).

(** [s[k:]] and [s[:-k]] *)
Definition slice_from (k : nat) (s : str) : str := drop k s.
Definition slice_to_neg (k : nat) (s : str) : str := take (length s - k) s.

(** [sep.join(parts)] *)
Fixpoint join (sep : str) (parts : list str) : str :=
  match parts with
  | [] => []
  | [p] => p
  | p :: rest => p ++ sep ++ join sep rest
  end.

(** [needle in haystack] for strings. *)
Fixpoint contains (haystack needle : str) : bool :=
  startswith haystack needle
  || match haystack with
     | [] => false
     | _ :: h' => contains h' needle
     end.

Definition str_eqb (a b : str) : bool := bool_decide (a = b).

(** Decimal rendering of a natural number, most significant digit first
    ([str(n)] for [n >= 0]). *)
Fixpoint to_dec_aux (fuel : nat) (n : N) (acc : str) : str :=
  let acc' := (48 + n mod 10) :: acc in
  match fuel with
  | O => acc'
  | S f => if n <? 10 then acc' else to_dec_aux f (n / 10) acc'
  end.

Definition to_dec (n : N) : str := to_dec_aux (N.to_nat (N.log2 n)) n [].

(** Zero padding on the left up to [width] characters. *)
Definition zfill (width : nat) (digits : str) : str :=
  repeat 48 (width - length digits) ++ digits.

(** [format(z, "04d")]: the sign, when there is one, counts in the width. *)
Definition format_04d (z : Z) : str :=
  if (z <? 0)%Z then 45 :: zfill 3 (to_dec (Z.abs_N z))
  else zfill 4 (to_dec (Z.to_N z)).

(** Reading a digit string back. *)
Definition isdigit (c : char) : bool := (48 <=? c) && (c <=? 57).

Definition dec_value (s : str) : N :=
  fold_left (fun acc c => 10 * acc + (c - 48)) s 0.

End Py.

Import Py.

(* ===================================================================== *)
(** ** Values shared by all modules *)
(* ===================================================================== *)

Abbreviation bytes := (list Byte.byte) (only parsing).
Abbreviation uuid := N (only parsing).
Abbreviation timestamp := Z (only parsing).

(** Exceptions.  Every constructor is a subclass of Python's [Exception];
    the payload is the message [str(e)] is built from. *)
Inductive exn :=
| ValueError (msg : str)
| TypeError (msg : str)
| AttributeError (msg : str)
| KeyError (msg : str)
| ClientError (msg : str)          (* botocore.exceptions.ClientError *)
| PostgresError (msg : str)        (* asyncpg.PostgresError and its subclasses *)
| HTTPException (status_code : Z) (detail : str)
| OtherError (msg : str).          (* any other exception of a collaborator *)

(** [str(e)] *)
Definition exn_str (e : exn) : str :=
  match e with
  | ValueError m | TypeError m | AttributeError m | ClientError m
  | PostgresError m | OtherError m => m
  | KeyError m => 39 :: m ++ [39]
  | HTTPException c d => to_dec (Z.to_N c) ++ lit ": " ++ d
  end.

(** What [json.loads] returns. *)
#[warnings="-register-all"]
Inductive json :=
| JNull
| JBool (b : bool)
| JInt (z : Z)
| JFloat (f : spec_float)
| JStr (s : str)
| JList (items : list json)
| JDict (fields : gmap str json).

(** Python truthiness ([bool(v)]). *)
Definition truthy (v : json) : bool :=
  match v with
  | JNull => false
  | JBool b => b
  | JInt z => negb (z =? 0)%Z
  | JFloat (S754_zero _) => false
  | JFloat _ => true
  | JStr [] => false
  | JStr _ => true
  | JList [] => false
  | JList _ => true
  | JDict m => match map_to_list m with [] => false | _ => true end
  end.

(** The collaborators and library functions the package calls but does not
    define.  They are parameters of the whole development. *)
Record Env := {
  (** [settings.openai_api_key] *)
  openai_api_key : str;
  (** [response.choices[0].message.content] of the chat completion issued
      for the extraction prompt built from the given document text, or the
      exception the client raises.  The model samples its answer
      (temperature 0.1): this is the answer in the one call that a request
      makes, and no statement relates the answers of two calls. *)
  chat_completion : str -> exn + option str;
  (** [json.loads]: the decoded value, or the [JSONDecodeError] message *)
  json_loads : str -> str + json;
  (** how an f-string renders an item that is not already a [str] *)
  format_value : json -> str;
  (** PyMuPDF: the text of each page, or the message of the exception
      [fitz.open] raises *)
  fitz_pages : bytes -> str + list str;
  (** [str.lower] *)
  str_lower : str -> str;
  (** PostgreSQL's [value ILIKE pattern] *)
  ilike : str -> str -> bool;
  (** [datetime.isoformat] *)
  isoformat : timestamp -> str
}.

(* ===================================================================== *)
(** ** The world the handlers act on *)
(* ===================================================================== *)

(** Rows of the three tables (schema of section 6 of the specification). *)
Record DisclosureRow := {
  d_id : uuid;
  d_docket_number : str;
  d_title : str;
  d_description : str;
  d_key_differences : str;
  d_status : str;
  d_review_notes : option str;
  d_original_filename : option str;
  d_pdf_object_key : option str;
  d_created_at : timestamp;
  d_updated_at : timestamp
}.

Record InventorRow := {
  i_id : uuid;
  i_disclosure_id : uuid;
  i_name : str;
  i_email : option str;
  i_created_at : timestamp
}.

Record HistoryRow := {
  h_id : uuid;
  h_disclosure_id : uuid;
  h_status : str;
  h_changed_at : timestamp
}.

Record Tables := {
  disclosures : list DisclosureRow;
  inventors : list InventorRow;
  status_history : list HistoryRow
}.

(** State of the connection's transaction block. *)
Inductive TxState := Idle | Active | Failed.

Inductive LogLevel := INFO | WARNING | ERROR.

(** The writes that took place, oldest first: statements on the
    connection and objects put in the bucket. *)
Inductive Event :=
| EvNextval (v : Z)
| EvBegin
| EvCommit
| EvRollback
| EvInsertDisclosure (id : uuid)
| EvSetObjectKey (id : uuid) (key : str)
| EvInsertInventor (id disclosure_id : uuid)
| EvInsertHistory (id disclosure_id : uuid) (status : str)
| EvUpdateDisclosure (id : uuid)
| EvPutObject (key : str).

Record World := {
  tables : Tables;                      (* the relational state *)
  docket_seq : Z;                       (* last value of the sequence *)
  tx : TxState;
  s3 : option (gmap str bytes);         (* the bucket, when it exists *)
  log : list (LogLevel * str);
  trace : list Event;
  fresh : uuid;                         (* supply of generated ids *)
  clock : timestamp;                    (* NOW() *)
  db_faults : list (option exn);        (* outcome of the next statements *)
  s3_faults : list (option exn)         (* outcome of the next S3 calls *)
}.

Definition set_tables (t : Tables) (w : World) : World :=
  {| tables := t; docket_seq := docket_seq w; tx := tx w; s3 := s3 w;
     log := log w; trace := trace w; fresh := fresh w; clock := clock w;
     db_faults := db_faults w; s3_faults := s3_faults w |}.

Definition set_docket_seq (v : Z) (w : World) : World :=
  {| tables := tables w; docket_seq := v; tx := tx w; s3 := s3 w;
     log := log w; trace := trace w; fresh := fresh w; clock := clock w;
     db_faults := db_faults w; s3_faults := s3_faults w |}.

Definition set_tx (t : TxState) (w : World) : World :=
  {| tables := tables w; docket_seq := docket_seq w; tx := t; s3 := s3 w;
     log := log w; trace := trace w; fresh := fresh w; clock := clock w;
     db_faults := db_faults w; s3_faults := s3_faults w |}.

Definition set_s3 (b : option (gmap str bytes)) (w : World) : World :=
  {| tables := tables w; docket_seq := docket_seq w; tx := tx w; s3 := b;
     log := log w; trace := trace w; fresh := fresh w; clock := clock w;
     db_faults := db_faults w; s3_faults := s3_faults w |}.

Definition add_log (l : LogLevel) (msg : str) (w : World) : World :=
  {| tables := tables w; docket_seq := docket_seq w; tx := tx w; s3 := s3 w;
     log := log w ++ [(l, msg)]; trace := trace w; fresh := fresh w;
     clock := clock w; db_faults := db_faults w; s3_faults := s3_faults w |}.

Definition emit (e : Event) (w : World) : World :=
  {| tables := tables w; docket_seq := docket_seq w; tx := tx w; s3 := s3 w;
     log := log w; trace := trace w ++ [e]; fresh := fresh w;
     clock := clock w; db_faults := db_faults w; s3_faults := s3_faults w |}.

Definition set_fresh (n : uuid) (w : World) : World :=
  {| tables := tables w; docket_seq := docket_seq w; tx := tx w; s3 := s3 w;
     log := log w; trace := trace w; fresh := n; clock := clock w;
     db_faults := db_faults w; s3_faults := s3_faults w |}.

Definition set_db_faults (f : list (option exn)) (w : World) : World :=
  {| tables := tables w; docket_seq := docket_seq w; tx := tx w; s3 := s3 w;
     log := log w; trace := trace w; fresh := fresh w; clock := clock w;
     db_faults := f; s3_faults := s3_faults w |}.

Definition set_s3_faults (f : list (option exn)) (w : World) : World :=
  {| tables := tables w; docket_seq := docket_seq w; tx := tx w; s3 := s3 w;
     log := log w; trace := trace w; fresh := fresh w; clock := clock w;
     db_faults := db_faults w; s3_faults := f |}.

(** Two worlds with the same relational side. *)
Definition db_same (w w' : World) : Prop :=
  tables w' = tables w /\ tx w' = tx w /\ fresh w' = fresh w
  /\ clock w' = clock w /\ docket_seq w' = docket_seq w
  /\ db_faults w' = db_faults w.

(** *** The monad of handlers: state and exceptions *)

Inductive Result (A : Type) :=
| Ok (a : A)
| Raise (e : exn).
Arguments Ok {A} a.
Arguments Raise {A} e.

Definition M (A : Type) : Type := World -> Result A * World.

Definition ret {A} (a : A) : M A := fun w => (Ok a, w).

Definition raise {A} (e : exn) : M A := fun w => (Raise e, w).

Definition bind {A B} (m : M A) (k : A -> M B) : M B :=
  fun w =>
    match m w with
    | (Ok a, w') => k a w'
    | (Raise e, w') => (Raise e, w')
    end.

(** [try: m  except Exception as e: handler e] *)
Definition try_except {A} (m : M A) (handler : exn -> M A) : M A :=
  fun w =>
    match m w with
    | (Ok a, w') => (Ok a, w')
    | (Raise e, w') => handler e w'
    end.

Definition modify (f : World -> World) : M unit := fun w => (Ok tt, f w).

Notation "'let*' x ':=' m 'in' k" := (bind m (fun x => k))
  (at level 10, x pattern, m at level 100, k at level 200).

(** [logger.info], [logger.warning], [logger.error] *)
Definition logger (l : LogLevel) (msg : str) : M unit := modify (add_log l msg).

(* ===================================================================== *)
(** ** app/database.py *)
(* ===================================================================== *)

(** The outcome the environment has in store for the next statement. *)
Definition next_db_fault (w : World) : option exn * World :=
  match db_faults w with
  | [] => (None, w)
  | f :: rest => (f, set_db_faults rest w)
  end.

(** A statement that fails inside a transaction block aborts the block:
    PostgreSQL refuses every later statement until the block ends. *)
Definition poison (w : World) : World :=
  match tx w with
  | Active => set_tx Failed w
  | _ => w
  end.

Definition in_failed_transaction : exn :=
  PostgresError
    (lit "current transaction is aborted, commands ignored until end of transaction block").

(** One round trip on the connection ([conn.fetch], [conn.fetchrow],
    [conn.fetchval], [conn.execute]).  [run] is what the statement does on
    the server when nothing goes wrong around it. *)
Definition statement {A} (run : World -> exn + (A * World)) : M A :=
  fun w =>
    match tx w with
    | Failed => (Raise in_failed_transaction, w)
    | _ =>
        match next_db_fault w with
        | (Some e, w1) => (Raise e, poison w1)
        | (None, w1) =>
            match run w1 with
            | inl e => (Raise e, poison w1)
            | inr (a, w2) => (Ok a, w2)
            end
        end
    end.

(** [async with get_connection() as conn]: a connection taken from the
    pool has no transaction open, and is handed back in the same state. *)
Definition get_connection {A} (body : M A) : M A :=
  fun w =>
    match body (set_tx Idle w) with
    | (r, w') => (r, set_tx Idle w')
    end.

(** [async with conn.transaction()]: BEGIN, the body, then COMMIT when the
    body returns and ROLLBACK when it raises.  COMMIT of an aborted block
    is answered by the server with a rollback. *)
Definition transaction {A} (body : M A) : M A :=
  fun w =>
    match next_db_fault w with
    | (Some e, w0) => (Raise e, w0)
    | (None, w0) =>
        match body (emit EvBegin (set_tx Active w0)) with
        | (Ok a, w1) =>
            match tx w1 with
            | Failed =>
                (Ok a, emit EvRollback (set_tx Idle (set_tables (tables w) w1)))
            | _ =>
                match next_db_fault w1 with
                | (Some e, w2) =>
                    (Raise e,
                     emit EvRollback (set_tx Idle (set_tables (tables w) w2)))
                | (None, w2) => (Ok a, emit EvCommit (set_tx Idle w2))
                end
            end
        | (Raise e, w1) =>
            (Raise e, emit EvRollback (set_tx Idle (set_tables (tables w) w1)))
        end
    end.

(** Modelled from the spec: the sequence [docket_seq] is declared in the
    schema, which is not part of the package; it is the durable monotonic
    counter of section 4.1, advancing by one. *)
Definition nextval_docket_seq : M Z :=
  statement (fun w =>
    let v := (docket_seq w + 1)%Z in
    inr (v, emit (EvNextval v) (set_docket_seq v w))).

(** [get_next_docket_number] *)
Definition get_next_docket_number : M str :=
  get_connection
    (let* result := nextval_docket_seq in
     ret (lit "IDF-" ++ format_04d result)).

(* ===================================================================== *)
(** ** app/services/storage.py *)
(* ===================================================================== *)

Definition next_s3_fault (w : World) : option exn * World :=
  match s3_faults w with
  | [] => (None, w)
  | f :: rest => (f, set_s3_faults rest w)
  end.

(** One call on the S3 client. *)
Definition s3_call {A} (run : World -> exn + (A * World)) : M A :=
  fun w =>
    match next_s3_fault w with
    | (Some e, w1) => (Raise e, w1)
    | (None, w1) =>
        match run w1 with
        | inl e => (Raise e, w1)
        | inr (a, w2) => (Ok a, w2)
        end
    end.

Definition head_bucket : M unit :=
  s3_call (fun w =>
    match s3 w with
    | Some _ => inr (tt, w)
    | None => inl (ClientError (lit "An error occurred (404) when calling the HeadBucket operation: Not Found"))
    end).

Definition create_bucket : M unit :=
  s3_call (fun w =>
    match s3 w with
    | Some _ => inl (ClientError (lit "An error occurred (BucketAlreadyOwnedByYou) when calling the CreateBucket operation"))
    | None => inr (tt, set_s3 (Some ∅) w)
    end).

Definition put_object (key : str) (body : bytes) : M unit :=
  s3_call (fun w =>
    match s3 w with
    | Some objs => inr (tt, emit (EvPutObject key) (set_s3 (Some (<[key := body]> objs)) w))
    | None => inl (ClientError (lit "An error occurred (NoSuchBucket) when calling the PutObject operation"))
    end).

(** [except ClientError as e: handler e]; other exceptions pass through. *)
Definition except_ClientError {A} (m : M A) (handler : exn -> M A) : M A :=
  try_except m (fun e =>
    match e with
    | ClientError _ => handler e
    | _ => raise e
    end).

(** [settings.minio_bucket_name] *)
Definition minio_bucket_name : str := lit "disclosures".

(** [ensure_bucket_exists] *)
Definition ensure_bucket_exists : M unit :=
  except_ClientError head_bucket (fun _ =>
    except_ClientError
      (let* _ := create_bucket in
       logger INFO (lit "Created bucket: " ++ minio_bucket_name))
      (fun e =>
         let* _ := logger ERROR (lit "Failed to create bucket: " ++ exn_str e) in
         raise e)).

(** [upload_pdf] *)
Definition upload_pdf (disclosure_id filename : str) (content : bytes) : M str :=
  let* _ := ensure_bucket_exists in
  let object_key := lit "disclosures/" ++ disclosure_id ++ lit "/" ++ filename in
  except_ClientError
    (let* _ := put_object object_key content in
     let* _ := logger INFO (lit "Uploaded PDF: " ++ object_key) in
     ret object_key)
    (fun e =>
       let* _ := logger ERROR (lit "Failed to upload PDF: " ++ exn_str e) in
       raise e).

(* ===================================================================== *)
(** ** Dynamic operations on decoded JSON values *)
(* ===================================================================== *)

Definition lift {A} (r : exn + A) : M A :=
  fun w => match r with inl e => (Raise e, w) | inr a => (Ok a, w) end.

Definition bindE {A B} (r : exn + A) (k : A -> exn + B) : exn + B :=
  match r with inl e => inl e | inr a => k a end.

Notation "'let+' x ':=' m 'in' k" := (bindE m (fun x => k))
  (at level 10, x pattern, m at level 100, k at level 200).

(** [type(v).__name__] *)
Definition type_name (v : json) : str :=
  match v with
  | JNull => lit "NoneType"
  | JBool _ => lit "bool"
  | JInt _ => lit "int"
  | JFloat _ => lit "float"
  | JStr _ => lit "str"
  | JList _ => lit "list"
  | JDict _ => lit "dict"
  end.

Definition quoted (s : str) : str := 39 :: s ++ [39].

Definition is_str (key : str) (v : json) : bool :=
  match v with JStr s => str_eqb s key | _ => false end.

(** [key in data] *)
Definition py_contains (data : json) (key : str) : exn + bool :=
  match data with
  | JDict m => inr (bool_decide (is_Some (m !! key)))
  | JList l => inr (existsb (is_str key) l)
  | JStr s => inr (contains s key)
  | _ => inl (TypeError (lit "argument of type " ++ quoted (type_name data)
                         ++ lit " is not iterable"))
  end.

(** [data[key]] *)
Definition py_getitem (data : json) (key : str) : exn + json :=
  match data with
  | JDict m =>
      match m !! key with
      | Some v => inr v
      | None => inl (KeyError key)
      end
  | JList _ => inl (TypeError (lit "list indices must be integers or slices, not str"))
  | JStr _ => inl (TypeError (lit "string indices must be integers, not 'str'"))
  | _ => inl (TypeError (quoted (type_name data) ++ lit " object is not subscriptable"))
  end.

(** [data[key] = v]; a dict is updated in place, so the result stands for
    the one object [data] names. *)
Definition py_setitem (data : json) (key : str) (v : json) : exn + json :=
  match data with
  | JDict m => inr (JDict (<[key := v]> m))
  | JList _ => inl (TypeError (lit "list indices must be integers or slices, not str"))
  | _ => inl (TypeError (quoted (type_name data)
                         ++ lit " object does not support item assignment"))
  end.

(** [data.get(key, default)] *)
Definition py_get (data : json) (key : str) (default : json) : exn + json :=
  match data with
  | JDict m => inr (match m !! key with Some v => v | None => default end)
  | _ => inl (AttributeError (quoted (type_name data)
                              ++ lit " object has no attribute 'get'"))
  end.

(** The items a [for] loop over [data] visits. *)
Definition py_iter (data : json) : exn + list json :=
  match data with
  | JList l => inr l
  | JStr s => inr (List.map (fun c => JStr [c]) s)
  | JDict m => inr (List.map (fun kv => JStr (fst kv)) (map_to_list m))
  | _ => inl (TypeError (quoted (type_name data) ++ lit " object is not iterable"))
  end.

(* ===================================================================== *)
(** ** app/services/pdf_processor.py *)
(* ===================================================================== *)

Definition nonblank (text : str) : bool :=
  match strip text with [] => false | _ => true end.

(** [extract_text_from_pdf] *)
Definition extract_text_from_pdf (env : Env) (pdf_bytes : bytes) : exn + str :=
  match fitz_pages env pdf_bytes with
  | inl msg => inl (ValueError (lit "Invalid PDF file: " ++ msg))
  | inr pages => inr (join [10; 10] (List.filter nonblank pages))
  end.

(* ===================================================================== *)
(** ** app/services/extractor.py *)
(* ===================================================================== *)

(** The marker the source writes in front of each item: the three code
    points U+00E2 U+20AC U+00A2 followed by a space. *)
Definition item_marker : str := [226; 8364; 162; 32].

(** The bullet marker of the specification and of the test suite: U+2022
    followed by a space. *)
Definition bullet_marker : str := [8226; 32].

(** The fence-removal lines of [extract_disclosure_info]. *)
Definition strip_code_fence (content : str) : str :=
  let content := strip content in
  let content :=
    if startswith content (lit "```json") then slice_from 7 content else content in
  let content :=
    if startswith content (lit "```") then slice_from 3 content else content in
  let content :=
    if endswith content (lit "```") then slice_to_neg 3 content else content in
  strip content.

Definition required_fields : list str :=
  [lit "title"; lit "description"; lit "key_differences"].

(** One round of the loop that validates the required fields. *)
Definition check_required (data : json) (field : str) : exn + unit :=
  let missing := inl (ValueError (lit "Missing required field: " ++ field)) in
  let+ present := py_contains data field in
  if negb present then missing
  else
    let+ v := py_getitem data field in
    if negb (truthy v) then missing else inr tt.

Fixpoint check_all_required (data : json) (fields : list str) : exn + unit :=
  match fields with
  | [] => inr tt
  | f :: rest => let+ _ := check_required data f in check_all_required data rest
  end.

(** The f-string of the join: the marker, then the item. *)
Definition format_item (env : Env) (item : json) : str :=
  item_marker ++ match item with JStr s => s | _ => format_value env item end.

(** One round of the loop that turns list values into strings. *)
Definition normalize_field (env : Env) (data : json) (field : str) : exn + json :=
  let+ v := py_getitem data field in
  match v with
  | JList items =>
      py_setitem data field (JStr (join [10] (List.map (format_item env) items)))
  | _ => inr data
  end.

Fixpoint normalize_fields (env : Env) (data : json) (fields : list str)
  : exn + json :=
  match fields with
  | [] => inr data
  | f :: rest =>
      let+ data' := normalize_field env data f in
      normalize_fields env data' rest
  end.

Definition ensure_inventors (data : json) : exn + json :=
  let+ present := py_contains data (lit "inventors") in
  if negb present then py_setitem data (lit "inventors") (JList [])
  else
    let+ v := py_getitem data (lit "inventors") in
    match v with
    | JList _ => inr data
    | _ => py_setitem data (lit "inventors") (JList [])
    end.

(** Everything [extract_disclosure_info] does with the collaborator's
    answer. *)
Definition parse_extraction (env : Env) (content : option str) : exn + json :=
  match content with
  | None | Some [] => inl (ValueError (lit "Empty response from AI model"))
  | Some content =>
      match json_loads env (strip_code_fence content) with
      | inl msg => inl (ValueError (lit "Invalid JSON response from AI: " ++ msg))
      | inr data =>
          let+ _ := check_all_required data required_fields in
          let+ data := normalize_fields env data required_fields in
          ensure_inventors data
      end
  end.

Definition max_chars : N := 50000.

(** The truncation of very long documents. *)
Definition truncate_document (document_text : str) : str :=
  if max_chars <? N.of_nat (length document_text)
  then take (N.to_nat max_chars) document_text
       ++ [10; 10] ++ lit "[Document truncated...]"
  else document_text.

(** [extract_disclosure_info] *)
Definition extract_disclosure_info (env : Env) (document_text : str) : exn + json :=
  match openai_api_key env with
  | [] =>
      inl (ValueError
             (lit "OpenAI API key not configured. Set OPENAI_API_KEY environment variable."))
  | _ =>
      let document_text := truncate_document document_text in
      let+ content := chat_completion env document_text in
      parse_extraction env content
  end.

(* ===================================================================== *)
(** ** app/models.py *)
(* ===================================================================== *)

(** [DisclosureUpdate]: every field is [str | None] with default [None]. *)
Record DisclosureUpdate := {
  u_title : option str;
  u_description : option str;
  u_key_differences : option str;
  u_status : option str;
  u_review_notes : option str
}.

(** A field of the JSON body of a PATCH request, before validation. *)
Inductive BodyField :=
| Omitted
| Null
| Value (s : str).

Record PatchBody := {
  b_title : BodyField;
  b_description : BodyField;
  b_key_differences : BodyField;
  b_status : BodyField;
  b_review_notes : BodyField
}.

(** Validation of one [str | None = None] field. *)
Definition validate_field (f : BodyField) : option str :=
  match f with
  | Omitted => None
  | Null => None
  | Value s => Some s
  end.

(** Building [DisclosureUpdate] from the request body. *)
Definition DisclosureUpdate_validate (b : PatchBody) : DisclosureUpdate :=
  {| u_title := validate_field (b_title b);
     u_description := validate_field (b_description b);
     u_key_differences := validate_field (b_key_differences b);
     u_status := validate_field (b_status b);
     u_review_notes := validate_field (b_review_notes b) |}.

(** [Disclosure]: the response model has no [pdf_object_key]. *)
Record Disclosure := {
  m_id : uuid;
  m_docket_number : str;
  m_title : str;
  m_description : str;
  m_key_differences : str;
  m_status : str;
  m_review_notes : option str;
  m_original_filename : option str;
  m_created_at : timestamp;
  m_updated_at : timestamp
}.

Definition Disclosure_of_row (r : DisclosureRow) : Disclosure :=
  {| m_id := d_id r; m_docket_number := d_docket_number r;
     m_title := d_title r; m_description := d_description r;
     m_key_differences := d_key_differences r; m_status := d_status r;
     m_review_notes := d_review_notes r;
     m_original_filename := d_original_filename r;
     m_created_at := d_created_at r; m_updated_at := d_updated_at r |}.

(** [DisclosureWithInventors] *)
Record DisclosureWithInventors := {
  w_disclosure : Disclosure;
  w_inventors : list InventorRow;
  w_status_history : list HistoryRow
}.

(** [UploadResponse] *)
Record UploadResponse := {
  r_disclosure : DisclosureWithInventors;
  r_message : str
}.

(** [UploadFile]: the name the client sent, and what [await file.read()]
    yields. *)
Record UploadFile := {
  filename : option str;
  file_read : exn + bytes
}.

(* ===================================================================== *)
(** ** The statements of app/routers/disclosures.py *)
(* ===================================================================== *)

(** Modelled from the spec: the table definitions (column defaults, keys and
    constraints of section 6, the initial status [pending] of section 3) are
    in the schema, which is not part of the package. *)
Definition default_status : str := lit "pending".

(** A text value the server can store: no NUL and no lone surrogate. *)
Definition storable (s : str) : bool :=
  forallb (fun c => negb (c =? 0) && negb ((55296 <=? c) && (c <=? 57343))) s.

(** A query argument bound to a text column. *)
Definition text_param (v : json) : exn + option str :=
  match v with
  | JNull => inr None
  | JStr s =>
      if storable s then inr (Some s)
      else inl (PostgresError (lit "invalid byte sequence for encoding UTF8"))
  | _ => inl (OtherError (lit "invalid input for query argument (expected str, got "
                         ++ type_name v ++ lit ")"))
  end.

Definition not_null (column : str) (v : option str) : exn + str :=
  match v with
  | Some s => inr s
  | None => inl (PostgresError (lit "null value in column " ++ column
                               ++ lit " violates not-null constraint"))
  end.

Definition has_disclosure (id : uuid) (t : Tables) : bool :=
  existsb (fun r => d_id r =? id) (disclosures t).

Definition add_disclosure (r : DisclosureRow) (t : Tables) : Tables :=
  {| disclosures := disclosures t ++ [r]; inventors := inventors t;
     status_history := status_history t |}.

Definition add_inventor (r : InventorRow) (t : Tables) : Tables :=
  {| disclosures := disclosures t; inventors := inventors t ++ [r];
     status_history := status_history t |}.

Definition add_history (r : HistoryRow) (t : Tables) : Tables :=
  {| disclosures := disclosures t; inventors := inventors t;
     status_history := status_history t ++ [r] |}.

Definition map_disclosures (f : DisclosureRow -> DisclosureRow) (t : Tables)
  : Tables :=
  {| disclosures := List.map f (disclosures t); inventors := inventors t;
     status_history := status_history t |}.

(** [INSERT INTO disclosures (docket_number, title, description,
    key_differences, original_filename) VALUES (...) RETURNING ...] *)
Definition insert_disclosure (docket_number : str)
    (title description key_differences : json) (original_filename : str)
  : M DisclosureRow :=
  statement (fun w =>
    let+ docket := let+ v := text_param (JStr docket_number) in
                   not_null (lit "docket_number") v in
    let+ title := let+ v := text_param title in not_null (lit "title") v in
    let+ description := let+ v := text_param description in
                        not_null (lit "description") v in
    let+ key_differences := let+ v := text_param key_differences in
                            not_null (lit "key_differences") v in
    let+ original_filename := text_param (JStr original_filename) in
    let id := fresh w in
    if has_disclosure id (tables w)
       || existsb (fun r => str_eqb (d_docket_number r) docket)
            (disclosures (tables w))
    then inl (PostgresError (lit "duplicate key value violates unique constraint"))
    else
      let row :=
        {| d_id := id; d_docket_number := docket; d_title := title;
           d_description := description; d_key_differences := key_differences;
           d_status := default_status; d_review_notes := None;
           d_original_filename := original_filename;
           d_pdf_object_key := None;
           d_created_at := clock w; d_updated_at := clock w |} in
      inr (row, emit (EvInsertDisclosure id)
                  (set_fresh (id + 1)
                     (set_tables (add_disclosure row (tables w)) w)))).

Definition with_pdf_object_key (key : option str) (r : DisclosureRow)
  : DisclosureRow :=
  {| d_id := d_id r; d_docket_number := d_docket_number r;
     d_title := d_title r; d_description := d_description r;
     d_key_differences := d_key_differences r; d_status := d_status r;
     d_review_notes := d_review_notes r;
     d_original_filename := d_original_filename r;
     d_pdf_object_key := key;
     d_created_at := d_created_at r; d_updated_at := d_updated_at r |}.

(** [UPDATE disclosures SET pdf_object_key = $1 WHERE id = $2] *)
Definition set_pdf_object_key (key : str) (id : uuid) : M unit :=
  statement (fun w =>
    let+ stored := text_param (JStr key) in
    inr (tt, emit (EvSetObjectKey id key)
               (set_tables
                  (map_disclosures
                     (fun r => if d_id r =? id
                               then with_pdf_object_key stored r else r)
                     (tables w)) w))).

(** [INSERT INTO inventors (disclosure_id, name, email) VALUES (...)
    RETURNING ...] *)
Definition insert_inventor (disclosure_id : uuid) (name email : json)
  : M InventorRow :=
  statement (fun w =>
    let+ name := let+ v := text_param name in not_null (lit "name") v in
    let+ email := text_param email in
    if negb (has_disclosure disclosure_id (tables w))
    then inl (PostgresError (lit "insert on table inventors violates foreign key constraint"))
    else
      let id := fresh w in
      let row := {| i_id := id; i_disclosure_id := disclosure_id;
                    i_name := name; i_email := email;
                    i_created_at := clock w |} in
      inr (row, emit (EvInsertInventor id disclosure_id)
                  (set_fresh (id + 1)
                     (set_tables (add_inventor row (tables w)) w)))).

(** [INSERT INTO status_history (disclosure_id, status) VALUES ($1, $2)
    RETURNING ...] *)
Definition insert_status_history (disclosure_id : uuid) (status : str)
  : M HistoryRow :=
  statement (fun w =>
    let+ status := let+ v := text_param (JStr status) in
                   not_null (lit "status") v in
    if negb (has_disclosure disclosure_id (tables w))
    then inl (PostgresError (lit "insert on table status_history violates foreign key constraint"))
    else
      let id := fresh w in
      let row := {| h_id := id; h_disclosure_id := disclosure_id;
                    h_status := status; h_changed_at := clock w |} in
      inr (row, emit (EvInsertHistory id disclosure_id status)
                  (set_fresh (id + 1)
                     (set_tables (add_history row (tables w)) w)))).

(** The status stored for a disclosure, when there is such a row. *)
Definition stored_status (id : uuid) (t : Tables) : option str :=
  d_status <$> List.find (fun r => d_id r =? id) (disclosures t).

(** [SELECT id, status FROM disclosures WHERE id = $1] *)
Definition select_status (id : uuid) : M (option str) :=
  statement (fun w => inr (stored_status id (tables w), w)).

(** The columns a PATCH may assign. *)
Inductive Column :=
| ColTitle
| ColDescription
| ColKeyDifferences
| ColStatus
| ColReviewNotes.

Definition assign (c : Column) (v : str) (r : DisclosureRow) : DisclosureRow :=
  {| d_id := d_id r; d_docket_number := d_docket_number r;
     d_title := match c with ColTitle => v | _ => d_title r end;
     d_description := match c with ColDescription => v | _ => d_description r end;
     d_key_differences :=
       match c with ColKeyDifferences => v | _ => d_key_differences r end;
     d_status := match c with ColStatus => v | _ => d_status r end;
     d_review_notes :=
       match c with ColReviewNotes => Some v | _ => d_review_notes r end;
     d_original_filename := d_original_filename r;
     d_pdf_object_key := d_pdf_object_key r;
     d_created_at := d_created_at r; d_updated_at := d_updated_at r |}.

Definition touch (now : timestamp) (r : DisclosureRow) : DisclosureRow :=
  {| d_id := d_id r; d_docket_number := d_docket_number r;
     d_title := d_title r; d_description := d_description r;
     d_key_differences := d_key_differences r; d_status := d_status r;
     d_review_notes := d_review_notes r;
     d_original_filename := d_original_filename r;
     d_pdf_object_key := d_pdf_object_key r;
     d_created_at := d_created_at r; d_updated_at := now |}.

(** The SET clause, assignment by assignment, then [updated_at = NOW()]. *)
Definition apply_set (updates : list (Column * str)) (now : timestamp)
    (r : DisclosureRow) : DisclosureRow :=
  touch now (fold_left (fun r cv => assign (fst cv) (snd cv) r) updates r).

(** The tables after the UPDATE of the row [id]. *)
Definition updated_tables (updates : list (Column * str)) (id : uuid)
    (now : timestamp) (t : Tables) : Tables :=
  map_disclosures
    (fun r => if d_id r =? id then apply_set updates now r else r) t.

(** [UPDATE disclosures SET ... WHERE id = $n RETURNING ...] *)
Definition update_row (updates : list (Column * str)) (id : uuid)
  : M (option DisclosureRow) :=
  statement (fun w =>
    if forallb (fun cv => storable (snd cv)) updates
    then
      let t := updated_tables updates id (clock w) (tables w) in
      inr (List.find (fun r => d_id r =? id) (disclosures t),
           emit (EvUpdateDisclosure id) (set_tables t w))
    else inl (PostgresError (lit "invalid byte sequence for encoding UTF8"))).

(* ===================================================================== *)
(** ** app/routers/disclosures.py: upload *)
(* ===================================================================== *)

Definition hex_digit (n : N) : char := if n <? 10 then 48 + n else 87 + n.

(** [str(id)] for a UUID: 32 hexadecimal digits in groups 8-4-4-4-12. *)
Definition uuid_str (u : uuid) : str :=
  let hex := List.map
               (fun i => hex_digit (N.land (N.shiftr u (4 * (31 - N.of_nat i))) 15))
               (seq 0 32) in
  take 8 hex ++ [45] ++ take 4 (drop 8 hex) ++ [45] ++ take 4 (drop 12 hex)
  ++ [45] ++ take 4 (drop 16 hex) ++ [45] ++ drop 20 hex.

(** The [try] block around the blob write, with its [except Exception]. *)
Definition attach_pdf (row : DisclosureRow) (filename : str) (content : bytes)
  : M (option str) :=
  try_except
    (let* pdf_object_key := upload_pdf (uuid_str (d_id row)) filename content in
     let* _ := set_pdf_object_key pdf_object_key (d_id row) in
     ret (Some pdf_object_key))
    (fun e =>
       let* _ := logger WARNING
                   (lit "Failed to upload PDF to storage: " ++ exn_str e) in
       ret None).

(** The loop over the extracted inventors. *)
Fixpoint insert_inventors (disclosure_id : uuid) (invs : list json)
  : M (list InventorRow) :=
  match invs with
  | [] => ret []
  | inv :: rest =>
      let* name := lift (py_get inv (lit "name") (JStr (lit "Unknown"))) in
      let* email := lift (py_get inv (lit "email") JNull) in
      let* inv_row := insert_inventor disclosure_id name email in
      let* rows := insert_inventors disclosure_id rest in
      ret (inv_row :: rows)
  end.

(** The inventor row that an item of the extracted list leads to. *)
Definition inventor_of (disclosure_id : uuid) (inv : json) (r : InventorRow)
  : Prop :=
  i_disclosure_id r = disclosure_id
  /\ py_get inv (lit "name") (JStr (lit "Unknown")) = inr (JStr (i_name r))
  /\ py_get inv (lit "email") JNull
     = inr (match i_email r with Some e => JStr e | None => JNull end).

(** The writes of the blob attachment, as they show in the trace. *)
Definition blob_events (id : uuid) (key : option str) : list Event :=
  match key with
  | Some k => [EvPutObject k; EvSetObjectKey id k]
  | None => []
  end.

(** The reading of "the blob is attached only after the transaction has
    committed" on a trace: every object put in the bucket comes after a
    commit. *)
Definition blob_after_commit (tr : list Event) : Prop :=
  forall i k, tr !! i = Some (EvPutObject k) ->
              exists j, (j < i)%nat /\ tr !! j = Some EvCommit.

(** The events that open or close a transaction block. *)
Definition tx_boundary (ev : Event) : Prop :=
  ev = EvBegin \/ ev = EvCommit \/ ev = EvRollback.

(** The body of [async with conn.transaction()] in [upload_disclosure]:
    the dictionary [disclosure] it builds, with the key it holds under
    [pdf_object_key]. *)
Definition upload_transaction (extracted : json) (docket_number filename : str)
    (content : bytes) : M (DisclosureWithInventors * option str) :=
  let* title := lift (py_getitem extracted (lit "title")) in
  let* description := lift (py_getitem extracted (lit "description")) in
  let* key_differences := lift (py_getitem extracted (lit "key_differences")) in
  let* row := insert_disclosure docket_number title description
                key_differences filename in
  let* key := attach_pdf row filename content in
  let* invs := lift (let+ v := py_get extracted (lit "inventors") (JList []) in
                     py_iter v) in
  let* inventors := insert_inventors (d_id row) invs in
  let* history_row := insert_status_history (d_id row) (d_status row) in
  ret ({| w_disclosure := Disclosure_of_row row;
          w_inventors := inventors;
          w_status_history := [history_row] |}, key).

(** The items of the inventor list that the extraction yields for an
    uploaded file. *)
Definition extracted_inventors (env : Env) (file : UploadFile)
  : exn + list json :=
  let+ content := file_read file in
  let+ text := extract_text_from_pdf env content in
  let+ extracted := extract_disclosure_info env text in
  let+ v := py_get extracted (lit "inventors") (JList []) in
  py_iter v.

Definition min_text_length : nat := 50.

(** [upload_disclosure] *)
Definition upload_disclosure (env : Env) (file : UploadFile) : M UploadResponse :=
  let not_pdf := raise (HTTPException 400 (lit "Only PDF files are accepted")) in
  match filename file with
  | None | Some [] => not_pdf
  | Some name =>
      if negb (endswith (str_lower env name) (lit ".pdf")) then not_pdf
      else
        match file_read file with
        | inl _ => raise (HTTPException 400 (lit "Failed to read uploaded file"))
        | inr content =>
            match extract_text_from_pdf env content with
            | inl (ValueError msg) => raise (HTTPException 400 msg)
            | inl e => raise e
            | inr text =>
                if match text with [] => true | _ => false end
                   || (length (strip text) <? min_text_length)%nat
                then raise (HTTPException 400 (lit "Could not extract sufficient text from PDF. The file may be image-based or corrupted."))
                else
                  match extract_disclosure_info env text with
                  | inl e =>
                      raise (HTTPException 500
                               (lit "Failed to extract information from document: "
                                ++ exn_str e))
                  | inr extracted =>
                      let* docket_number := get_next_docket_number in
                      let* disclosure :=
                        get_connection
                          (transaction
                             (upload_transaction extracted docket_number name
                                content)) in
                      ret {| r_disclosure := fst disclosure;
                             r_message := lit "Disclosure created successfully" |}
                  end
            end
        end
  end.

(* ===================================================================== *)
(** ** app/routers/disclosures.py: update *)
(* ===================================================================== *)

Definition valid_statuses : list str :=
  [lit "pending"; lit "reviewed"; lit "approved"; lit "rejected"].

Definition is_valid_status (s : str) : bool :=
  existsb (str_eqb s) valid_statuses.

(** [if value is not None: updates.append(...); values.append(value)] *)
Definition append_if_set (c : Column) (v : option str)
    (updates : list (Column * str)) : list (Column * str) :=
  match v with
  | Some s => updates ++ [(c, s)]
  | None => updates
  end.

(** [update_disclosure] from [if not updates:] onwards. *)
Definition update_finish (disclosure_id : uuid) (update : DisclosureUpdate)
    (updates : list (Column * str)) (status_changed : bool) : M Disclosure :=
  match updates with
  | [] => raise (HTTPException 400 (lit "No fields to update"))
  | _ =>
      let* row := update_row updates disclosure_id in
      let* _ :=
        match status_changed, u_status update with
        | true, Some s =>
            let* _ := insert_status_history disclosure_id s in ret tt
        | _, _ => ret tt
        end in
      match row with
      | Some r => ret (Disclosure_of_row r)
      | None => raise (TypeError (lit "'NoneType' object is not iterable"))
      end
  end.

(** [update_disclosure] *)
Definition update_disclosure (disclosure_id : uuid) (update : DisclosureUpdate)
  : M Disclosure :=
  get_connection
    (let* existing := select_status disclosure_id in
     match existing with
     | None => raise (HTTPException 404 (lit "Disclosure not found"))
     | Some current_status =>
         let updates := append_if_set ColTitle (u_title update) [] in
         let updates := append_if_set ColDescription (u_description update) updates in
         let updates :=
           append_if_set ColKeyDifferences (u_key_differences update) updates in
         match u_status update with
         | Some s =>
             if negb (is_valid_status s)
             then raise (HTTPException 400 (lit "Invalid status value"))
             else
               let updates := updates ++ [(ColStatus, s)] in
               let status_changed := negb (str_eqb s current_status) in
               let updates :=
                 append_if_set ColReviewNotes (u_review_notes update) updates in
               update_finish disclosure_id update updates status_changed
         | None =>
             let updates :=
               append_if_set ColReviewNotes (u_review_notes update) updates in
             update_finish disclosure_id update updates false
         end
     end).

(** The whole SET clause a valid patch leads to, in the order the handler
    appends the assignments. *)
Definition set_clause (update : DisclosureUpdate) : list (Column * str) :=
  append_if_set ColReviewNotes (u_review_notes update)
    (append_if_set ColStatus (u_status update)
       (append_if_set ColKeyDifferences (u_key_differences update)
          (append_if_set ColDescription (u_description update)
             (append_if_set ColTitle (u_title update) [])))).

(** A request body in which every explicit null is left out instead. *)
Definition omit_null (f : BodyField) : BodyField :=
  match f with
  | Null => Omitted
  | _ => f
  end.

Definition omit_nulls (b : PatchBody) : PatchBody :=
  {| b_title := omit_null (b_title b);
     b_description := omit_null (b_description b);
     b_key_differences := omit_null (b_key_differences b);
     b_status := omit_null (b_status b);
     b_review_notes := omit_null (b_review_notes b) |}.

Definition not_a_value (f : BodyField) : Prop :=
  match f with Value _ => False | _ => True end.

(** What an update must leave alone in a row: the columns whose field in
    the body is null or left out, and the presence of review notes. *)
Definition keeps_unset_fields (b : PatchBody) (r r' : DisclosureRow) : Prop :=
  (not_a_value (b_title b) -> d_title r' = d_title r)
  /\ (not_a_value (b_description b) -> d_description r' = d_description r)
  /\ (not_a_value (b_key_differences b)
      -> d_key_differences r' = d_key_differences r)
  /\ (not_a_value (b_status b) -> d_status r' = d_status r)
  /\ (not_a_value (b_review_notes b) -> d_review_notes r' = d_review_notes r)
  /\ (d_review_notes r <> None -> d_review_notes r' <> None).

Definition all_null (b : PatchBody) : Prop :=
  not_a_value (b_title b) /\ not_a_value (b_description b)
  /\ not_a_value (b_key_differences b) /\ not_a_value (b_status b)
  /\ not_a_value (b_review_notes b).

(** The PATCH route: the body is validated into a [DisclosureUpdate], then
    handed to the handler. *)
Definition patch_disclosure (disclosure_id : uuid) (body : PatchBody)
  : M Disclosure :=
  update_disclosure disclosure_id (DisclosureUpdate_validate body).

(* ===================================================================== *)
(** ** app/routers/disclosures.py: list and CSV export *)
(* ===================================================================== *)

(** [if search:] and [if status:] hold for a non-empty string only. *)
Definition given (p : option str) : option str :=
  match p with
  | Some [] => None
  | _ => p
  end.

Definition matches_filters (env : Env) (search status : option str)
    (r : DisclosureRow) : bool :=
  match given search with
  | Some q =>
      let pattern := [37] ++ q ++ [37] in
      ilike env (d_title r) pattern || ilike env (d_description r) pattern
      || ilike env (d_docket_number r) pattern
  | None => true
  end
  && match given status with
     | Some st => str_eqb (d_status r) st
     | None => true
     end.

(** [ORDER BY created_at DESC] and [ORDER BY created_at] *)
Definition newest_first (a b : DisclosureRow) : Prop :=
  (d_created_at b <= d_created_at a)%Z.

Definition oldest_first (a b : InventorRow) : Prop :=
  (i_created_at a <= i_created_at b)%Z.

#[local] Instance newest_first_dec : RelDecision newest_first :=
  fun a b => Z_le_dec (d_created_at b) (d_created_at a).

#[local] Instance oldest_first_dec : RelDecision oldest_first :=
  fun a b => Z_le_dec (i_created_at a) (i_created_at b).

(** The filtered, ordered SELECT shared by the list and export routes. *)
Definition select_disclosures (env : Env) (search status : option str)
  : M (list DisclosureRow) :=
  statement (fun w =>
    inr (merge_sort newest_first
           (List.filter (matches_filters env search status)
              (disclosures (tables w))), w)).

(** [SELECT disclosure_id, name, email FROM inventors
     WHERE disclosure_id = ANY($1) ORDER BY created_at] *)
Definition select_inventors (ids : list uuid) : M (list InventorRow) :=
  statement (fun w =>
    inr (merge_sort oldest_first
           (List.filter (fun i => existsb (N.eqb (i_disclosure_id i)) ids)
              (inventors (tables w))), w)).

(** [list_disclosures] *)
Definition list_disclosures (env : Env) (search status : option str)
  : M (list DisclosureRow) :=
  get_connection (select_disclosures env search status).

(** One round of the loop that fills [inventors_by_disclosure]; the value
    under a disclosure id is the pair of its [names] and [emails] lists. *)
Definition group_inventor (acc : gmap N (list str * list str))
    (inv : InventorRow) : gmap N (list str * list str) :=
  let did := i_disclosure_id inv in
  let acc := match acc !! did with
             | None => <[did := ([], [])]> acc
             | Some _ => acc
             end in
  let acc := alter (fun ne => (fst ne ++ [i_name inv], snd ne)) did acc in
  match i_email inv with
  | Some (c :: e) => alter (fun ne => (fst ne, snd ne ++ [c :: e])) did acc
  | _ => acc
  end.




(** [csv.writer] with the default dialect: minimal quoting, comma
    delimiter, doubled quote character, CRLF line terminator. *)
Definition csv_special (c : char) : bool :=
  (c =? 44) || (c =? 34) || (c =? 13) || (c =? 10).

Definition csv_field (field : str) : str :=
  if existsb csv_special field
  then [34] ++ List.concat (List.map (fun c => if c =? 34 then [34; 34] else [c]) field)
       ++ [34]
  else field.

Definition csv_writerow (fields : list str) : str :=
  match fields with
  | [[]] => [34; 34; 13; 10]
  | _ => join [44] (List.map csv_field fields) ++ [13; 10]
  end.

Definition csv_header : list str :=
  [lit "Docket Number"; lit "Title"; lit "Description"; lit "Key Differences";
   lit "Status"; lit "Review Notes"; lit "Original Filename";
   lit "Inventor Names"; lit "Inventor Emails"; lit "Created At";
   lit "Updated At"].

(** [value or ""] *)
Definition or_empty (v : option str) : str :=
  match v with Some s => s | None => [] end.

(** [inventors_by_disclosure.get(id, default)], the default being the pair
    of two empty lists. *)
Definition inv_data_of (inventors_by_disclosure : gmap N (list str * list str))
    (id : uuid) : list str * list str :=
  match inventors_by_disclosure !! id with
  | Some d => d
  | None => ([], [])
  end.

(** The list handed to [writer.writerow] for one disclosure. *)
Definition export_row (env : Env)
    (inventors_by_disclosure : gmap N (list str * list str))
    (row : DisclosureRow) : list str :=
  let inv_data := inv_data_of inventors_by_disclosure (d_id row) in
  [d_docket_number row; d_title row; d_description row;
   d_key_differences row; d_status row;
   or_empty (d_review_notes row); or_empty (d_original_filename row);
   join (lit "; ") (fst inv_data); join (lit "; ") (snd inv_data);
   isoformat env (d_created_at row); isoformat env (d_updated_at row)].

(** The rows [export_disclosures_csv] writes, header first. *)
Definition export_rows (env : Env) (search status : option str)
  : M (list (list str)) :=
  get_connection
    (let* rows := select_disclosures env search status in
     let disclosure_ids := List.map d_id rows in
     let* inventors_by_disclosure :=
       match disclosure_ids with
       | [] => ret ∅
       | _ =>
           let* inventor_rows := select_inventors disclosure_ids in
           ret (fold_left group_inventor inventor_rows ∅)
       end in
     ret (csv_header :: List.map (export_row env inventors_by_disclosure) rows)).

(** [export_disclosures_csv]: the body of the streamed response. *)
Definition export_disclosures_csv (env : Env) (search status : option str)
  : M str :=
  let* rows := export_rows env search status in
  ret (List.concat (List.map csv_writerow rows)).

(* ===================================================================== *)
(** ** app/services/storage.py: download and delete *)
(* ===================================================================== *)

Definition get_object (key : str) : M bytes :=
  s3_call (fun w =>
    match s3 w with
    | Some objs =>
        match objs !! key with
        | Some body => inr (body, w)
        | None => inl (ClientError (lit "An error occurred (NoSuchKey) when calling the GetObject operation"))
        end
    | None => inl (ClientError (lit "An error occurred (NoSuchBucket) when calling the GetObject operation"))
    end).

(** Deleting a key that holds no object succeeds, as S3 has it. *)
Definition delete_object (key : str) : M unit :=
  s3_call (fun w =>
    match s3 w with
    | Some objs => inr (tt, set_s3 (Some (delete key objs)) w)
    | None => inl (ClientError (lit "An error occurred (NoSuchBucket) when calling the DeleteObject operation"))
    end).

(** [download_pdf] *)
Definition download_pdf (object_key : str) : M bytes :=
  except_ClientError (get_object object_key)
    (fun e =>
       let* _ := logger ERROR (lit "Failed to download PDF: " ++ exn_str e) in
       raise e).

(** [delete_pdf]: a [ClientError] is logged and not raised again. *)
Definition delete_pdf (object_key : str) : M unit :=
  except_ClientError
    (let* _ := delete_object object_key in
     logger INFO (lit "Deleted PDF: " ++ object_key))
    (fun e => logger ERROR (lit "Failed to delete PDF: " ++ exn_str e)).

(* ===================================================================== *)
(** ** app/routers/disclosures.py: get, delete, download *)
(* ===================================================================== *)

(** [SELECT ... FROM disclosures WHERE id = $1] *)
Definition select_disclosure (id : uuid) : M (option DisclosureRow) :=
  statement (fun w =>
    inr (List.find (fun r => d_id r =? id) (disclosures (tables w)), w)).

(** [SELECT ... FROM inventors WHERE disclosure_id = $1 ORDER BY created_at] *)
Definition select_inventors_of (id : uuid) : M (list InventorRow) :=
  statement (fun w =>
    inr (merge_sort oldest_first
           (List.filter (fun i => i_disclosure_id i =? id)
              (inventors (tables w))), w)).

(** [ORDER BY changed_at DESC] *)
Definition latest_first (a b : HistoryRow) : Prop :=
  (h_changed_at b <= h_changed_at a)%Z.

#[local] Instance latest_first_dec : RelDecision latest_first :=
  fun a b => Z_le_dec (h_changed_at b) (h_changed_at a).

(** [SELECT ... FROM status_history WHERE disclosure_id = $1
     ORDER BY changed_at DESC] *)
Definition select_history_of (id : uuid) : M (list HistoryRow) :=
  statement (fun w =>
    inr (merge_sort latest_first
           (List.filter (fun h => h_disclosure_id h =? id)
              (status_history (tables w))), w)).

(** [get_disclosure] *)
Definition get_disclosure (disclosure_id : uuid) : M DisclosureWithInventors :=
  get_connection
    (let* row := select_disclosure disclosure_id in
     match row with
     | None => raise (HTTPException 404 (lit "Disclosure not found"))
     | Some r =>
         let* inventor_rows := select_inventors_of disclosure_id in
         let* history_rows := select_history_of disclosure_id in
         ret {| w_disclosure := Disclosure_of_row r;
                w_inventors := inventor_rows;
                w_status_history := history_rows |}
     end).

(** The tables without a disclosure and without the rows that hang on it.

    Modelled from the spec: the foreign keys of [inventors] and
    [status_history] are declared ON DELETE CASCADE in the schema (section
    6), which is not part of the package; the handler's docstring and the
    test [test_delete_cascades_to_inventors] rely on it. *)
Definition without_disclosure (id : uuid) (t : Tables) : Tables :=
  {| disclosures := List.filter (fun r => negb (d_id r =? id)) (disclosures t);
     inventors :=
       List.filter (fun i => negb (i_disclosure_id i =? id)) (inventors t);
     status_history :=
       List.filter (fun h => negb (h_disclosure_id h =? id))
         (status_history t) |}.

(** [DELETE FROM disclosures WHERE id = $1] *)
Definition delete_row (id : uuid) : M unit :=
  statement (fun w =>
    inr (tt, set_tables (without_disclosure id (tables w)) w)).

(** [SELECT pdf_object_key FROM disclosures WHERE id = $1] *)
Definition select_pdf_object_key (id : uuid) : M (option (option str)) :=
  statement (fun w =>
    inr (d_pdf_object_key
           <$> List.find (fun r => d_id r =? id) (disclosures (tables w)),
         w)).

(** The blob clean-up of [delete_disclosure], with its [except Exception]. *)
Definition cleanup_pdf (pdf_object_key : option str) : M unit :=
  match pdf_object_key with
  | Some (c :: key) =>
      try_except (delete_pdf (c :: key))
        (fun e =>
           logger WARNING
             (lit "Failed to delete PDF from storage: " ++ exn_str e))
  | _ => ret tt
  end.

(** [delete_disclosure]: the message of the response. *)
Definition delete_disclosure (disclosure_id : uuid) : M str :=
  let* _ :=
    get_connection
      (let* row := select_pdf_object_key disclosure_id in
       match row with
       | None => raise (HTTPException 404 (lit "Disclosure not found"))
       | Some pdf_object_key =>
           let* _ := delete_row disclosure_id in
           cleanup_pdf pdf_object_key
       end) in
  ret (lit "Disclosure deleted successfully").

(** *** The response object

    [Response(content=..., headers={...})] builds the raw headers when the
    object is made: Starlette's [Response.init_headers] encodes every
    header value with [v.encode("latin-1")], which raises
    [UnicodeEncodeError], a subclass of [ValueError], on a code point
    above 255. *)

Definition latin1 (c : char) : bool := c <? 256.

(** Lower-case hexadecimal rendering ([format(n, "x")]). *)
Fixpoint to_hex_aux (fuel : nat) (n : N) (acc : str) : str :=
  let acc' := hex_digit (n mod 16) :: acc in
  match fuel with
  | O => acc'
  | S f => if n <? 16 then acc' else to_hex_aux f (n / 16) acc'
  end.

Definition to_hex (n : N) : str := to_hex_aux (N.to_nat (N.log2 n)) n [].

(** The escape of the offending character in the message. *)
Definition escaped_char (c : char) : str :=
  if c <=? 255 then [92; 120] ++ zfill 2 (to_hex c)
  else if c <=? 65535 then [92; 117] ++ zfill 4 (to_hex c)
  else [92; 85] ++ zfill 8 (to_hex c).

(** [str(e)] of the [UnicodeEncodeError] of the latin-1 codec for the
    characters [run] found at index [start]. *)
Definition latin1_error_str (start : nat) (run : str) : str :=
  match run with
  | [c] =>
      lit "'latin-1' codec can't encode character '" ++ escaped_char c
      ++ lit "' in position " ++ to_dec (N.of_nat start)
      ++ lit ": ordinal not in range(256)"
  | _ =>
      lit "'latin-1' codec can't encode characters in position "
      ++ to_dec (N.of_nat start) ++ lit "-"
      ++ to_dec (N.of_nat (start + length run - 1))
      ++ lit ": ordinal not in range(256)"
  end.

(** The characters at the front of [s] that satisfy [p]. *)
Fixpoint leading (p : char -> bool) (s : str) : str :=
  match s with
  | c :: s' => if p c then c :: leading p s' else []
  | [] => []
  end.

(** [s.encode("latin-1")]: the codec reports the first run of characters
    it cannot encode.  The encoded bytes are the code points themselves. *)
Definition encode_latin1 (s : str) : exn + str :=
  let start := length (leading latin1 s) in
  match drop start s with
  | [] => inr s
  | rest =>
      inl (ValueError
             (latin1_error_str start (leading (fun c => negb (latin1 c)) rest)))
  end.

(** The response of the download route: the body and the
    [Content-Disposition] header. *)
Record PdfResponse := {
  p_content : bytes;
  p_content_disposition : str
}.

(** [Response(content=pdf_content, media_type="application/pdf",
     headers={"Content-Disposition": ...})] *)
Definition Response (content : bytes) (content_disposition : str)
  : exn + PdfResponse :=
  let+ _ := encode_latin1 content_disposition in
  inr {| p_content := content; p_content_disposition := content_disposition |}.

(** [row["original_filename"] or "disclosure.pdf"] *)
Definition served_filename (r : DisclosureRow) : str :=
  match d_original_filename r with
  | Some (c :: name) => c :: name
  | _ => lit "disclosure.pdf"
  end.

(** [f'attachment; filename="{filename}"'] *)
Definition attachment_header (filename : str) : str :=
  lit "attachment; filename=" ++ [34] ++ filename ++ [34].

(** [download_disclosure_pdf] *)
Definition download_disclosure_pdf (disclosure_id : uuid) : M PdfResponse :=
  get_connection
    (let* row := select_disclosure disclosure_id in
     match row with
     | None => raise (HTTPException 404 (lit "Disclosure not found"))
     | Some r =>
         match d_pdf_object_key r with
         | Some (c :: key) =>
             let* pdf_content :=
               try_except (download_pdf (c :: key))
                 (fun e =>
                    let* _ := logger ERROR
                                (lit "Failed to download PDF: " ++ exn_str e) in
                    raise (HTTPException 500 (lit "Failed to retrieve PDF"))) in
             let filename := served_filename r in
             lift (Response pdf_content (attachment_header filename))
         | _ =>
             raise (HTTPException 404
                      (lit "PDF not available for this disclosure"))
         end
     end).

(* ===================================================================== *)
(** ** Vocabulary of the properties *)
(* ===================================================================== *)

(** A computation that leaves one component of the world as it finds it. *)
Definition keeps {X A : Type} (f : World -> X) (m : M A) : Prop :=
  forall w r w', m w = (r, w') -> f w' = f w.

(** Every inventor row and every history row hangs on a stored disclosure. *)
Definition referential_integrity (t : Tables) : Prop :=
  Forall (fun i => has_disclosure (i_disclosure_id i) t = true) (inventors t)
  /\ Forall (fun h => has_disclosure (h_disclosure_id h) t = true)
       (status_history t).

(** Every stored status, in the disclosures and in the history, is one of
    the four. *)
Definition statuses_valid (t : Tables) : Prop :=
  Forall (fun r => In (d_status r) valid_statuses) (disclosures t)
  /\ Forall (fun h => In (h_status h) valid_statuses) (status_history t).

(** What an update may not touch in a row. *)
Definition same_identity (r r' : DisclosureRow) : Prop :=
  d_id r' = d_id r /\ d_docket_number r' = d_docket_number r
  /\ d_original_filename r' = d_original_filename r
  /\ d_pdf_object_key r' = d_pdf_object_key r
  /\ d_created_at r' = d_created_at r.

(** The value a patch gives a column, or else the stored one. *)
Definition patched (new : option str) (old : str) : str :=
  match new with Some v => v | None => old end.

(** The first required field a decoded object does not hold a truthy
    value for. *)
Definition first_missing (m : gmap (list N) json) : option str :=
  List.find (fun f => match m !! f with
                      | Some v => negb (truthy v)
                      | None => true
                      end) required_fields.

Definition is_list (v : json) : bool :=
  match v with JList _ => true | _ => false end.

(** The objects of the bucket; none when there is no bucket. *)
Definition objects (w : World) : gmap (list N) (list byte) :=
  match s3 w with
  | Some objs => objs
  | None => ∅
  end.

(* ===================================================================== *)
(** ** Concrete environments and worlds used by the examples *)
(* ===================================================================== *)

Definition empty_tables : Tables :=
  {| disclosures := []; inventors := []; status_history := [] |}.

(** A freshly migrated deployment after six uploads were numbered. *)
Definition world0 : World :=
  {| tables := empty_tables; docket_seq := 6%Z; tx := Idle; s3 := Some ∅;
     log := []; trace := []; fresh := 1; clock := 1700000000%Z;
     db_faults := []; s3_faults := [] |}.

(** A JSON string literal. *)
Definition q (s : string) : list N := [34] ++ lit s ++ [34].

(** The answer of the structured-extraction collaborator in the test suite:
    an object with three text fields and no inventors. *)
Definition sample_body : list N :=
  q "title" ++ lit ": " ++ q "Test Title" ++ lit ", "
  ++ q "description" ++ lit ": " ++ q "Test description" ++ lit ", "
  ++ q "key_differences" ++ lit ": " ++ q "Novel approach" ++ lit ", "
  ++ q "inventors" ++ lit ": []".

Definition sample_text : list N := [123] ++ sample_body ++ [125].

Definition sample_value : json :=
  JDict (<[lit "title" := JStr (lit "Test Title")]>
         (<[lit "description" := JStr (lit "Test description")]>
          (<[lit "key_differences" := JStr (lit "Novel approach")]>
           (<[lit "inventors" := JList []]> ∅)))).

(** An answer whose [key_differences] is a list of two strings, and one
    with two inventors. *)
Definition list_text : list N :=
  [123] ++ q "title" ++ lit ": " ++ q "T" ++ lit ", "
  ++ q "description" ++ lit ": " ++ q "D" ++ lit ", "
  ++ q "key_differences" ++ lit ": [" ++ q "a" ++ lit ", " ++ q "b" ++ lit "]"
  ++ [125].

Definition list_value : json :=
  JDict (<[lit "title" := JStr (lit "T")]>
         (<[lit "description" := JStr (lit "D")]>
          (<[lit "key_differences" := JList [JStr (lit "a"); JStr (lit "b")]]> ∅))).

Definition inventor_value (name email : string) : json :=
  JDict (<[lit "name" := JStr (lit name)]>
         (<[lit "email" := JStr (lit email)]> ∅)).

Definition team_text : list N := lit "{team}".

Definition team_value : json :=
  JDict (<[lit "title" := JStr (lit "Test Invention")]>
         (<[lit "description" := JStr (lit "A test invention description.")]>
          (<[lit "key_differences" := JStr (lit "Novel approach")]>
           (<[lit "inventors" :=
                JList [inventor_value "John Doe" "john@example.com";
                       inventor_value "Jane Smith" "jane@example.com"]]> ∅)))).

Definition ascii_lower (s : list N) : list N :=
  List.map (fun c => if (65 <=? c) && (c <=? 90) then c + 32 else c) s.

(** Text of a one-page document, 64 characters long, and of a scanned
    page that yields 30 characters. *)
Definition long_page : list N :=
  lit "A fin field-effect transistor with a gate wrapped around a fin.".

Definition short_page : list N := lit "  Figure 1: scanned drawing.    ".

(** A test double for the collaborators: the decoder knows the three
    answers above, the model always gives the answer with two inventors,
    and the document reader tells documents apart by their first byte. *)
Definition env0 : Env :=
  {| openai_api_key := lit "test-key";
     chat_completion := fun _ => inr (Some team_text);
     json_loads := fun s =>
       if str_eqb s sample_text then inr sample_value
       else if str_eqb s list_text then inr list_value
       else if str_eqb s team_text then inr team_value
       else inl (lit "Expecting value: line 1 column 1 (char 0)");
     format_value := type_name;
     fitz_pages := fun b =>
       match b with
       | [] => inl (lit "Cannot open empty stream")
       | x00 :: _ => inr [short_page]
       | _ => inr [long_page]
       end;
     str_lower := ascii_lower;
     ilike := fun v pat =>
       contains (ascii_lower v)
         (ascii_lower (List.filter (fun c => negb (c =? 37)) pat));
     isoformat := fun t => to_dec (Z.to_N t) |}.

Definition scanned_file : UploadFile :=
  {| filename := Some (lit "Scan.PDF"); file_read := inr [x00] |}.

Definition finfet_file : UploadFile :=
  {| filename := Some (lit "FinFET.pdf"); file_read := inr [x25; x50; x44; x46] |}.

(** A deployment holding one pending disclosure with two inventors. *)
Definition stored_row : DisclosureRow :=
  {| d_id := 1; d_docket_number := lit "IDF-0007";
     d_title := lit "Test Invention";
     d_description := lit "A test invention description.";
     d_key_differences := lit "Novel approach";
     d_status := lit "pending"; d_review_notes := Some (lit "needs figures");
     d_original_filename := Some (lit "FinFET.pdf");
     d_pdf_object_key := None;
     d_created_at := 1700000000%Z; d_updated_at := 1700000000%Z |}.

Definition stored_tables : Tables :=
  {| disclosures := [stored_row];
     inventors :=
       [ {| i_id := 2; i_disclosure_id := 1; i_name := lit "John Doe";
            i_email := Some (lit "john@example.com");
            i_created_at := 1700000000%Z |};
         {| i_id := 3; i_disclosure_id := 1; i_name := lit "Jane Smith";
            i_email := None; i_created_at := 1700000000%Z |} ];
     status_history :=
       [ {| h_id := 4; h_disclosure_id := 1; h_status := lit "pending";
            h_changed_at := 1700000000%Z |} ] |}.

Definition world1 : World :=
  {| tables := stored_tables; docket_seq := 7%Z; tx := Idle; s3 := Some ∅;
     log := []; trace := []; fresh := 5; clock := 1700000600%Z;
     db_faults := []; s3_faults := [] |}.

(** A patch with a new title and a status that is not one of the four. *)
Definition bogus_patch : DisclosureUpdate :=
  {| u_title := Some (lit "Updated Title"); u_description := None;
     u_key_differences := None; u_status := Some (lit "bogus");
     u_review_notes := None |}.

Definition approve_patch : DisclosureUpdate :=
  {| u_title := None; u_description := None; u_key_differences := None;
     u_status := Some (lit "approved"); u_review_notes := None |}.

(** A body that sets the title and sends an explicit null for the notes,
    and one in which every field is null. *)
Definition null_notes_body : PatchBody :=
  {| b_title := Value (lit "Updated Title"); b_description := Omitted;
     b_key_differences := Omitted; b_status := Omitted;
     b_review_notes := Null |}.

Definition all_null_body : PatchBody :=
  {| b_title := Null; b_description := Null; b_key_differences := Null;
     b_status := Null; b_review_notes := Null |}.

(** The blob store refuses the connection. *)
Definition world_no_blob_store : World :=
  {| tables := empty_tables; docket_seq := 6%Z; tx := Idle; s3 := None;
     log := []; trace := []; fresh := 1; clock := 1700000000%Z;
     db_faults := [];
     s3_faults := [Some (OtherError (lit "Could not connect to the endpoint URL"))] |}.

(** The connection is lost when the status-history row is inserted: the
    eighth statement of an upload with two inventors. *)
Definition world_history_fails : World :=
  {| tables := empty_tables; docket_seq := 6%Z; tx := Idle; s3 := Some ∅;
     log := []; trace := []; fresh := 1; clock := 1700000000%Z;
     db_faults := [None; None; None; None; None; None;
                   Some (PostgresError (lit "connection is closed"))];
     s3_faults := [] |}.

(** The connection is lost at the third statement of an update. *)
Definition world_update_fault : World :=
  {| tables := stored_tables; docket_seq := 7%Z; tx := Idle; s3 := Some ∅;
     log := []; trace := []; fresh := 5; clock := 1700000600%Z;
     db_faults := [None; None;
                   Some (PostgresError (lit "connection is closed"))];
     s3_faults := [] |}.

(** A deployment whose bucket has not been created yet. *)
Definition world_no_bucket : World :=
  {| tables := empty_tables; docket_seq := 6%Z; tx := Idle; s3 := None;
     log := []; trace := []; fresh := 1; clock := 1700000000%Z;
     db_faults := []; s3_faults := [] |}.


(** An answer with an empty title and without key differences, and the
    deployment whose model gives it. *)
Definition untitled_value : gmap (list N) json :=
  <[lit "title" := JStr []]>
    (<[lit "description" := JStr (lit "A test invention description.")]> ∅).

Definition env_untitled : Env :=
  {| openai_api_key := openai_api_key env0;
     chat_completion := fun _ => inr (Some (lit "{untitled}"));
     json_loads := fun _ => inr (JDict untitled_value);
     format_value := format_value env0;
     fitz_pages := fitz_pages env0;
     str_lower := str_lower env0;
     ilike := ilike env0;
     isoformat := isoformat env0 |}.


(** A stored disclosure whose object is no longer in the bucket, one whose
    object is there, and one uploaded under a name with a character outside
    latin-1 (U+0130). *)
Definition keyed_row (name : list N) : DisclosureRow :=
  {| d_id := 1; d_docket_number := lit "IDF-0007";
     d_title := lit "Test Invention";
     d_description := lit "A test invention description.";
     d_key_differences := lit "Novel approach";
     d_status := lit "pending"; d_review_notes := None;
     d_original_filename := Some name;
     d_pdf_object_key :=
       Some (lit "disclosures/00000000-0000-0000-0000-000000000001/" ++ name);
     d_created_at := 1700000000%Z; d_updated_at := 1700000000%Z |}.

Definition world_with_object (name : list N)
    (objs : gmap (list N) (list byte)) : World :=
  {| tables := {| disclosures := [keyed_row name]; inventors := [];
                  status_history := [] |};
     docket_seq := 7%Z; tx := Idle; s3 := Some objs;
     log := []; trace := []; fresh := 5; clock := 1700000600%Z;
     db_faults := []; s3_faults := [] |}.


Definition dotted_name : list N := [304] ++ lit ".pdf".

Definition world_dotted_name : World :=
  world_with_object dotted_name
    {[ lit "disclosures/00000000-0000-0000-0000-000000000001/" ++ dotted_name
       := [x25; x50; x44; x46] ]}.

(* ===================================================================== *)
(** ** Python strings: lemmas *)
(* ===================================================================== *)

Lemma to_dec_aux_app fuel : forall n acc,
  to_dec_aux fuel n acc = to_dec_aux fuel n [] ++ acc.
Proof.
  induction fuel as [|f IH]; intros n acc; simpl.
  - reflexivity.
  - destruct (n <? 10); [reflexivity|].
    rewrite (IH _ (_ :: acc)), (IH _ [_]).
    now rewrite <- app_assoc.
Qed.

Lemma to_dec_aux_step f n :
  10 <= n -> to_dec_aux (S f) n [] = to_dec_aux f (n / 10) [] ++ [48 + n mod 10].
Proof.
  intros H. simpl. destruct (N.ltb_spec n 10); [lia|].
  apply to_dec_aux_app.
Qed.

Lemma dec_value_snoc s c : dec_value (s ++ [c]) = 10 * dec_value s + (c - 48).
Proof. unfold dec_value. now rewrite fold_left_app. Qed.

Lemma div10_bound f n : n < 2 ^ N.of_nat (S (S f)) -> n / 10 < 2 ^ N.of_nat (S f).
Proof.
  intros H.
  replace (N.of_nat (S (S f))) with (N.succ (N.of_nat (S f))) in H by lia.
  rewrite N.pow_succ_r' in H.
  apply N.Div0.div_lt_upper_bound. lia.
Qed.

Lemma to_dec_aux_value fuel : forall n,
  n < 2 ^ N.of_nat (S fuel) -> dec_value (to_dec_aux fuel n []) = n.
Proof.
  induction fuel as [|f IH]; intros n Hn.
  - simpl in *. change (2 ^ 1) with 2 in Hn.
    assert (n mod 10 = n) as -> by (apply N.mod_small; lia).
    unfold dec_value; simpl. lia.
  - destruct (N.ltb_spec n 10) as [Hlt|Hge].
    + simpl. apply N.ltb_lt in Hlt as Hb. rewrite Hb.
      assert (n mod 10 = n) as -> by (apply N.mod_small; lia).
      unfold dec_value; simpl. lia.
    + rewrite to_dec_aux_step by assumption.
      rewrite dec_value_snoc, IH by now apply div10_bound.
      pose proof (N.Div0.div_mod n 10).
      assert (n mod 10 < 10) as Hm by (apply N.mod_upper_bound; lia).
      generalize dependent (n / 10). generalize dependent (n mod 10).
      intros; lia.
Qed.

Lemma log2_fuel n : n < 2 ^ N.of_nat (S (N.to_nat (N.log2 n))).
Proof.
  replace (N.of_nat (S (N.to_nat (N.log2 n)))) with (N.succ (N.log2 n)) by lia.
  destruct (N.eq_dec n 0) as [->|Hn]; [reflexivity|].
  apply N.log2_spec. lia.
Qed.

Lemma to_dec_value n : dec_value (to_dec n) = n.
Proof. apply to_dec_aux_value, log2_fuel. Qed.

Lemma to_dec_aux_digits fuel : forall n,
  forallb isdigit (to_dec_aux fuel n []) = true.
Proof.
  assert (Hd : forall n, isdigit (48 + n mod 10) = true).
  { intros n. assert (n mod 10 < 10) by (apply N.mod_upper_bound; lia).
    unfold isdigit. generalize dependent (n mod 10). intros d Hd.
    apply andb_true_intro; split; apply N.leb_le; lia. }
  induction fuel as [|f IH]; intros n; simpl.
  - now rewrite Hd.
  - destruct (n <? 10); simpl; [now rewrite Hd|].
    rewrite to_dec_aux_app, forallb_app, IH. simpl. now rewrite Hd.
Qed.

Lemma to_dec_digits n : forallb isdigit (to_dec n) = true.
Proof. apply to_dec_aux_digits. Qed.

Lemma dec_value_bound s :
  forallb isdigit s = true -> dec_value s < 10 ^ N.of_nat (length s).
Proof.
  induction s as [|c s IH] using rev_ind; intros Hs.
  - simpl. unfold dec_value. simpl. lia.
  - rewrite forallb_app in Hs. apply andb_prop in Hs as [Hs Hc].
    simpl in Hc. rewrite andb_true_r in Hc. unfold isdigit in Hc.
    apply andb_prop in Hc as [H1 H2]. apply N.leb_le in H1, H2.
    rewrite dec_value_snoc, length_app. simpl.
    replace (N.of_nat (length s + 1)) with (N.succ (N.of_nat (length s))) by lia.
    rewrite N.pow_succ_r'. specialize (IH Hs). lia.
Qed.

Lemma to_dec_length n k :
  10 ^ N.of_nat k <= n -> (k < length (to_dec n))%nat.
Proof.
  intros H.
  pose proof (dec_value_bound _ (to_dec_digits n)) as Hb.
  rewrite to_dec_value in Hb.
  destruct (Nat.lt_ge_cases k (length (to_dec n))) as [|Hle]; [assumption|].
  exfalso.
  assert (10 ^ N.of_nat (length (to_dec n)) <= 10 ^ N.of_nat k)
    by (apply N.pow_le_mono_r; lia).
  lia.
Qed.

Lemma to_dec_nonempty n : (1 <= length (to_dec n))%nat.
Proof.
  unfold to_dec. rewrite to_dec_aux_app.
  destruct (N.to_nat (N.log2 n)); simpl.
  - lia.
  - destruct (n <? 10); simpl; [lia|]. rewrite to_dec_aux_app, !length_app. simpl. lia.
Qed.

(* ===================================================================== *)
(** ** Docket sequencer *)
(* ===================================================================== *)

Lemma zfill_digits width s :
  forallb isdigit s = true -> forallb isdigit (zfill width s) = true.
Proof.
  intros H. unfold zfill. rewrite forallb_app, H, andb_true_r.
  induction (width - length s)%nat; simpl; auto.
Qed.

Lemma zfill_length width s : (width <= length (zfill width s))%nat.
Proof. unfold zfill. rewrite length_app, repeat_length. lia. Qed.

Lemma zfill_wide width s : (width <= length s)%nat -> zfill width s = s.
Proof.
  intros H. unfold zfill. now replace (width - length s)%nat with O by lia.
Qed.

Lemma get_next_docket_number_run w :
  hd None (db_faults w) = None ->
  get_next_docket_number w
  = (Ok (lit "IDF-" ++ format_04d (docket_seq w + 1)),
     set_tx Idle
       (emit (EvNextval (docket_seq w + 1))
          (set_docket_seq (docket_seq w + 1)
             (snd (next_db_fault (set_tx Idle w)))))).
Proof.
  intros Hf. unfold get_next_docket_number, get_connection, bind,
    nextval_docket_seq, statement, next_db_fault, ret. simpl.
  destruct (db_faults w) as [|[e|] rest]; simpl in *; try discriminate;
    reflexivity.
Qed.

(** C8: when the sequencer hands out the counter value [n >= 0],
    [get_next_docket_number] returns [IDF-] followed by the decimal digits of
    [n], padded with zeros on the left up to four characters: the digits
    read back as [n] (nothing wraps), there are at least four of them, and
    from 10000 on the field is just as wide as the number. *)
Theorem docket_number_format (w : World) :
  hd None (db_faults w) = None ->
  (0 <= docket_seq w + 1)%Z ->
  let n := (docket_seq w + 1)%Z in
  let digits := to_dec (Z.to_N n) in
  let field := repeat 48 (4 - length digits) ++ digits in
  fst (get_next_docket_number w) = Ok (lit "IDF-" ++ field)
  /\ docket_seq (snd (get_next_docket_number w)) = n
  /\ forallb isdigit field = true
  /\ (4 <= length field)%nat
  /\ Z.of_N (dec_value digits) = n
  /\ ((10000 <= n)%Z -> field = digits /\ (5 <= length digits)%nat).
Proof.
  intros Hf Hn n digits field.
  rewrite (get_next_docket_number_run w Hf). simpl.
  assert (Hfmt : format_04d n = field).
  { unfold format_04d. destruct (Z.ltb_spec n 0); [lia|reflexivity]. }
  fold n. rewrite Hfmt.
  split; [reflexivity|]. split.
  { unfold next_db_fault. destruct (db_faults w); reflexivity. }
  split; [apply (zfill_digits 4), to_dec_digits|].
  split; [apply (zfill_length 4)|].
  split; [subst digits; rewrite to_dec_value; lia|].
  intros Hbig.
  assert (4 < length digits)%nat as Hlen.
  { apply to_dec_length. change (10 ^ N.of_nat 4) with 10000. lia. }
  split; [apply (zfill_wide 4); lia | lia].
Qed.

Lemma docket_number_format_witness :
  fst (get_next_docket_number world0) = Ok (lit "IDF-0007")
  /\ docket_seq (snd (get_next_docket_number world0)) = 7%Z.
Proof.
  destruct (docket_number_format world0 eq_refl) as (H1 & H2 & _).
  - simpl. lia.
  - split; [exact H1 | exact H2].
Defined.

(* ===================================================================== *)
(** ** Code-fence removal *)
(* ===================================================================== *)

Section Strip.

(** Lemmas on [strip], [startswith], [endswith] and slices. *)

Lemma blank_rev ws : blank ws -> blank (rev ws).
Proof.
  unfold blank. rewrite !forallb_forall. intros H c Hc.
  apply H. now apply in_rev.
Qed.

Lemma lstrip_blank ws s : blank ws -> lstrip (ws ++ s) = lstrip s.
Proof.
  unfold blank. induction ws as [|c ws IH]; simpl; [reflexivity|].
  intros H. apply andb_prop in H as [Hc Hws]. rewrite Hc. auto.
Qed.

Lemma lstrip_solid c s : isspace c = false -> lstrip (c :: s) = c :: s.
Proof. intros H. simpl. now rewrite H. Qed.

Lemma rstrip_blank s ws : blank ws -> rstrip (s ++ ws) = rstrip s.
Proof.
  intros H. unfold rstrip. rewrite rev_app_distr.
  now rewrite lstrip_blank by now apply blank_rev.
Qed.

Lemma rstrip_solid s c : isspace c = false -> rstrip (s ++ [c]) = s ++ [c].
Proof.
  intros H. unfold rstrip. rewrite rev_app_distr. simpl.
  rewrite H. simpl. now rewrite rev_involutive.
Qed.

(** A text with solid ends comes out of [strip] on its own. *)
Lemma strip_core ws1 a mid z ws2 :
  blank ws1 -> blank ws2 -> isspace a = false -> isspace z = false ->
  strip (ws1 ++ (a :: mid ++ [z]) ++ ws2) = a :: mid ++ [z].
Proof.
  intros H1 H2 Ha Hz. unfold strip.
  rewrite lstrip_blank by assumption. simpl app.
  rewrite lstrip_solid by assumption.
  change (a :: (mid ++ [z]) ++ ws2) with ((a :: mid ++ [z]) ++ ws2).
  rewrite rstrip_blank by assumption.
  change (a :: mid ++ [z]) with ((a :: mid) ++ [z]).
  now apply rstrip_solid.
Qed.

Lemma strip_solid a mid z :
  isspace a = false -> isspace z = false ->
  strip (a :: mid ++ [z]) = a :: mid ++ [z].
Proof.
  intros Ha Hz.
  pose proof (strip_core [] a mid z [] eq_refl eq_refl Ha Hz) as H.
  rewrite app_nil_l, app_nil_r in H. exact H.
Qed.

Lemma startswith_app p s : startswith (p ++ s) p = true.
Proof. induction p as [|c p IH]; simpl; [reflexivity|]. now rewrite N.eqb_refl. Qed.

Lemma startswith_head_ne c d p s : c <> d -> startswith (d :: s) (c :: p) = false.
Proof. intros H. simpl. apply N.eqb_neq in H. now rewrite H. Qed.

Lemma endswith_app s p : endswith (s ++ p) p = true.
Proof. unfold endswith. rewrite rev_app_distr. apply startswith_app. Qed.

Lemma endswith_last_ne s z p c :
  c <> z -> endswith (s ++ [z]) (p ++ [c]) = false.
Proof.
  intros H. unfold endswith. rewrite !rev_app_distr. simpl.
  apply N.eqb_neq in H. now rewrite H.
Qed.

Lemma slice_from_app p s : slice_from (length p) (p ++ s) = s.
Proof. unfold slice_from. now rewrite drop_app_length. Qed.

Lemma slice_to_neg_app s p : slice_to_neg (length p) (s ++ p) = s.
Proof.
  unfold slice_to_neg. rewrite length_app.
  replace (length s + length p - length p)%nat with (length s) by lia.
  now rewrite take_app_length.
Qed.

(** What follows the opening marker starts with blanks or with the
    object's brace, never with the character [c] of a marker. *)
Lemma startswith_after_blank ws rest c p :
  blank ws -> isspace c = false -> c <> 123 ->
  startswith (ws ++ 123 :: rest) (c :: p) = false.
Proof.
  intros Hws Hc Hne. destruct ws as [|d ws]; simpl app.
  - now apply startswith_head_ne.
  - apply startswith_head_ne. intros ->.
    unfold blank in Hws. simpl in Hws. now rewrite Hc in Hws.
Qed.

End Strip.

Lemma strip_code_fence_object body : 
  strip_code_fence ([123] ++ body ++ [125]) = [123] ++ body ++ [125].
Proof.
  unfold strip_code_fence.
  assert (Hs : strip ([123] ++ body ++ [125]) = 123 :: body ++ [125]).
  { apply (strip_solid 123 body 125); reflexivity. }
  rewrite Hs.
  change (lit "```json") with (96 :: lit "``json").
  change (lit "```") with (96 :: lit "``").
  rewrite !startswith_head_ne by discriminate.
  change (123 :: body ++ [125]) with ((123 :: body) ++ [125]).
  change (96 :: lit "``") with ([96; 96] ++ [96]).
  rewrite endswith_last_ne by discriminate.
  apply (strip_solid 123 body 125); reflexivity.
Qed.

Lemma strip_code_fence_wrapped body ws1 ws2 ws3 ws4 (tagged : bool) :
  blank ws1 -> blank ws2 -> blank ws3 -> blank ws4 ->
  strip_code_fence
    (ws1 ++ lit "```" ++ (if tagged then lit "json" else []) ++ ws2
     ++ ([123] ++ body ++ [125]) ++ ws3 ++ lit "```" ++ ws4)
  = [123] ++ body ++ [125].
Proof.
  intros H1 H2 H3 H4. unfold strip_code_fence.
  set (obj := [123] ++ body ++ [125]).
  set (tag := if tagged then lit "json" else []).
  set (inner := ws2 ++ obj ++ ws3).
  assert (Hs : strip (ws1 ++ lit "```" ++ tag ++ ws2 ++ obj ++ ws3 ++ lit "```" ++ ws4)
               = lit "```" ++ tag ++ inner ++ lit "```").
  { change (lit "```") with [96; 96; 96].
    replace (ws1 ++ [96; 96; 96] ++ tag ++ ws2 ++ obj ++ ws3 ++ [96; 96; 96] ++ ws4)
      with (ws1 ++ (96 :: ([96; 96] ++ tag ++ inner ++ [96; 96]) ++ [96]) ++ ws4)
      by (subst inner; repeat (rewrite <- ?app_assoc; simpl); reflexivity).
    rewrite strip_core by (assumption || reflexivity).
    simpl. now rewrite <- !app_assoc. }
  rewrite Hs. clear Hs.
  assert (Hinner : forall c p, isspace c = false -> c <> 123 ->
                               startswith (inner ++ lit "```") (c :: p) = false).
  { intros c p Hc Hne. subst inner obj. rewrite <- app_assoc. simpl app.
    now apply startswith_after_blank. }
  assert (Hopen : (if startswith (lit "```" ++ tag ++ inner ++ lit "```") (lit "```json")
                   then slice_from 7 (lit "```" ++ tag ++ inner ++ lit "```")
                   else lit "```" ++ tag ++ inner ++ lit "```")
                  = (if tagged then [] else lit "```") ++ inner ++ lit "```").
  { subst tag. destruct tagged.
    - replace (lit "```" ++ lit "json" ++ inner ++ lit "```")
        with (lit "```json" ++ inner ++ lit "```") by reflexivity.
      rewrite startswith_app. apply (slice_from_app (lit "```json")).
    - simpl app at 2.
      change (startswith (lit "```" ++ inner ++ lit "```") (lit "```json"))
        with (startswith (inner ++ lit "```") (lit "json")).
      change (lit "json") with (106 :: lit "son").
      now rewrite Hinner by (reflexivity || discriminate). }
  rewrite Hopen. clear Hopen.
  assert (Hdrop : (if startswith ((if tagged then [] else lit "```") ++ inner ++ lit "```")
                        (lit "```")
                   then slice_from 3 ((if tagged then [] else lit "```") ++ inner ++ lit "```")
                   else (if tagged then [] else lit "```") ++ inner ++ lit "```")
                  = inner ++ lit "```").
  { destruct tagged.
    - simpl app. change (lit "```") with (96 :: lit "``") at 2.
      now rewrite Hinner by (reflexivity || discriminate).
    - rewrite startswith_app. apply (slice_from_app (lit "```")). }
  rewrite Hdrop. clear Hdrop.
  rewrite endswith_app.
  change (slice_to_neg 3 (inner ++ lit "```"))
    with (slice_to_neg (length (lit "```")) (inner ++ lit "```")).
  rewrite slice_to_neg_app.
  subst inner obj.
  replace (ws2 ++ ([123] ++ body ++ [125]) ++ ws3)
    with (ws2 ++ (123 :: body ++ [125]) ++ ws3) by reflexivity.
  now apply strip_core.
Qed.

(** C5: the fence removal hands the decoder the object itself.  For a JSON
    object wrapped in a code fence (an opening triple backtick, tagged
    [json] or not, and a closing triple backtick, with whitespace around
    either) what is left after the removal is exactly the text of the
    object, as it is for the bare object; so the wrapped answer is decoded
    to the same result as the bare one, which is what the validation makes
    of the decoder's value for the object.  When the decoder rejects what
    is left the extraction fails with the invalid-JSON [ValueError]. *)
Theorem fence_wrapped_parses_identically (env : Env)
    (body ws1 ws2 ws3 ws4 : list N) (tagged : bool) :
  blank ws1 -> blank ws2 -> blank ws3 -> blank ws4 ->
  let obj := [123] ++ body ++ [125] in
  let wrapped := ws1 ++ lit "```" ++ (if tagged then lit "json" else []) ++ ws2
                 ++ obj ++ ws3 ++ lit "```" ++ ws4 in
  strip_code_fence wrapped = obj
  /\ strip_code_fence obj = obj
  /\ strip_code_fence wrapped = strip_code_fence obj
  /\ parse_extraction env (Some wrapped) = parse_extraction env (Some obj)
  /\ (forall data,
        json_loads env obj = inr data ->
        parse_extraction env (Some wrapped)
        = (let+ _ := check_all_required data required_fields in
           let+ data := normalize_fields env data required_fields in
           ensure_inventors data))
  /\ (forall msg,
        json_loads env obj = inl msg ->
        parse_extraction env (Some wrapped)
        = inl (ValueError (lit "Invalid JSON response from AI: " ++ msg)))
  /\ forall document_text content msg,
       openai_api_key env <> [] ->
       chat_completion env (truncate_document document_text)
       = inr (Some content) ->
       content <> [] ->
       json_loads env (strip_code_fence content) = inl msg ->
       extract_disclosure_info env document_text
       = inl (ValueError (lit "Invalid JSON response from AI: " ++ msg)).
Proof.
  intros H1 H2 H3 H4 obj wrapped.
  assert (Hw : strip_code_fence wrapped = obj)
    by (subst wrapped obj; now apply strip_code_fence_wrapped).
  assert (Ho : strip_code_fence obj = obj)
    by (subst obj; apply strip_code_fence_object).
  assert (Hne : wrapped <> []).
  { subst wrapped. destruct ws1; discriminate. }
  assert (Hrun : parse_extraction env (Some wrapped)
                 = match json_loads env obj with
                   | inl msg =>
                       inl (ValueError
                              (lit "Invalid JSON response from AI: " ++ msg))
                   | inr data =>
                       let+ _ := check_all_required data required_fields in
                       let+ data := normalize_fields env data required_fields in
                       ensure_inventors data
                   end).
  { unfold parse_extraction. rewrite Hw.
    destruct wrapped; [contradiction|]. reflexivity. }
  split; [exact Hw|]. split; [exact Ho|].
  split; [now rewrite Hw, Ho|]. split; [|split; [|split]].
  - rewrite Hrun. unfold parse_extraction. rewrite Ho. reflexivity.
  - intros data Hd. now rewrite Hrun, Hd.
  - intros msg Hd. now rewrite Hrun, Hd.
  - intros document_text content msg Hkey Hchat Hne' Hj.
    unfold extract_disclosure_info.
    destruct (openai_api_key env); [contradiction|].
    rewrite Hchat. simpl bindE. unfold parse_extraction.
    destruct content; [contradiction|]. now rewrite Hj.
Qed.

Lemma fence_wrapped_parses_identically_witness :
  strip_code_fence
    ([] ++ lit "```" ++ lit "json" ++ [10]
     ++ ([123] ++ sample_body ++ [125]) ++ [10] ++ lit "```" ++ [])
  = [123] ++ sample_body ++ [125]
  /\ parse_extraction env0
       (Some ([] ++ lit "```" ++ lit "json" ++ [10]
              ++ ([123] ++ sample_body ++ [125]) ++ [10] ++ lit "```" ++ []))
     = parse_extraction env0 (Some ([123] ++ sample_body ++ [125])).
Proof.
  destruct (fence_wrapped_parses_identically env0 sample_body
              [] [10] [10] [] true eq_refl eq_refl eq_refl eq_refl)
    as (Hstrip & _ & _ & Hparse & _).
  split; [exact Hstrip|exact Hparse].
Defined.

Example fenced_sample_is_decoded :
  parse_extraction env0 (Some (lit "```json" ++ [10] ++ sample_text ++ [10] ++ lit "```"))
  = inr sample_value.
Proof. vm_compute. reflexivity. Qed.

(* ===================================================================== *)
(** ** Normalisation of list-valued fields *)
(* ===================================================================== *)

Lemma format_item_str (env : Env) (s : list N) : format_item env (JStr s) = item_marker ++ s.
Proof. reflexivity. Qed.

(** Whatever the collaborators are, a field that holds a list of strings is
    replaced by the items, each behind the marker of the source, with one
    newline between two items. *)
Lemma normalize_field_strings (env : Env) (m : gmap (list N) json)
    (field : list N) (items : list (list N)) :
  m !! field = Some (JList (List.map JStr items)) ->
  normalize_field env (JDict m) field
  = inr (JDict (<[field := JStr (join [10] (List.map (app item_marker) items))]> m)).
Proof.
  intros H. unfold normalize_field, py_getitem, bindE. rewrite H.
  unfold py_setitem. now rewrite List.map_map.
Qed.

(** C6: on the answer whose [key_differences] is the list ["a", "b"], the
    extraction stores the two items newline-separated, each behind the
    marker written in the source, which is the three code points U+00E2
    U+20AC U+00A2 and a space; the result is not the string with the bullet
    U+2022 that the specification and the test suite expect. *)
Theorem key_differences_list_gets_source_marker :
  (let+ data := parse_extraction env0 (Some list_text) in
   py_getitem data (lit "key_differences"))
  = inr (JStr ([226; 8364; 162; 32; 97; 10; 226; 8364; 162; 32; 98]))
  /\ [226; 8364; 162; 32; 97; 10; 226; 8364; 162; 32; 98]
     <> bullet_marker ++ lit "a" ++ [10] ++ bullet_marker ++ lit "b".
Proof.
  split.
  - vm_compute. reflexivity.
  - vm_compute. discriminate.
Qed.

(* ===================================================================== *)
(** ** The monad: inversion and frame lemmas *)
(* ===================================================================== *)

Lemma bind_ok {A B} (m : M A) (k : A -> M B) w b w' :
  bind m k w = (Ok b, w') ->
  exists a w1, m w = (Ok a, w1) /\ k a w1 = (Ok b, w').
Proof.
  unfold bind. destruct (m w) as [[a|e] w1]; intros H; [eauto|discriminate].
Qed.

Lemma bind_raise {A B} (m : M A) (k : A -> M B) w e w' :
  bind m k w = (Raise e, w') ->
  m w = (Raise e, w') \/ exists a w1, m w = (Ok a, w1) /\ k a w1 = (Raise e, w').
Proof.
  unfold bind. destruct (m w) as [[a|e1] w1]; intros H; [eauto|].
  left. congruence.
Qed.

Lemma Ok_inj {A} (a b : A) : @Ok A a = Ok b -> a = b.
Proof. intros H. now inversion H. Qed.

Lemma Ok_inj_pair {A} (a b : A) (w w' : World) :
  (Ok a, w) = (Ok b, w') -> a = b /\ w = w'.
Proof. intros H. now inversion H. Qed.

Lemma Some_eq_inj {A} (a b : A) : Some a = Some b -> a = b.
Proof. intros H. now inversion H. Qed.

Lemma lift_ok {A} (r : exn + A) w a w' :
  lift r w = (Ok a, w') -> r = inr a /\ w' = w.
Proof. destruct r; simpl; intros H; inversion H; auto. Qed.

Lemma lift_world {A} (r : exn + A) w : snd (lift r w) = w.
Proof. now destruct r. Qed.

(** The part of the world a statement cannot touch, and what it may do to
    the rest. *)
Lemma next_db_fault_frame w :
  let w1 := snd (next_db_fault w) in
  tables w1 = tables w /\ tx w1 = tx w /\ trace w1 = trace w
  /\ log w1 = log w /\ s3 w1 = s3 w /\ s3_faults w1 = s3_faults w
  /\ docket_seq w1 = docket_seq w /\ fresh w1 = fresh w /\ clock w1 = clock w.
Proof. unfold next_db_fault. destruct (db_faults w); simpl; tauto. Qed.

Lemma poison_frame w :
  tables (poison w) = tables w /\ trace (poison w) = trace w
  /\ log (poison w) = log w /\ s3 (poison w) = s3 w
  /\ docket_seq (poison w) = docket_seq w.
Proof. unfold poison. destruct (tx w); simpl; tauto. Qed.

Lemma statement_ok {A} (run : World -> exn + (A * World)) w a w' :
  statement run w = (Ok a, w') ->
  tx w <> Failed /\ run (snd (next_db_fault w)) = inr (a, w').
Proof.
  unfold statement. intros H.
  assert (tx w <> Failed) by (destruct (tx w); congruence).
  split; [assumption|].
  destruct (next_db_fault w) as [[e|] w1]; simpl.
  - destruct (tx w); discriminate.
  - destruct (run w1) as [e|[a' w2]]; destruct (tx w); congruence.
Qed.

Lemma statement_raise {A} (run : World -> exn + (A * World)) w e w' :
  statement run w = (Raise e, w') ->
  tables w' = tables w /\ trace w' = trace w /\ log w' = log w /\ s3 w' = s3 w
  /\ docket_seq w' = docket_seq w.
Proof.
  unfold statement. intros H.
  pose proof (next_db_fault_frame w) as Hf. simpl in Hf.
  destruct (next_db_fault w) as [[e1|] w1]; simpl in Hf.
  - pose proof (poison_frame w1).
    destruct (tx w); inversion H; subst; intuition congruence.
  - pose proof (poison_frame w1).
    destruct (run w1) as [e1|[a w2]];
      destruct (tx w); inversion H; subst; intuition congruence.
Qed.

(* ===================================================================== *)
(** ** Upload: documents without enough text *)
(* ===================================================================== *)

(** C7: when the text extracted from the uploaded document has fewer than
    50 characters once trimmed, [upload_disclosure] raises the 400 error
    about insufficient text and the world is left exactly as it was: no
    row is written and no docket number is drawn. *)
Theorem short_text_is_rejected (env : Env) (file : UploadFile)
    (name text : list N) (content : list byte) (w : World) :
  filename file = Some name -> name <> [] ->
  endswith (str_lower env name) (lit ".pdf") = true ->
  file_read file = inr content ->
  extract_text_from_pdf env content = inr text ->
  (length (strip text) < 50)%nat ->
  upload_disclosure env file w
  = (Raise (HTTPException 400
              (lit "Could not extract sufficient text from PDF. The file may be image-based or corrupted.")),
     w).
Proof.
  intros Hname Hne Hpdf Hread Htext Hshort.
  unfold upload_disclosure. rewrite Hname.
  destruct name as [|c name]; [contradiction|].
  rewrite Hpdf, Hread, Htext. simpl negb. cbv iota.
  assert ((length (strip text) <? min_text_length)%nat = true) as ->
    by (apply Nat.ltb_lt; exact Hshort).
  rewrite orb_true_r. reflexivity.
Qed.

Lemma short_text_is_rejected_witness :
  upload_disclosure env0 scanned_file world0
  = (Raise (HTTPException 400
              (lit "Could not extract sufficient text from PDF. The file may be image-based or corrupted.")),
     world0).
Proof.
  apply (short_text_is_rejected env0 scanned_file (lit "Scan.PDF") short_page [x00]).
  - reflexivity.
  - discriminate.
  - reflexivity.
  - reflexivity.
  - reflexivity.
  - vm_compute. lia.
Defined.

(* ===================================================================== *)
(** ** Update: what the statements do *)
(* ===================================================================== *)

Lemma is_valid_status_In s : is_valid_status s = true <-> In s valid_statuses.
Proof.
  unfold is_valid_status. rewrite existsb_exists. split.
  - intros (x & Hx & Heq). unfold str_eqb in Heq.
    apply bool_decide_eq_true in Heq. now subst.
  - intros H. exists s. split; [assumption|].
    unfold str_eqb. now apply bool_decide_eq_true.
Qed.

Lemma str_eqb_false a b : str_eqb a b = false <-> a <> b.
Proof. unfold str_eqb. apply bool_decide_eq_false. Qed.

Lemma str_eqb_true a b : str_eqb a b = true <-> a = b.
Proof. unfold str_eqb. apply bool_decide_eq_true. Qed.

Lemma update_row_cases U id w r w' :
  update_row U id w = (r, w') ->
  (exists e, r = Raise e /\ tables w' = tables w)
  \/ (r = Ok (List.find (fun r => d_id r =? id)
               (disclosures (updated_tables U id (clock w) (tables w))))
      /\ tables w' = updated_tables U id (clock w) (tables w)
      /\ tx w' = tx w /\ tx w <> Failed
      /\ fresh w' = fresh w /\ clock w' = clock w).
Proof.
  intros H. destruct r as [a|e].
  - right. apply statement_ok in H as [Htx H].
    pose proof (next_db_fault_frame w) as F. simpl in F.
    destruct F as (Ft & Fx & _ & _ & _ & _ & _ & Ff & Fc).
    destruct (forallb _ U); [|discriminate].
    inversion H; subst. simpl. rewrite Ft, Fc, Fx, Ff.
    repeat split; auto.
  - left. apply statement_raise in H. exists e. tauto.
Qed.

Lemma insert_status_history_cases id s w r w' :
  insert_status_history id s w = (r, w') ->
  (exists e, r = Raise e /\ tables w' = tables w)
  \/ (exists h, r = Ok h
      /\ h = {| h_id := fresh w; h_disclosure_id := id; h_status := s;
                h_changed_at := clock w |}
      /\ tables w' = add_history h (tables w)
      /\ tx w' = tx w /\ tx w <> Failed
      /\ has_disclosure id (tables w) = true
      /\ trace w' = trace w ++ [EvInsertHistory (fresh w) id s]
      /\ log w' = log w /\ s3 w' = s3 w /\ docket_seq w' = docket_seq w).
Proof.
  intros H. destruct r as [a|e].
  - right. apply statement_ok in H as [Htx H].
    pose proof (next_db_fault_frame w) as F. simpl in F.
    destruct F as (Ft & Fx & Ftr & Fl & Fs & _ & Fd & Ff & Fc).
    unfold text_param, not_null, bindE in H.
    destruct (storable s); [|discriminate].
    rewrite Ft in H.
    destruct (has_disclosure id (tables w)) eqn:Hd; [|discriminate].
    simpl in H. inversion H; subst. simpl.
    rewrite ?Ft, ?Fc, ?Fx, ?Ff, ?Ftr, ?Fl, ?Fs, ?Fd.
    eexists. repeat split; auto.
  - left. apply statement_raise in H. exists e. tauto.
Qed.

Lemma update_finish_cases id upd U changed w r w' :
  update_finish id upd U changed w = (r, w') ->
  (U = [] /\ r = Raise (HTTPException 400 (lit "No fields to update")) /\ w' = w)
  \/ (U <> [] /\ (exists e, r = Raise e) /\ tables w' = tables w)
  \/ (U <> []
      /\ disclosures (tables w')
         = disclosures (updated_tables U id (clock w) (tables w))
      /\ inventors (tables w') = inventors (tables w)
      /\ ((status_history (tables w') = status_history (tables w)
           /\ (changed = true -> u_status upd <> None -> exists e, r = Raise e))
          \/ (exists s, changed = true /\ u_status upd = Some s
              /\ status_history (tables w')
                 = status_history (tables w)
                   ++ [{| h_id := fresh w; h_disclosure_id := id;
                          h_status := s; h_changed_at := clock w |}]))).
Proof.
  intros H. unfold update_finish in H.
  destruct U as [|u U]; [left; inversion H; auto|].
  right. set (V := u :: U) in *. assert (HV : V <> []) by discriminate.
  clearbody V. unfold bind in H.
  destruct (update_row V id w) as [[row|e] w1] eqn:Hu;
    apply update_row_cases in Hu as [(e0 & He0 & Ht)|(Hr & Ht & Htx & Hnf & Hf & Hc)];
    try discriminate.
  2:{ left. inversion H; subst. eauto. }
  right. split; [assumption|].
  assert (Hstay : forall o, (o, w1) = (r, w') ->
            disclosures (tables w')
            = disclosures (updated_tables V id (clock w) (tables w))
            /\ inventors (tables w') = inventors (tables w)
            /\ status_history (tables w') = status_history (tables w)).
  { intros o E. inversion E; subst. rewrite Ht. simpl. auto. }
  destruct changed.
  - destruct (u_status upd) as [s|] eqn:Hs.
    + destruct (insert_status_history id s w1) as [[h|e] w2] eqn:Hi; simpl in H;
        apply insert_status_history_cases in Hi
          as [(e0 & He0 & Hti)|(h0 & Hh0 & Hh & Hti & _)]; try discriminate.
      * assert (tables w' = tables w2) as -> by (destruct row; now inversion H).
        rewrite Hti, Hh, Ht. simpl. split; [reflexivity|]. split; [reflexivity|].
        right. exists s. rewrite Hf, Hc. auto.
      * inversion H; subst. rewrite Hti, Ht. simpl.
        refine (conj eq_refl (conj eq_refl _)).
        left. split; [reflexivity|]. eauto.
    + simpl in H. destruct row; destruct (Hstay _ H) as (? & ? & ?).
      all: split; [assumption|]; split; [assumption|]; left;
        split; [assumption|]; intros; congruence.
  - simpl in H. destruct row; destruct (Hstay _ H) as (? & ? & ?).
    all: split; [assumption|]; split; [assumption|]; left;
      split; [assumption|]; intros; congruence.
Qed.

Lemma select_status_cases id w r w' :
  select_status id w = (r, w') ->
  (exists e, r = Raise e /\ tables w' = tables w)
  \/ (r = Ok (stored_status id (tables w)) /\ tables w' = tables w
      /\ fresh w' = fresh w /\ clock w' = clock w /\ tx w' = tx w).
Proof.
  intros H. destruct r as [a|e].
  - right. apply statement_ok in H as [_ H].
    pose proof (next_db_fault_frame w) as F. simpl in F.
    destruct F as (Ft & Fx & _ & _ & _ & _ & _ & Ff & Fc).
    inversion H; subst. rewrite Ft. auto.
  - left. apply statement_raise in H. exists e. tauto.
Qed.

Lemma select_status_run id w :
  tx w <> Failed -> hd None (db_faults w) = None ->
  select_status id w
  = (Ok (stored_status id (tables w)), snd (next_db_fault w)).
Proof.
  intros Htx Hf. unfold select_status, statement, next_db_fault.
  destruct (db_faults w) as [|[e|] rest]; simpl in *; try discriminate;
    destruct (tx w); try contradiction; reflexivity.
Qed.

Lemma set_clause_with_status upd s :
  u_status upd = Some s ->
  append_if_set ColReviewNotes (u_review_notes upd)
    (append_if_set ColKeyDifferences (u_key_differences upd)
       (append_if_set ColDescription (u_description upd)
          (append_if_set ColTitle (u_title upd) [])) ++ [(ColStatus, s)])
  = set_clause upd.
Proof. intros H. unfold set_clause. now rewrite H. Qed.

Lemma set_clause_without_status upd :
  u_status upd = None ->
  append_if_set ColReviewNotes (u_review_notes upd)
    (append_if_set ColKeyDifferences (u_key_differences upd)
       (append_if_set ColDescription (u_description upd)
          (append_if_set ColTitle (u_title upd) [])))
  = set_clause upd.
Proof. intros H. unfold set_clause. now rewrite H. Qed.

(** Every way [update_disclosure] can end: either it raises with the
    tables as they were, or the row was rewritten with the SET clause of
    the patch, and then the history got its entry exactly when the patch
    carries a status that differs from the stored one and the handler did
    not fail on the way. *)
Lemma update_disclosure_cases id upd w r w' :
  update_disclosure id upd w = (r, w') ->
  (tables w' = tables w /\ exists e, r = Raise e)
  \/ (exists c, stored_status id (tables w) = Some c
      /\ (forall s, u_status upd = Some s -> In s valid_statuses)
      /\ set_clause upd <> []
      /\ disclosures (tables w')
         = disclosures (updated_tables (set_clause upd) id (clock w) (tables w))
      /\ inventors (tables w') = inventors (tables w)
      /\ ((status_history (tables w') = status_history (tables w)
           /\ (forall s, u_status upd = Some s -> s <> c -> exists e, r = Raise e))
          \/ (exists s, u_status upd = Some s /\ s <> c
              /\ status_history (tables w')
                 = status_history (tables w)
                   ++ [{| h_id := fresh w; h_disclosure_id := id;
                          h_status := s; h_changed_at := clock w |}]))).
Proof.
  unfold update_disclosure, get_connection. intros H.
  match type of H with
  | (match ?m with _ => _ end) = _ => destruct m as [r0 w0] eqn:Hb
  end.
  inversion H; subst r0 w'. clear H. simpl tables.
  unfold bind in Hb.
  destruct (select_status id (set_tx Idle w)) as [[cur|e] w1] eqn:Hsel;
    apply select_status_cases in Hsel
      as [(e0 & He0 & Ht)|(Hr & Ht & Hf & Hc & Hx)]; try discriminate;
    simpl in Ht.
  2:{ left. inversion Hb; subst. eauto. }
  inversion Hr; subst cur. clear Hr. simpl in Hf, Hc.
  destruct (stored_status id (tables w)) as [c|] eqn:Hcur.
  2:{ left. inversion Hb; subst. eauto. }
  assert (Hfin : forall changed,
            update_finish id upd (set_clause upd) changed w1 = (r, w0) ->
            (changed = true -> exists s, u_status upd = Some s /\ s <> c) ->
            (forall s, u_status upd = Some s -> s <> c -> changed = true) ->
            (forall s, u_status upd = Some s -> In s valid_statuses) ->
            (tables w0 = tables w /\ exists e, r = Raise e)
            \/ (exists c0, Some c = Some c0
                /\ (forall s, u_status upd = Some s -> In s valid_statuses)
                /\ set_clause upd <> []
                /\ disclosures (tables w0)
                   = disclosures (updated_tables (set_clause upd) id (clock w) (tables w))
                /\ inventors (tables w0) = inventors (tables w)
                /\ ((status_history (tables w0) = status_history (tables w)
                     /\ (forall s, u_status upd = Some s -> s <> c0 ->
                         exists e, r = Raise e))
                    \/ (exists s, u_status upd = Some s /\ s <> c0
                        /\ status_history (tables w0)
                           = status_history (tables w)
                             ++ [{| h_id := fresh w; h_disclosure_id := id;
                                    h_status := s; h_changed_at := clock w |}])))).
  { intros changed Hfin Hch1 Hch2 Hval.
    apply update_finish_cases in Hfin
      as [(HU & Hr & Hw)|[(HU & He & Htw)|(HU & Hd & Hi & Hh)]].
    - left. subst. split; [assumption|eauto].
    - left. rewrite Htw, Ht. auto.
    - right. exists c. rewrite Ht, Hc, Hf in *.
      split; [reflexivity|]. split; [assumption|]. split; [assumption|].
      split; [assumption|]. split; [assumption|].
      destruct Hh as [(Hsame & Hraise)|(s & Hchg & Hs & Happ)].
      + left. split; [assumption|]. intros s Hs Hne.
        apply Hraise; [eauto|congruence].
      + right. exists s. destruct (Hch1 Hchg) as (s' & Hs' & Hne).
        assert (s' = s) by congruence. subst. auto. }
  destruct (u_status upd) as [s|] eqn:Hs.
  - destruct (is_valid_status s) eqn:Hv; simpl in Hb.
    + rewrite (set_clause_with_status upd s Hs) in Hb.
      apply Hfin in Hb; [exact Hb| | |].
      * intros Hn. exists s. split; [reflexivity|].
        apply negb_true_iff, str_eqb_false in Hn. exact Hn.
      * intros s0 E Hne. inversion E; subst.
        apply negb_true_iff, str_eqb_false. exact Hne.
      * intros s0 E. inversion E; subst. now apply is_valid_status_In.
    + left. inversion Hb; subst. eauto.
  - rewrite (set_clause_without_status upd Hs) in Hb.
    apply Hfin in Hb; [exact Hb| | |]; intros; discriminate.
Qed.

Lemma update_disclosure_early id upd w c :
  hd None (db_faults w) = None ->
  stored_status id (tables w) = Some c ->
  (forall s, u_status upd = Some s -> is_valid_status s = false ->
     fst (update_disclosure id upd w)
     = Raise (HTTPException 400 (lit "Invalid status value")))
  /\ (set_clause upd = [] ->
      fst (update_disclosure id upd w)
      = Raise (HTTPException 400 (lit "No fields to update"))).
Proof.
  intros Hf Hc.
  assert (Hsel : select_status id (set_tx Idle w)
                 = (Ok (Some c), snd (next_db_fault (set_tx Idle w)))).
  { rewrite select_status_run; simpl; congruence. }
  split.
  - intros s Hs Hv. unfold update_disclosure, get_connection, bind.
    rewrite Hsel, Hs, Hv. reflexivity.
  - intros HU. unfold update_disclosure, get_connection, bind.
    rewrite Hsel.
    destruct (u_status upd) as [s|] eqn:Hs.
    + exfalso. unfold set_clause in HU. rewrite Hs in HU.
      unfold append_if_set at 2 in HU.
      destruct (u_review_notes upd); simpl in HU;
        eapply app_cons_not_nil; symmetry; exact HU.
    + rewrite (set_clause_without_status upd Hs), HU. reflexivity.
Qed.

(** C4: a patch whose status is not one of [pending], [reviewed],
    [approved], [rejected] never changes a table, whatever else it carries:
    the handler raises, and when the disclosure exists (and the lookup
    itself went through) the error is the 400 "Invalid status value". *)
Theorem invalid_status_rejects_update (id : N) (upd : DisclosureUpdate)
    (s : list N) (w : World) :
  u_status upd = Some s -> ~ In s valid_statuses ->
  tables (snd (update_disclosure id upd w)) = tables w
  /\ (exists e, fst (update_disclosure id upd w) = Raise e)
  /\ (hd None (db_faults w) = None ->
      stored_status id (tables w) <> None ->
      fst (update_disclosure id upd w)
      = Raise (HTTPException 400 (lit "Invalid status value"))).
Proof.
  intros Hs Hbad.
  assert (Hv : is_valid_status s = false).
  { destruct (is_valid_status s) eqn:E; [|reflexivity].
    apply is_valid_status_In in E. contradiction. }
  destruct (update_disclosure id upd w) as [r w'] eqn:H. simpl.
  split; [|split].
  - apply update_disclosure_cases in H as [[Ht _]|(c & _ & Hval & _)];
      [assumption|]. exfalso. eauto.
  - apply update_disclosure_cases in H as [[_ He]|(c & _ & Hval & _)];
      [assumption|]. exfalso. eauto.
  - intros Hf Hex.
    destruct (stored_status id (tables w)) as [c|] eqn:Hc; [|contradiction].
    pose proof (proj1 (update_disclosure_early id upd w c Hf Hc) s Hs Hv) as E.
    now rewrite H in E.
Qed.

Lemma invalid_status_rejects_update_witness :
  tables (snd (update_disclosure 1 bogus_patch world1)) = tables world1
  /\ fst (update_disclosure 1 bogus_patch world1)
     = Raise (HTTPException 400 (lit "Invalid status value")).
Proof.
  assert (Hbad : ~ In (lit "bogus") valid_statuses).
  { intros H. repeat (destruct H as [H|H]; [discriminate H|]). exact H. }
  destruct (invalid_status_rejects_update 1 bogus_patch (lit "bogus") world1
              eq_refl Hbad) as (H1 & _ & H3).
  split; [exact H1|].
  apply H3; [reflexivity|discriminate].
Defined.

(* ===================================================================== *)
(** ** Update: null fields *)
(* ===================================================================== *)

Lemma validate_not_a_value f : not_a_value f -> validate_field f = None.
Proof. destruct f; simpl; [reflexivity|reflexivity|contradiction]. Qed.

Lemma validate_omit_null f : validate_field (omit_null f) = validate_field f.
Proof. now destruct f. Qed.

Lemma validate_omit_nulls body :
  DisclosureUpdate_validate (omit_nulls body) = DisclosureUpdate_validate body.
Proof.
  unfold DisclosureUpdate_validate, omit_nulls. simpl.
  now rewrite !validate_omit_null.
Qed.

Lemma Forall2_map_self {A} (P : A -> A -> Prop) (f : A -> A) (l : list A) :
  (forall x, P x (f x)) -> Forall2 P l (List.map f l).
Proof. intros H. induction l; simpl; constructor; auto. Qed.

Lemma Forall2_diag {A} (P : A -> A -> Prop) (l : list A) :
  (forall x, P x x) -> Forall2 P l l.
Proof. intros H. induction l; constructor; auto. Qed.

Lemma keeps_unset_fields_refl body r : keeps_unset_fields body r r.
Proof. unfold keeps_unset_fields. tauto. Qed.

Lemma apply_set_clause_keeps body now r :
  keeps_unset_fields body r
    (apply_set (set_clause (DisclosureUpdate_validate body)) now r).
Proof.
  unfold keeps_unset_fields, DisclosureUpdate_validate, set_clause.
  destruct body as [t d k s n].
  destruct t, d, k, s, n; simpl; repeat split; intros;
    try contradiction; try reflexivity; try assumption; try discriminate.
Qed.

Lemma all_null_set_clause body :
  all_null body -> set_clause (DisclosureUpdate_validate body) = [].
Proof.
  intros (Ht & Hd & Hk & Hs & Hn).
  unfold set_clause, DisclosureUpdate_validate. simpl.
  now rewrite !validate_not_a_value by assumption.
Qed.

(** C10: in a PATCH body an explicit null does what leaving the field out
    does.  The request with the nulls and the request without them run the
    same; a column whose field is null or omitted keeps its stored value in
    every row, and stored review notes are never replaced by null; a body
    in which every field is null changes no table and is refused, with the
    400 "No fields to update" when the disclosure exists. *)
Theorem null_is_treated_as_omitted (id : N) (body : PatchBody) (w : World) :
  patch_disclosure id body w = patch_disclosure id (omit_nulls body) w
  /\ Forall2 (keeps_unset_fields body)
       (disclosures (tables w))
       (disclosures (tables (snd (patch_disclosure id body w))))
  /\ (all_null body ->
      tables (snd (patch_disclosure id body w)) = tables w
      /\ (exists e, fst (patch_disclosure id body w) = Raise e)
      /\ (hd None (db_faults w) = None ->
          stored_status id (tables w) <> None ->
          fst (patch_disclosure id body w)
          = Raise (HTTPException 400 (lit "No fields to update")))).
Proof.
  unfold patch_disclosure. split; [now rewrite validate_omit_nulls|].
  set (upd := DisclosureUpdate_validate body).
  destruct (update_disclosure id upd w) as [r w'] eqn:H. simpl.
  pose proof (update_disclosure_cases _ _ _ _ _ H) as Hcases.
  split.
  - destruct Hcases as [[Ht _]|(c & _ & _ & _ & Hd & _)].
    + rewrite Ht. apply Forall2_diag, keeps_unset_fields_refl.
    + rewrite Hd. simpl. apply Forall2_map_self. intros x.
      destruct (d_id x =? id).
      * apply apply_set_clause_keeps.
      * apply keeps_unset_fields_refl.
  - intros Hnull. pose proof (all_null_set_clause body Hnull) as HU.
    fold upd in HU.
    destruct Hcases as [[Ht He]|(c & _ & _ & Hne & _)]; [|contradiction].
    split; [assumption|]. split; [assumption|].
    intros Hf Hex.
    destruct (stored_status id (tables w)) as [c|] eqn:Hc; [|contradiction].
    pose proof (proj2 (update_disclosure_early id upd w c Hf Hc) HU) as E.
    now rewrite H in E.
Qed.

Lemma null_is_treated_as_omitted_witness :
  tables (snd (patch_disclosure 1 all_null_body world1)) = tables world1
  /\ fst (patch_disclosure 1 all_null_body world1)
     = Raise (HTTPException 400 (lit "No fields to update")).
Proof.
  destruct (null_is_treated_as_omitted 1 all_null_body world1) as (_ & _ & H).
  destruct H as (H1 & _ & H3).
  - repeat split.
  - split; [exact H1|]. apply H3; [reflexivity|discriminate].
Defined.

Example null_notes_keep_the_stored_notes :
  List.map d_review_notes
    (disclosures (tables (snd (patch_disclosure 1 null_notes_body world1))))
  = [Some (lit "needs figures")]
  /\ List.map d_title
       (disclosures (tables (snd (patch_disclosure 1 null_notes_body world1))))
     = [lit "Updated Title"].
Proof. split; vm_compute; reflexivity. Qed.

(* ===================================================================== *)
(** ** Upload: the blob store leaves the relational state alone *)
(* ===================================================================== *)

Opaque lit uuid_str.

(** Case analysis on what the environment has in store for the next calls. *)
Ltac crunch H :=
  repeat (cbn in H;
          match type of H with
          | context [match ?x with _ => _ end] =>
              first [ is_var x; destruct x
                    | match x with
                      | s3_faults _ => destruct x eqn:?
                      | s3 _ => destruct x eqn:?
                      | db_faults _ => destruct x eqn:?
                      | tx _ => destruct x eqn:?
                      end ]
          end);
  cbn in H.

Lemma upload_pdf_cases did fn content w r w' :
  upload_pdf did fn content w = (r, w') ->
  db_same w w'
  /\ ((exists e, r = Raise e /\ trace w' = trace w)
      \/ (r = Ok (lit "disclosures/" ++ did ++ lit "/" ++ fn)
          /\ trace w' = trace w
                        ++ [EvPutObject (lit "disclosures/" ++ did ++ lit "/" ++ fn)])).
Proof.
  unfold upload_pdf, ensure_bucket_exists, except_ClientError, try_except, bind,
    head_bucket, create_bucket, put_object, s3_call, next_s3_fault, logger,
    modify, raise, ret, db_same.
  intros H. crunch H; inversion H; subst; cbn;
    (split;
     [repeat split
     |first [left; eexists; split; reflexivity | right; split; reflexivity]]).
Qed.

(* ===================================================================== *)
(** ** Upload: the statements of the transaction *)
(* ===================================================================== *)

Lemma statement_raise_tx {A} (run : World -> exn + (A * World)) w e w' :
  statement run w = (Raise e, w') ->
  (tx w = Active -> tx w' = Failed) /\ fresh w' = fresh w /\ clock w' = clock w.
Proof.
  unfold statement, next_db_fault, poison. intros H.
  destruct (tx w) eqn:Htx; destruct (db_faults w) as [|[e1|] rest];
    simpl in H; try (destruct (run _) as [e1'|[a w2]]); simpl in H;
    try rewrite Htx in H; inversion H; subst; simpl;
    repeat split; congruence.
Qed.

Lemma text_param_some v s : text_param v = inr (Some s) -> v = JStr s.
Proof.
  destruct v; simpl; try discriminate.
  destruct (storable s0); intros H; inversion H; reflexivity.
Qed.

Lemma text_param_none v : text_param v = inr None -> v = JNull.
Proof.
  destruct v; simpl; try discriminate; [reflexivity|].
  destruct (storable s); discriminate.
Qed.

Lemma text_param_str s o : text_param (JStr s) = inr o -> o = Some s.
Proof. simpl. destruct (storable s); intros H; inversion H; reflexivity. Qed.

Lemma not_null_ok c v s : not_null c v = inr s -> v = Some s.
Proof. destruct v; simpl; intros H; inversion H; reflexivity. Qed.

Lemma bindE_ok {A B} (r : exn + A) (k : A -> exn + B) b :
  bindE r k = inr b -> exists a, r = inr a /\ k a = inr b.
Proof. destruct r; simpl; [discriminate|eauto]. Qed.

Lemma insert_disclosure_ok docket t d k fn w row w' :
  insert_disclosure docket t d k fn w = (Ok row, w') ->
  t = JStr (d_title row) /\ d = JStr (d_description row)
  /\ k = JStr (d_key_differences row)
  /\ d_id row = fresh w /\ d_docket_number row = docket
  /\ d_status row = default_status /\ d_review_notes row = None
  /\ d_original_filename row = Some fn /\ d_pdf_object_key row = None
  /\ has_disclosure (fresh w) (tables w) = false
  /\ tables w' = add_disclosure row (tables w)
  /\ tx w' = tx w /\ tx w <> Failed
  /\ trace w' = trace w ++ [EvInsertDisclosure (fresh w)]
  /\ log w' = log w /\ s3 w' = s3 w /\ s3_faults w' = s3_faults w
  /\ clock w' = clock w /\ docket_seq w' = docket_seq w.
Proof.
  intros H. apply statement_ok in H as [Htx H].
  pose proof (next_db_fault_frame w) as F. simpl in F.
  destruct F as (Ft & Fx & Ftr & Fl & Fs & Fsf & Fd & Ff & Fc).
  apply bindE_ok in H as (docket' & H1 & H).
  apply bindE_ok in H as (t' & H2 & H).
  apply bindE_ok in H as (d' & H3 & H).
  apply bindE_ok in H as (k' & H4 & H).
  apply bindE_ok in H as (fn' & H5 & H).
  apply bindE_ok in H1 as (x1 & H1 & N1). apply not_null_ok in N1.
  apply bindE_ok in H2 as (x2 & H2 & N2). apply not_null_ok in N2.
  apply bindE_ok in H3 as (x3 & H3 & N3). apply not_null_ok in N3.
  apply bindE_ok in H4 as (x4 & H4 & N4). apply not_null_ok in N4.
  subst x1 x2 x3 x4.
  apply text_param_str in H1, H5. inversion H1; subst docket'. subst fn'.
  apply text_param_some in H2, H3, H4.
  cbv zeta in H. rewrite Ft, Ff in H.
  destruct (has_disclosure (fresh w) (tables w)) eqn:Hhas;
    rewrite ?Hhas in H; simpl in H; [discriminate|].
  match type of H with
  | context [existsb ?f ?l] =>
      destruct (existsb f l) eqn:Hdup; rewrite ?Hdup in H; [discriminate|]
  end.
  inversion H; subst. simpl.
  rewrite ?Ft, ?Fx, ?Ftr, ?Fl, ?Fs, ?Fsf, ?Fd, ?Ff, ?Fc.
  repeat split; auto.
Qed.

Lemma set_pdf_object_key_ok key id w w' :
  set_pdf_object_key key id w = (Ok tt, w') ->
  tables w'
  = map_disclosures
      (fun r => if d_id r =? id then with_pdf_object_key (Some key) r else r)
      (tables w)
  /\ tx w' = tx w /\ trace w' = trace w ++ [EvSetObjectKey id key]
  /\ log w' = log w /\ fresh w' = fresh w /\ clock w' = clock w
  /\ docket_seq w' = docket_seq w.
Proof.
  intros H. apply statement_ok in H as [Htx H].
  pose proof (next_db_fault_frame w) as F. simpl in F.
  destruct F as (Ft & Fx & Ftr & Fl & Fs & Fsf & Fd & Ff & Fc).
  apply bindE_ok in H as (stored & H1 & H). apply text_param_str in H1.
  subst stored. inversion H; subst. simpl.
  rewrite ?Ft, ?Fx, ?Ftr, ?Fl, ?Fs, ?Fsf, ?Fd, ?Ff, ?Fc.
  repeat split; auto.
Qed.

Lemma insert_inventor_ok did name email w row w' :
  insert_inventor did name email w = (Ok row, w') ->
  i_disclosure_id row = did /\ i_id row = fresh w
  /\ name = JStr (i_name row)
  /\ email = match i_email row with Some e => JStr e | None => JNull end
  /\ tables w' = add_inventor row (tables w)
  /\ tx w' = tx w /\ tx w <> Failed
  /\ trace w' = trace w ++ [EvInsertInventor (fresh w) did]
  /\ log w' = log w /\ clock w' = clock w /\ docket_seq w' = docket_seq w
  /\ s3 w' = s3 w.
Proof.
  intros H. apply statement_ok in H as [Htx H].
  pose proof (next_db_fault_frame w) as F. simpl in F.
  destruct F as (Ft & Fx & Ftr & Fl & Fs & Fsf & Fd & Ff & Fc).
  apply bindE_ok in H as (n & H1 & H).
  apply bindE_ok in H as (e & H2 & H).
  apply bindE_ok in H1 as (x1 & H1 & N1). apply not_null_ok in N1. subst x1.
  apply text_param_some in H1.
  assert (He : email = match e with Some e => JStr e | None => JNull end).
  { destruct e; [now apply text_param_some|now apply text_param_none]. }
  cbv zeta in H.
  destruct (has_disclosure did (tables (next_db_fault w).2)); simpl in H;
    [|discriminate].
  inversion H; subst row w'. simpl.
  rewrite ?Ft, ?Fx, ?Ftr, ?Fl, ?Fs, ?Fsf, ?Fd, ?Ff, ?Fc.
  repeat split; auto.
Qed.

Lemma insert_inventors_ok did invs : forall w rows w',
  insert_inventors did invs w = (Ok rows, w') ->
  Forall2 (inventor_of did) invs rows
  /\ disclosures (tables w') = disclosures (tables w)
  /\ inventors (tables w') = inventors (tables w) ++ rows
  /\ status_history (tables w') = status_history (tables w)
  /\ tx w' = tx w
  /\ trace w' = trace w ++ List.map (fun r => EvInsertInventor (i_id r) did) rows
  /\ log w' = log w /\ clock w' = clock w /\ docket_seq w' = docket_seq w
  /\ s3 w' = s3 w.
Proof.
  induction invs as [|inv invs IH]; intros w rows w' H.
  - inversion H; subst. simpl. rewrite !app_nil_r. repeat split; auto.
  - simpl in H.
    apply bind_ok in H as (name & w1 & H1 & H). apply lift_ok in H1 as [Hn ->].
    apply bind_ok in H as (email & w1 & H2 & H). apply lift_ok in H2 as [He ->].
    apply bind_ok in H as (row & w1 & Hrow & H).
    apply bind_ok in H as (rest & w2 & Hrest & H).
    inversion H; subst rows w'. clear H.
    apply insert_inventor_ok in Hrow
      as (Hd & Hid & Hname & Hemail & Ht & Hx & _ & Htr & Hl & Hc & Hs & Hs3).
    apply IH in Hrest
      as (HF & Hd2 & Hi2 & Hh2 & Hx2 & Htr2 & Hl2 & Hc2 & Hs2 & Hs32).
    rewrite Hd2, Hi2, Hh2, Hx2, Htr2, Hl2, Hc2, Hs2, Hs32.
    rewrite Ht, Hx, Htr, Hl, Hc, Hs, Hs3. simpl.
    rewrite <- !app_assoc. simpl. rewrite Hid.
    repeat split; auto.
    constructor; [|assumption].
    unfold inventor_of. rewrite Hn, He, Hname, Hemail. auto.
Qed.

Lemma attach_pdf_cases row fn content w r w' :
  attach_pdf row fn content w = (r, w') ->
  let key := lit "disclosures/" ++ uuid_str (d_id row) ++ lit "/" ++ fn in
  fresh w' = fresh w /\ clock w' = clock w /\ docket_seq w' = docket_seq w
  /\ ((r = Ok (Some key)
       /\ tables w'
          = map_disclosures
              (fun r => if d_id r =? d_id row
                        then with_pdf_object_key (Some key) r else r)
              (tables w)
       /\ tx w' = tx w
       /\ trace w' = trace w ++ [EvPutObject key; EvSetObjectKey (d_id row) key])
      \/ (r = Ok None /\ tables w' = tables w
          /\ (exists e l,
                log w' = l ++ [(WARNING, lit "Failed to upload PDF to storage: "
                                         ++ exn_str e)])
          /\ ((tx w' = tx w /\ trace w' = trace w)
              \/ (tx w = Active -> tx w' = Failed)))).
Proof.
  intros H. cbv zeta. unfold attach_pdf, try_except, bind in H.
  remember (lit "disclosures/" ++ uuid_str (d_id row) ++ lit "/" ++ fn) as key eqn:Ekey.
  destruct (upload_pdf (uuid_str (d_id row)) fn content w) as [[k|e] w1] eqn:Hu;
    apply upload_pdf_cases in Hu
      as ((Ft & Fx & Ff & Fc & Fd & Fdf) & [(e0 & He0 & Htr)|(Hk & Htr)]);
    try discriminate.
  - rewrite <- Ekey in Hk, Htr. injection Hk as ->.
    destruct (set_pdf_object_key key (d_id row) w1) as [[[]|e] w2] eqn:Hs.
    + apply set_pdf_object_key_ok in Hs as (Ht2 & Hx2 & Htr2 & Hl2 & Hf2 & Hc2 & Hd2).
      unfold ret, logger, modify in H; simpl in H; injection H as <- <-.
      rewrite Hf2, Hc2, Hd2, Ht2, Hx2, Htr2, Ff, Fc, Fd, Ft, Fx, Htr.
      rewrite <- app_assoc. simpl. split; [reflexivity|]. split; [reflexivity|].
      split; [reflexivity|]. left. auto.
    + pose proof (statement_raise _ _ _ _ Hs) as (Ht2 & _ & _ & _ & Hd2).
      pose proof (statement_raise_tx _ _ _ _ Hs) as (Hx2 & Hf2 & Hc2).
      unfold ret, logger, modify in H; simpl in H; injection H as <- <-. simpl.
      rewrite Hf2, Hc2, Hd2, Ht2, Ff, Fc, Fd, Ft.
      split; [reflexivity|]. split; [reflexivity|]. split; [reflexivity|].
      right. split; [reflexivity|]. split; [reflexivity|].
      split; [eauto|]. right. rewrite <- Fx. exact Hx2.
  - unfold ret, logger, modify in H; simpl in H; injection H as <- <-. simpl.
    rewrite Ff, Fc, Fd, Ft.
    split; [reflexivity|]. split; [reflexivity|]. split; [reflexivity|].
    right. split; [reflexivity|]. split; [reflexivity|].
    split; [eauto|]. left. auto.
Qed.

Lemma transaction_raise {A} (body : M A) w e w' :
  transaction body w = (Raise e, w') -> tables w' = tables w.
Proof.
  unfold transaction. intros H.
  pose proof (next_db_fault_frame w) as F. simpl in F. destruct F as (Ft & _).
  destruct (next_db_fault w) as [[e0|] w0]; simpl in Ft.
  - now inversion H; subst.
  - destruct (body _) as [[a|e1] w1].
    + destruct (tx w1); try discriminate;
        destruct (next_db_fault w1) as [[e2|] w2]; inversion H; reflexivity.
    + now inversion H; subst.
Qed.

Lemma transaction_ok {A} (body : M A) w a w' :
  transaction body w = (Ok a, w') ->
  exists w1,
    body (emit EvBegin (set_tx Active (snd (next_db_fault w)))) = (Ok a, w1)
    /\ ((tx w1 = Failed /\ tables w' = tables w)
        \/ (tx w1 <> Failed
            /\ w' = emit EvCommit (set_tx Idle (snd (next_db_fault w1))))).
Proof.
  unfold transaction. intros H.
  destruct (next_db_fault w) as [[e0|] w0]; simpl; [discriminate|].
  destruct (body _) as [[a1|e1] w1]; [|discriminate].
  exists w1. destruct (tx w1) eqn:Hx.
  1,2: destruct (next_db_fault w1) as [[e2|] w2]; [discriminate|];
       inversion H; subst; split; [reflexivity|]; right; split;
       [congruence|reflexivity].
  inversion H; subst. split; [reflexivity|]. left. auto.
Qed.

Lemma get_next_docket_number_cases w r w' :
  get_next_docket_number w = (r, w') ->
  tables w' = tables w
  /\ (forall s, r = Ok s ->
        s = lit "IDF-" ++ format_04d (docket_seq w + 1)
        /\ trace w' = trace w ++ [EvNextval (docket_seq w + 1)]
        /\ log w' = log w /\ fresh w' = fresh w /\ clock w' = clock w
        /\ s3 w' = s3 w /\ s3_faults w' = s3_faults w
        /\ docket_seq w' = (docket_seq w + 1)%Z).
Proof.
  unfold get_next_docket_number, get_connection, bind, nextval_docket_seq,
    statement, next_db_fault, ret, poison.
  intros H. crunch H; inversion H; subst; cbn; split; try reflexivity;
    intros s E; inversion E; repeat split; reflexivity.
Qed.

Lemma map_key_on_fresh_row id key row old :
  existsb (fun r => d_id r =? id) old = false -> d_id row = id ->
  List.map (fun r => if d_id r =? id then with_pdf_object_key key r else r)
    (old ++ [row])
  = old ++ [with_pdf_object_key key row].
Proof.
  intros Hold Hid. rewrite List.map_app. simpl.
  rewrite Hid, N.eqb_refl. f_equal.
  induction old as [|r old IH]; simpl in *; [reflexivity|].
  apply orb_false_elim in Hold as [Hr Hold]. rewrite Hr. f_equal. auto.
Qed.

Lemma with_no_key row :
  d_pdf_object_key row = None -> with_pdf_object_key None row = row.
Proof. destruct row; simpl; intros ->; reflexivity. Qed.

(** What a run of the transaction body that returns has done. *)
Lemma upload_transaction_ok extracted docket fn content w0 d key w1 :
  upload_transaction extracted docket fn content w0 = (Ok (d, key), w1) ->
  tx w0 = Active ->
  exists row items hist,
    (let+ v := py_get extracted (lit "inventors") (JList []) in py_iter v)
    = inr items
    /\ Forall2 (inventor_of (d_id row)) items (w_inventors d)
    /\ w_disclosure d = Disclosure_of_row row
    /\ w_status_history d = [hist]
    /\ d_id row = fresh w0 /\ d_status row = default_status
    /\ d_docket_number row = docket /\ d_original_filename row = Some fn
    /\ d_pdf_object_key row = None
    /\ h_status hist = default_status /\ h_disclosure_id hist = d_id row
    /\ disclosures (tables w1)
       = disclosures (tables w0) ++ [with_pdf_object_key key row]
    /\ inventors (tables w1) = inventors (tables w0) ++ w_inventors d
    /\ status_history (tables w1) = status_history (tables w0) ++ [hist]
    /\ tx w1 = Active
    /\ trace w1
       = trace w0 ++ [EvInsertDisclosure (d_id row)]
         ++ blob_events (d_id row) key
         ++ List.map (fun r => EvInsertInventor (i_id r) (d_id row)) (w_inventors d)
         ++ [EvInsertHistory (h_id hist) (d_id row) default_status]
    /\ (key = None ->
        exists e l,
          log w1 = l ++ [(WARNING, lit "Failed to upload PDF to storage: "
                                   ++ exn_str e)])
    /\ (forall k, key = Some k ->
          k = lit "disclosures/" ++ uuid_str (d_id row) ++ lit "/" ++ fn)
    /\ docket_seq w1 = docket_seq w0.
Proof.
  intros H Hactive. unfold upload_transaction in H.
  apply bind_ok in H as (t & wa & Ht & H). apply lift_ok in Ht as [Ht ->].
  apply bind_ok in H as (de & wa & Hde & H). apply lift_ok in Hde as [Hde ->].
  apply bind_ok in H as (kd & wa & Hkd & H). apply lift_ok in Hkd as [Hkd ->].
  apply bind_ok in H as (row & wa & Hrow & H).
  apply bind_ok in H as (key' & wb & Hkey & H).
  apply bind_ok in H as (items & wc & Hitems & H).
  apply lift_ok in Hitems as [Hitems ->].
  apply bind_ok in H as (rows & wc & Hrows & H).
  apply bind_ok in H as (hist & wd & Hhist & H).
  injection H as <- <- <-.
  apply insert_disclosure_ok in Hrow
    as (_ & _ & _ & Hid & Hdock & Hst & _ & Hfn & Hnokey & Hfresh & Hta & Hxa
        & _ & Htra & Hla & _ & _ & Hca & Hda).
  apply attach_pdf_cases in Hkey as (Hfb & Hcb & Hdb & Hkey).
  apply insert_inventors_ok in Hrows
    as (HF & Hdc & Hic & Hhc & Hxc & Htrc & Hlc & Hcc & Hdsc & _).
  apply insert_status_history_cases in Hhist
    as [(e & He & _)|(h & Hh & Hhrow & Htd & Hxd & Hnf & _ & Htrd & Hld & _ & Hdd)];
    [discriminate|].
  apply Ok_inj in Hh. subst hist.
  assert (Hxb : tx wb <> Failed) by congruence.
  assert (Hblob :
    disclosures (tables wb)
    = disclosures (tables w0) ++ [with_pdf_object_key key' row]
    /\ inventors (tables wb) = inventors (tables w0)
    /\ status_history (tables wb) = status_history (tables w0)
    /\ tx wb = tx wa
    /\ trace wb = trace wa ++ blob_events (d_id row) key'
    /\ (key' = None ->
        exists e l,
          log wb = l ++ [(WARNING, lit "Failed to upload PDF to storage: "
                                   ++ exn_str e)])
    /\ (forall k, key' = Some k ->
          k = lit "disclosures/" ++ uuid_str (d_id row) ++ lit "/" ++ fn)).
  { destruct Hkey as [(Hk & Htb & Hxb' & Htrb)|(Hk & Htb & Hlog & Hor)];
      apply Ok_inj in Hk; subst key'; rewrite Htb, Hta.
    - simpl. split.
      { apply map_key_on_fresh_row; [|reflexivity].
        rewrite Hid. exact Hfresh. }
      repeat split; auto; try discriminate.
      intros k E. apply Some_eq_inj in E. now subst k.
    - assert (tx wb = tx wa /\ trace wb = trace wa) as [Hx' Htr'].
      { destruct Hor as [?|Hfail]; [assumption|].
        exfalso. apply Hxb, Hfail. congruence. }
      simpl. rewrite (with_no_key row Hnokey), Htr', app_nil_r.
      repeat split; auto. intros k E. discriminate E. }
  destruct Hblob as (Hdb' & Hib & Hhb & Hxb' & Htrb & Hlogb & Hkb).
  exists row, items, h.
  rewrite Htd, Hxd, Htrd, Hld, Hdd. simpl.
  rewrite Hdc, Hic, Hhc, Hxc, Htrc, Hlc, Hdsc.
  rewrite Hdb', Hib, Hhb, Hxb', Htrb, Hdb.
  rewrite Hxa, Htra, Hda, Hhrow. simpl. rewrite Hst.
  rewrite <- !app_assoc. simpl.
  repeat split; auto.
  now rewrite Hid.
Qed.

(* ===================================================================== *)
(** ** Upload: the whole handler *)
(* ===================================================================== *)

Lemma get_connection_inv {A} (body : M A) w r w' :
  get_connection body w = (r, w') ->
  exists w1, body (set_tx Idle w) = (r, w1) /\ w' = set_tx Idle w1.
Proof.
  unfold get_connection. destruct (body (set_tx Idle w)) as [r1 w1].
  intros H. inversion H; subst. eauto.
Qed.

(** A failed upload leaves the three tables as they were. *)
Lemma upload_disclosure_raise env file w e w' :
  upload_disclosure env file w = (Raise e, w') -> tables w' = tables w.
Proof.
  unfold upload_disclosure. intros H.
  destruct (filename file) as [[|c name]|]; try (inversion H; reflexivity).
  destruct (negb _); try (inversion H; reflexivity).
  destruct (file_read file) as [e0|content]; try (inversion H; reflexivity).
  destruct (extract_text_from_pdf env content) as [e0|text].
  { destruct e0; inversion H; reflexivity. }
  destruct (_ || _); try (inversion H; reflexivity).
  destruct (extract_disclosure_info env text) as [e0|extracted];
    try (inversion H; reflexivity).
  apply bind_raise in H as [H|(docket & w1 & Hd & H)].
  { now apply get_next_docket_number_cases in H as [Ht _]. }
  apply get_next_docket_number_cases in Hd as [Ht _].
  apply bind_raise in H as [H|(d & w2 & _ & H)]; [|discriminate H].
  apply get_connection_inv in H as (w2 & H & ->).
  apply transaction_raise in H. simpl in *. congruence.
Qed.

(** What a successful upload has done. *)
Lemma upload_disclosure_ok env file w resp w' :
  upload_disclosure env file w = (Ok resp, w') ->
  exists row key hist items,
    extracted_inventors env file = inr items
    /\ Forall2 (inventor_of (d_id row)) items (w_inventors (r_disclosure resp))
    /\ w_disclosure (r_disclosure resp) = Disclosure_of_row row
    /\ w_status_history (r_disclosure resp) = [hist]
    /\ d_id row = fresh w /\ d_status row = default_status
    /\ d_docket_number row = lit "IDF-" ++ format_04d (docket_seq w + 1)
    /\ d_original_filename row = filename file
    /\ d_pdf_object_key row = None
    /\ h_status hist = default_status /\ h_disclosure_id hist = d_id row
    /\ disclosures (tables w')
       = disclosures (tables w) ++ [with_pdf_object_key key row]
    /\ inventors (tables w')
       = inventors (tables w) ++ w_inventors (r_disclosure resp)
    /\ status_history (tables w') = status_history (tables w) ++ [hist]
    /\ trace w'
       = trace w
         ++ [EvNextval (docket_seq w + 1); EvBegin; EvInsertDisclosure (d_id row)]
         ++ blob_events (d_id row) key
         ++ List.map (fun r => EvInsertInventor (i_id r) (d_id row))
              (w_inventors (r_disclosure resp))
         ++ [EvInsertHistory (h_id hist) (d_id row) default_status; EvCommit]
    /\ (key = None ->
        exists e l,
          log w' = l ++ [(WARNING, lit "Failed to upload PDF to storage: "
                                   ++ exn_str e)])
    /\ (forall k, key = Some k ->
          exists name, filename file = Some name
            /\ k = lit "disclosures/" ++ uuid_str (d_id row) ++ lit "/" ++ name).
Proof.
  unfold upload_disclosure, extracted_inventors. intros H.
  destruct (filename file) as [[|c name]|] eqn:Hname; try discriminate H.
  destruct (negb _); try discriminate H.
  destruct (file_read file) as [e0|content]; try discriminate H.
  simpl bindE.
  destruct (extract_text_from_pdf env content) as [e0|text].
  { destruct e0; discriminate H. }
  destruct (_ || _); try discriminate H.
  simpl bindE.
  destruct (extract_disclosure_info env text) as [e0|extracted];
    try discriminate H.
  simpl bindE.
  apply bind_ok in H as (docket & w1 & Hd & H).
  apply bind_ok in H as ([d key] & w2 & Htx & H).
  apply Ok_inj_pair in H as [<- <-].
  apply get_next_docket_number_cases in Hd as [Ht1 Hd].
  destruct (Hd docket eq_refl) as (-> & Htr1 & Hl1 & Hf1 & Hc1 & _ & _ & Hs1).
  apply get_connection_inv in Htx as (w3 & Htx & ->).
  apply transaction_ok in Htx as (w4 & Hbody & Hend).
  pose proof (next_db_fault_frame (set_tx Idle w1)) as F. simpl in F.
  destruct F as (Ft & _ & Ftr & Fl & _ & _ & Fd & Ff & _).
  apply upload_transaction_ok in Hbody; [|reflexivity].
  destruct Hbody as (row & items & hist & Hitems & HF & Hwd & Hwh & Hid & Hst
                     & Hdock & Hfn & Hnk & Hhs & Hhd & Hdis & Hinv & Hhis
                     & Hx4 & Htr4 & Hlog & Hkey & Hds).
  destruct Hend as [[Hx _]|[_ ->]]; [congruence|].
  pose proof (next_db_fault_frame w4) as G. simpl in G.
  destruct G as (Gt & _ & Gtr & Gl & _).
  simpl in *.
  exists row, key, hist, items. simpl.
  rewrite Gt, Gtr, Gl, Hdis, Hinv, Hhis, Htr4, Ft, Ftr, Ht1, Htr1.
  rewrite Ff, Hf1 in Hid.
  repeat (rewrite <- !app_assoc; simpl).
  repeat split; auto.
  intros k Hk. exists (c :: name). split; [reflexivity|]. now apply Hkey.
Qed.

Example upload_of_the_sample_document :
  fst (upload_disclosure env0 finfet_file world0)
  = Ok {| r_disclosure :=
            {| w_disclosure :=
                 {| m_id := 1; m_docket_number := lit "IDF-0007";
                    m_title := lit "Test Invention";
                    m_description := lit "A test invention description.";
                    m_key_differences := lit "Novel approach";
                    m_status := lit "pending"; m_review_notes := None;
                    m_original_filename := Some (lit "FinFET.pdf");
                    m_created_at := 1700000000%Z;
                    m_updated_at := 1700000000%Z |};
               w_inventors :=
                 [ {| i_id := 2; i_disclosure_id := 1; i_name := lit "John Doe";
                      i_email := Some (lit "john@example.com");
                      i_created_at := 1700000000%Z |};
                   {| i_id := 3; i_disclosure_id := 1; i_name := lit "Jane Smith";
                      i_email := Some (lit "jane@example.com");
                      i_created_at := 1700000000%Z |} ];
               w_status_history :=
                 [ {| h_id := 4; h_disclosure_id := 1; h_status := lit "pending";
                      h_changed_at := 1700000000%Z |} ] |};
          r_message := lit "Disclosure created successfully" |}
  /\ trace (snd (upload_disclosure env0 finfet_file world0))
     = [EvNextval 7; EvBegin; EvInsertDisclosure 1;
        EvPutObject (lit "disclosures/00000000-0000-0000-0000-000000000001/FinFET.pdf");
        EvSetObjectKey 1 (lit "disclosures/00000000-0000-0000-0000-000000000001/FinFET.pdf");
        EvInsertInventor 2 1; EvInsertInventor 3 1;
        EvInsertHistory 4 1 (lit "pending"); EvCommit].
Proof. split; vm_compute; reflexivity. Qed.

(* ===================================================================== *)
(** ** Upload: the transaction and the blob attachment *)
(* ===================================================================== *)

(** C2: the disclosure row, the inventor rows and the initial history row
    of an upload are written between one BEGIN and its COMMIT.  When the
    upload raises, the three tables are what they were; when it returns,
    the tables have gained exactly the new disclosure, one inventor row for
    each extracted inventor, in order, and one history row. *)
Theorem upload_writes_are_atomic (env : Env) (file : UploadFile) (w : World) :
  match upload_disclosure env file w with
  | (Raise _, w') => tables w' = tables w
  | (Ok resp, w') =>
      exists row key hist items writes,
        extracted_inventors env file = inr items
        /\ Forall2 (inventor_of (d_id row)) items
             (w_inventors (r_disclosure resp))
        /\ h_disclosure_id hist = d_id row
        /\ disclosures (tables w')
           = disclosures (tables w) ++ [with_pdf_object_key key row]
        /\ inventors (tables w')
           = inventors (tables w) ++ w_inventors (r_disclosure resp)
        /\ status_history (tables w') = status_history (tables w) ++ [hist]
        /\ trace w'
           = trace w ++ [EvNextval (docket_seq w + 1); EvBegin] ++ writes
             ++ [EvCommit]
        /\ Forall (fun ev => ~ tx_boundary ev) writes
  end.
Proof.
  destruct (upload_disclosure env file w) as [[resp|e] w'] eqn:H.
  - apply upload_disclosure_ok in H
      as (row & key & hist & items & Hitems & HF & _ & _ & _ & _ & _ & _ & _
          & _ & Hhd & Hdis & Hinv & Hhis & Htr & _ & _).
    exists row, key, hist, items.
    exists ([EvInsertDisclosure (d_id row)] ++ blob_events (d_id row) key
            ++ List.map (fun r => EvInsertInventor (i_id r) (d_id row))
                 (w_inventors (r_disclosure resp))
            ++ [EvInsertHistory (h_id hist) (d_id row) default_status]).
    repeat split; auto.
    + rewrite Htr. simpl. repeat (rewrite <- !app_assoc; simpl). reflexivity.
    + assert (Hb : forall ev, ev <> EvBegin -> ev <> EvCommit ->
                              ev <> EvRollback -> ~ tx_boundary ev).
      { intros ev ? ? ? [?|[?|?]]; contradiction. }
      repeat apply Forall_app_2.
      * repeat constructor. apply Hb; discriminate.
      * destruct key; repeat constructor; apply Hb; discriminate.
      * clear. generalize (w_inventors (r_disclosure resp)).
        intros l. induction l; simpl; constructor; [|assumption].
        intros [?|[?|?]]; discriminate.
      * repeat constructor. apply Hb; discriminate.
  - now apply upload_disclosure_raise in H.
Qed.

Example rollback_when_the_history_insert_fails :
  fst (upload_disclosure env0 finfet_file world_history_fails)
  = Raise (PostgresError (lit "connection is closed"))
  /\ tables (snd (upload_disclosure env0 finfet_file world_history_fails))
     = empty_tables
  /\ trace (snd (upload_disclosure env0 finfet_file world_history_fails))
     = [EvNextval 7; EvBegin; EvInsertDisclosure 1;
        EvPutObject (lit "disclosures/00000000-0000-0000-0000-000000000001/FinFET.pdf");
        EvSetObjectKey 1 (lit "disclosures/00000000-0000-0000-0000-000000000001/FinFET.pdf");
        EvInsertInventor 2 1; EvInsertInventor 3 1; EvRollback].
Proof. repeat split; vm_compute; reflexivity. Qed.

(** The history entries the handlers do write: an upload writes exactly one
    history entry, for the new disclosure and with the initial status
    [pending].  An update leaves the history alone or appends one entry; the
    entry carries the status of the patch, which then differs from the
    stored one, and an update that returns has appended it whenever the
    patch carries a status that differs from the stored one.  So a patch
    without a status, or with the stored status, appends nothing. *)
Theorem status_history_entries (env : Env) :
  (forall file w resp w',
     upload_disclosure env file w = (Ok resp, w') ->
     exists hist,
       status_history (tables w') = status_history (tables w) ++ [hist]
       /\ w_status_history (r_disclosure resp) = [hist]
       /\ h_status hist = lit "pending"
       /\ h_disclosure_id hist = m_id (w_disclosure (r_disclosure resp))
       /\ m_status (w_disclosure (r_disclosure resp)) = lit "pending")
  /\ (forall id upd w r w',
        update_disclosure id upd w = (r, w') ->
        (status_history (tables w') = status_history (tables w)
         \/ exists s cur,
              u_status upd = Some s /\ stored_status id (tables w) = Some cur
              /\ s <> cur
              /\ status_history (tables w')
                 = status_history (tables w)
                   ++ [{| h_id := fresh w; h_disclosure_id := id;
                          h_status := s; h_changed_at := clock w |}])
        /\ (forall d s cur,
              r = Ok d -> u_status upd = Some s ->
              stored_status id (tables w) = Some cur -> s <> cur ->
              status_history (tables w')
              = status_history (tables w)
                ++ [{| h_id := fresh w; h_disclosure_id := id;
                       h_status := s; h_changed_at := clock w |}])).
Proof.
  split.
  - intros file w resp w' H.
    apply upload_disclosure_ok in H
      as (row & key & hist & items & _ & _ & Hwd & Hwh & _ & Hst & _ & _ & _
          & Hhs & Hhd & _ & _ & Hhis & _).
    exists hist. rewrite Hwd. simpl. repeat split; auto.
  - intros id upd w r w' H.
    apply update_disclosure_cases in H
      as [[Ht He]|(c & Hc & _ & _ & _ & _ & Hh)].
    + split; [left; now rewrite Ht|].
      intros d s cur -> . destruct He as [e He]. discriminate He.
    + destruct Hh as [[Hsame Hraise]|(s & Hs & Hne & Happ)].
      * split; [now left|].
        intros d s cur -> Hs Hcur Hne.
        assert (c = cur) by congruence. subst c.
        destruct (Hraise s Hs Hne) as [e He]. discriminate He.
      * split; [right; exists s, c; auto|].
        intros d s' cur _ Hs' Hcur _.
        assert (s' = s) by congruence. now subst.
Qed.

Lemma status_history_entries_witness :
  exists hist,
    status_history (tables (snd (upload_disclosure env0 finfet_file world0)))
    = status_history (tables world0) ++ [hist]
    /\ h_status hist = lit "pending".
Proof.
  destruct (upload_disclosure env0 finfet_file world0) as [r w'] eqn:H.
  assert (Hr : exists resp, r = Ok resp).
  { assert (E : r = fst (upload_disclosure env0 finfet_file world0))
      by now rewrite H.
    rewrite E. vm_compute. eauto. }
  destruct Hr as [resp ->].
  destruct (proj1 (status_history_entries env0) finfet_file world0 resp w' H)
    as (hist & H1 & _ & H2 & _).
  exists hist. simpl. auto.
Defined.

Example approval_appends_one_entry :
  List.map h_status
    (status_history (tables (snd (update_disclosure 1 approve_patch world1))))
  = [lit "pending"; lit "approved"].
Proof. vm_compute. reflexivity. Qed.

(** C3: the update does not always append the entry of a status change.
    [update_disclosure] opens no transaction around its UPDATE and its
    INSERT into the history, as [upload_disclosure] does around its
    inserts.  For the stored disclosure with status [pending] and the patch
    that sets [approved], when the connection is lost at the INSERT, the
    request fails, the stored status is [approved], and the history is as
    it was: the status has changed to a different value and no entry
    records it. *)
Theorem status_change_survives_a_failed_history_insert :
  let w := world_update_fault in
  let w' := snd (update_disclosure 1 approve_patch w) in
  stored_status 1 (tables w) = Some (lit "pending")
  /\ u_status approve_patch = Some (lit "approved")
  /\ fst (update_disclosure 1 approve_patch w)
     = Raise (PostgresError (lit "connection is closed"))
  /\ stored_status 1 (tables w') = Some (lit "approved")
  /\ List.map d_status (disclosures (tables w')) = [lit "approved"]
  /\ status_history (tables w') = status_history (tables w)
  /\ List.map h_status (status_history (tables w')) = [lit "pending"].
Proof. repeat split; vm_compute; reflexivity. Qed.

Example same_status_appends_nothing :
  let w := snd (update_disclosure 1 approve_patch world1) in
  status_history (tables (snd (update_disclosure 1 approve_patch w)))
  = status_history (tables w).
Proof. vm_compute. reflexivity. Qed.

Lemma attach_pdf_swallows_blob_failure row fn content w e w1 :
  upload_pdf (uuid_str (d_id row)) fn content w = (Raise e, w1) ->
  attach_pdf row fn content w
  = (Ok None,
     add_log WARNING (lit "Failed to upload PDF to storage: " ++ exn_str e) w1)
  /\ db_same w w1.
Proof.
  intros H. split.
  - unfold attach_pdf, try_except, bind. rewrite H. reflexivity.
  - now apply upload_pdf_cases in H as [Hs _].
Qed.

Lemma attach_pdf_never_raises row fn content w :
  exists key w', attach_pdf row fn content w = (Ok key, w').
Proof.
  destruct (attach_pdf row fn content w) as [r w'] eqn:H.
  apply attach_pdf_cases in H as (_ & _ & _ & [(-> & _)|(-> & _)]); eauto.
Qed.

Lemma transaction_commits {A} (body : M A) w a w1 :
  hd None (db_faults w) = None ->
  body (emit EvBegin (set_tx Active (snd (next_db_fault w)))) = (Ok a, w1) ->
  tx w1 <> Failed -> hd None (db_faults w1) = None ->
  transaction body w
  = (Ok a, emit EvCommit (set_tx Idle (snd (next_db_fault w1)))).
Proof.
  intros Hb Hbody Htx Hc. unfold transaction, next_db_fault in *.
  destruct (db_faults w) as [|[e|] rest]; simpl in *; try discriminate;
    rewrite Hbody; destruct (tx w1); try contradiction;
    destruct (db_faults w1) as [|[e|] rest1]; simpl in *; try discriminate;
    reflexivity.
Qed.

(** The upload whose blob write fails, step by step: when the statements
    around the attachment go through, the handler returns. *)
Lemma upload_disclosure_without_blob env file w name content text extracted
    docket w1 t d k row wa e wa' items invs wc h wd :
  filename file = Some name -> name <> [] ->
  endswith (str_lower env name) (lit ".pdf") = true ->
  file_read file = inr content ->
  extract_text_from_pdf env content = inr text ->
  (min_text_length <= length (strip text))%nat ->
  extract_disclosure_info env text = inr extracted ->
  get_next_docket_number w = (Ok docket, w1) ->
  hd None (db_faults w1) = None ->
  py_getitem extracted (lit "title") = inr t ->
  py_getitem extracted (lit "description") = inr d ->
  py_getitem extracted (lit "key_differences") = inr k ->
  insert_disclosure docket t d k name
    (emit EvBegin (set_tx Active (snd (next_db_fault (set_tx Idle w1)))))
  = (Ok row, wa) ->
  upload_pdf (uuid_str (d_id row)) name content wa = (Raise e, wa') ->
  (let+ v := py_get extracted (lit "inventors") (JList []) in py_iter v)
  = inr items ->
  insert_inventors (d_id row) items
    (add_log WARNING (lit "Failed to upload PDF to storage: " ++ exn_str e) wa')
  = (Ok invs, wc) ->
  insert_status_history (d_id row) (d_status row) wc = (Ok h, wd) ->
  hd None (db_faults wd) = None ->
  upload_disclosure env file w
  = (Ok {| r_disclosure := {| w_disclosure := Disclosure_of_row row;
                              w_inventors := invs;
                              w_status_history := [h] |};
           r_message := lit "Disclosure created successfully" |},
     set_tx Idle (emit EvCommit (set_tx Idle (snd (next_db_fault wd))))).
Proof.
  intros Hname Hne Hpdf Hread Htext Hlen Hex Hdocket Hbegin Ht Hd Hk Hrow Hblob
    Hitems Hinvs Hhist Hcommit.
  assert (Hbody :
    upload_transaction extracted docket name content
      (emit EvBegin (set_tx Active (snd (next_db_fault (set_tx Idle w1)))))
    = (Ok ({| w_disclosure := Disclosure_of_row row; w_inventors := invs;
              w_status_history := [h] |}, None), wd)).
  { unfold upload_transaction, bind at 1. rewrite Ht. simpl.
    unfold bind at 1. rewrite Hd. simpl.
    unfold bind at 1. rewrite Hk. simpl.
    unfold bind at 1. rewrite Hrow.
    destruct (attach_pdf_swallows_blob_failure row name content wa e wa' Hblob)
      as [Hattach _].
    unfold bind at 1. rewrite Hattach.
    unfold bind at 1. rewrite Hitems. simpl.
    unfold bind at 1. rewrite Hinvs.
    unfold bind at 1. rewrite Hhist. reflexivity. }
  assert (Htx : tx wd <> Failed).
  { apply insert_status_history_cases in Hhist
      as [(e0 & He0 & _)|(h0 & _ & _ & _ & Hx & Hnf & _)];
      [discriminate|congruence]. }
  unfold upload_disclosure. rewrite Hname.
  destruct name as [|c name]; [contradiction|].
  rewrite Hpdf, Hread, Htext.
  assert (Hlong : (match text with [] => true | _ :: _ => false end
                   || (length (strip text) <? min_text_length)%nat) = false).
  { apply orb_false_iff. split.
    - destruct text; [|reflexivity].
      unfold min_text_length in Hlen. simpl in Hlen. lia.
    - now apply Nat.ltb_ge. }
  rewrite Hlong, Hex. cbn [negb].
  unfold bind at 1. rewrite Hdocket.
  unfold bind at 1, get_connection.
  rewrite (transaction_commits _ (set_tx Idle w1) _ _ Hbegin Hbody Htx Hcommit).
  reflexivity.
Qed.

(** C1, as the code has it: the blob attachment runs inside the creation
    transaction.  In every upload that returns, the object is put in the
    bucket and its key stored right after the disclosure row is inserted,
    before the inventor rows and the history row are inserted and before
    the COMMIT; when no object was attached the stored key is null and the
    warning is the last thing logged.  No exception leaves the attachment
    step, and when the blob write raises, the step returns without a key,
    logs the warning, and hands on the relational side of the world
    untouched.  So the creation is still reported as successful: when the
    blob write raises after the disclosure row is inserted, and the inserts
    of the inventors and of the history row and the COMMIT go through, the
    upload returns the created disclosure, the stored key is null and the
    warning is in the log. *)
Theorem blob_attach_runs_inside_transaction (env : Env) (file : UploadFile)
    (w : World) :
  (forall resp w',
     upload_disclosure env file w = (Ok resp, w') ->
     exists row key hist,
       trace w'
       = trace w
         ++ [EvNextval (docket_seq w + 1); EvBegin; EvInsertDisclosure (d_id row)]
         ++ blob_events (d_id row) key
         ++ List.map (fun r => EvInsertInventor (i_id r) (d_id row))
              (w_inventors (r_disclosure resp))
         ++ [EvInsertHistory (h_id hist) (d_id row) default_status; EvCommit]
       /\ disclosures (tables w')
          = disclosures (tables w) ++ [with_pdf_object_key key row]
       /\ d_pdf_object_key (with_pdf_object_key key row) = key
       /\ (key = None ->
           exists e l,
             log w' = l ++ [(WARNING, lit "Failed to upload PDF to storage: "
                                      ++ exn_str e)]))
  /\ (forall row fn content w0,
        exists key w1, attach_pdf row fn content w0 = (Ok key, w1))
  /\ (forall row fn content w0 e w1,
        upload_pdf (uuid_str (d_id row)) fn content w0 = (Raise e, w1) ->
        attach_pdf row fn content w0
        = (Ok None,
           add_log WARNING (lit "Failed to upload PDF to storage: " ++ exn_str e)
             w1)
        /\ db_same w0 w1)
  /\ (forall name content text extracted docket w1 t d k row wa e wa' items
             invs wc h wd,
        filename file = Some name -> name <> [] ->
        endswith (str_lower env name) (lit ".pdf") = true ->
        file_read file = inr content ->
        extract_text_from_pdf env content = inr text ->
        (min_text_length <= length (strip text))%nat ->
        extract_disclosure_info env text = inr extracted ->
        get_next_docket_number w = (Ok docket, w1) ->
        hd None (db_faults w1) = None ->
        py_getitem extracted (lit "title") = inr t ->
        py_getitem extracted (lit "description") = inr d ->
        py_getitem extracted (lit "key_differences") = inr k ->
        insert_disclosure docket t d k name
          (emit EvBegin (set_tx Active (snd (next_db_fault (set_tx Idle w1)))))
        = (Ok row, wa) ->
        upload_pdf (uuid_str (d_id row)) name content wa = (Raise e, wa') ->
        (let+ v := py_get extracted (lit "inventors") (JList []) in py_iter v)
        = inr items ->
        insert_inventors (d_id row) items
          (add_log WARNING
             (lit "Failed to upload PDF to storage: " ++ exn_str e) wa')
        = (Ok invs, wc) ->
        insert_status_history (d_id row) (d_status row) wc = (Ok h, wd) ->
        hd None (db_faults wd) = None ->
        exists w',
          upload_disclosure env file w
          = (Ok {| r_disclosure := {| w_disclosure := Disclosure_of_row row;
                                      w_inventors := invs;
                                      w_status_history := [h] |};
                   r_message := lit "Disclosure created successfully" |}, w')
          /\ (exists stored,
                disclosures (tables w') = disclosures (tables w) ++ [stored]
                /\ d_id stored = d_id row /\ d_pdf_object_key stored = None)
          /\ (exists l,
                log w' = l ++ [(WARNING, lit "Failed to upload PDF to storage: "
                                         ++ exn_str e)])).
Proof.
  split; [|split; [|split]].
  - intros resp w' H.
    apply upload_disclosure_ok in H
      as (row & key & hist & items & _ & _ & _ & _ & _ & _ & _ & _ & _
          & _ & _ & Hdis & _ & _ & Htr & Hlog & _).
    exists row, key, hist. repeat split; auto.
  - intros row fn content w0. apply attach_pdf_never_raises.
  - intros row fn content w0 e w1.
    apply attach_pdf_swallows_blob_failure.
  - intros name content text extracted docket w1 t d k row wa e wa' items invs
      wc h wd Hname Hne Hpdf Hread Htext Hlen Hex Hdocket Hbegin Ht Hd Hk Hrow
      Hblob Hitems Hinvs Hhist Hcommit.
    pose proof (upload_disclosure_without_blob env file w name content text
                  extracted docket w1 t d k row wa e wa' items invs wc h wd
                  Hname Hne Hpdf Hread Htext Hlen Hex Hdocket Hbegin Ht Hd Hk
                  Hrow Hblob Hitems Hinvs Hhist Hcommit) as Hrun.
    eexists. split; [exact Hrun|]. simpl.
    pose proof (next_db_fault_frame wd) as G. simpl in G.
    destruct G as (Gt & _ & _ & Gl & _).
    pose proof (next_db_fault_frame (set_tx Idle w1)) as F. simpl in F.
    destruct F as (Ft & _).
    apply get_next_docket_number_cases in Hdocket as [Ht1 _].
    apply insert_disclosure_ok in Hrow
      as (_ & _ & _ & _ & _ & _ & _ & _ & Hnokey & _ & Hta & _).
    apply upload_pdf_cases in Hblob as [(Htb & _) _].
    apply insert_inventors_ok in Hinvs
      as (_ & Hdc & _ & _ & _ & _ & Hlc & _).
    apply insert_status_history_cases in Hhist
      as [(e0 & He0 & _)|(h0 & _ & _ & Htd & _ & _ & _ & _ & Hld & _)];
      [discriminate|].
    simpl in *. split.
    + exists row. rewrite Gt, Htd. simpl. rewrite Hdc, Htb, Hta. simpl.
      rewrite Ft, Ht1. auto.
    + exists (log wa'). now rewrite Gl, Hld, Hlc.
Qed.

Lemma blob_attach_runs_inside_transaction_witness :
  (exists e w1,
     attach_pdf stored_row (lit "FinFET.pdf") [x25] world_no_blob_store
     = (Ok None,
        add_log WARNING (lit "Failed to upload PDF to storage: " ++ exn_str e) w1)
     /\ db_same world_no_blob_store w1)
  /\ (exists resp w',
        upload_disclosure env0 finfet_file world_no_blob_store = (Ok resp, w')
        /\ List.map d_pdf_object_key (disclosures (tables w')) = [None]
        /\ log w'
           = [(WARNING, lit "Failed to upload PDF to storage: Could not connect to the endpoint URL")]).
Proof.
  split.
  - destruct (upload_pdf (uuid_str (d_id stored_row)) (lit "FinFET.pdf") [x25]
                world_no_blob_store) as [r w1] eqn:H.
    assert (Hr : exists e, r = Raise e).
    { assert (E : r = fst (upload_pdf (uuid_str (d_id stored_row))
                             (lit "FinFET.pdf") [x25] world_no_blob_store))
        by now rewrite H.
      rewrite E. vm_compute. eauto. }
    destruct Hr as [e ->]. exists e, w1.
    exact (proj1 (proj2 (proj2 (blob_attach_runs_inside_transaction env0
                                  finfet_file world0)))
             stored_row (lit "FinFET.pdf") [x25] world_no_blob_store e w1 H).
  - pose (w := world_no_blob_store).
    pose (content := [x25; x50; x44; x46]).
    pose (name := lit "FinFET.pdf").
    pose (w1 := snd (get_next_docket_number w)).
    pose (w0 := emit EvBegin
                  (set_tx Active (snd (next_db_fault (set_tx Idle w1))))).
    pose (t := JStr (lit "Test Invention")).
    pose (d := JStr (lit "A test invention description.")).
    pose (k := JStr (lit "Novel approach")).
    pose (docket := lit "IDF-0007").
    pose (row := {| d_id := 1; d_docket_number := docket;
                    d_title := lit "Test Invention";
                    d_description := lit "A test invention description.";
                    d_key_differences := lit "Novel approach";
                    d_status := lit "pending"; d_review_notes := None;
                    d_original_filename := Some name;
                    d_pdf_object_key := None;
                    d_created_at := 1700000000%Z;
                    d_updated_at := 1700000000%Z |}).
    pose (wa := snd (insert_disclosure docket t d k name w0)).
    pose (e := OtherError (lit "Could not connect to the endpoint URL")).
    pose (wa' := snd (upload_pdf (uuid_str 1) name content wa)).
    pose (wb := add_log WARNING
                  (lit "Failed to upload PDF to storage: " ++ exn_str e) wa').
    pose (items := [inventor_value "John Doe" "john@example.com";
                    inventor_value "Jane Smith" "jane@example.com"]).
    pose (invs := [ {| i_id := 2; i_disclosure_id := 1;
                       i_name := lit "John Doe";
                       i_email := Some (lit "john@example.com");
                       i_created_at := 1700000000%Z |};
                    {| i_id := 3; i_disclosure_id := 1;
                       i_name := lit "Jane Smith";
                       i_email := Some (lit "jane@example.com");
                       i_created_at := 1700000000%Z |} ]).
    pose (wc := snd (insert_inventors 1 items wb)).
    pose (h := {| h_id := 4; h_disclosure_id := 1; h_status := lit "pending";
                  h_changed_at := 1700000000%Z |}).
    pose (wd := snd (insert_status_history 1 (lit "pending") wc)).
    destruct (proj2 (proj2 (proj2 (blob_attach_runs_inside_transaction env0
                                     finfet_file w)))
                name content long_page team_value docket w1 t d k row wa e wa'
                items invs wc h wd)
      as (w' & Hrun & _ & _);
      try (vm_compute; reflexivity); try (vm_compute; discriminate).
    { apply Nat.leb_le. vm_compute. reflexivity. }
    eexists. exists w'. split; [exact Hrun|].
    apply (f_equal snd) in Hrun. simpl in Hrun. subst w'.
    split; vm_compute; reflexivity.
Defined.

(** C1, as the specification words it, fails: in the upload of the sample
    document the object is put in the bucket before any COMMIT. *)
Lemma blob_is_attached_before_commit :
  ~ blob_after_commit (trace (snd (upload_disclosure env0 finfet_file world0))).
Proof.
  intros H.
  destruct (H 3%nat (lit "disclosures/00000000-0000-0000-0000-000000000001/FinFET.pdf"))
    as (j & Hj & Hc).
  - vm_compute. reflexivity.
  - destruct j as [|[|[|j]]]; [vm_compute in Hc; discriminate Hc ..|lia].
Qed.

Example upload_succeeds_without_blob_store :
  (exists resp, fst (upload_disclosure env0 finfet_file world_no_blob_store)
                = Ok resp)
  /\ List.map d_pdf_object_key
       (disclosures (tables (snd (upload_disclosure env0 finfet_file
                                    world_no_blob_store))))
     = [None]
  /\ log (snd (upload_disclosure env0 finfet_file world_no_blob_store))
     = [(WARNING, lit "Failed to upload PDF to storage: Could not connect to the endpoint URL")]
  /\ trace (snd (upload_disclosure env0 finfet_file world_no_blob_store))
     = [EvNextval 7; EvBegin; EvInsertDisclosure 1;
        EvInsertInventor 2 1; EvInsertInventor 3 1;
        EvInsertHistory 4 1 (lit "pending"); EvCommit].
Proof. repeat split; vm_compute; eauto. Qed.

Example blob_outlives_a_rolled_back_upload :
  tables (snd (upload_disclosure env0 finfet_file world_history_fails))
  = empty_tables
  /\ s3 (snd (upload_disclosure env0 finfet_file world_history_fails))
     = Some {[ lit "disclosures/00000000-0000-0000-0000-000000000001/FinFET.pdf"
               := [x25; x50; x44; x46] ]}.
Proof. split; vm_compute; reflexivity. Qed.

(* ===================================================================== *)
(** ** CSV export *)
(* ===================================================================== *)




#[local] Instance newest_first_total : Total newest_first.
Proof. intros a b. unfold newest_first. lia. Qed.

#[local] Instance oldest_first_total : Total oldest_first.
Proof. intros a b. unfold oldest_first. lia. Qed.



Example export_of_the_stored_disclosure :
  fst (export_disclosures_csv env0 None None world1)
  = Ok (lit "Docket Number,Title,Description,Key Differences,Status,Review Notes,Original Filename,Inventor Names,Inventor Emails,Created At,Updated At"
        ++ [13; 10]
        ++ lit "IDF-0007,Test Invention,A test invention description.,Novel approach,pending,needs figures,FinFET.pdf,John Doe; Jane Smith,john@example.com,1700000000,1700000000"
        ++ [13; 10]).
Proof. vm_compute. reflexivity. Qed.

(* ===================================================================== *)
(** * Further properties of the handlers and services *)
(* ===================================================================== *)


(* ===================================================================== *)
(** ** Docket numbers are told apart *)
(* ===================================================================== *)

Lemma dec_value_zeros k s : dec_value (repeat 48 k ++ s) = dec_value s.
Proof.
  unfold dec_value. rewrite fold_left_app.
  assert (fold_left (fun acc c => 10 * acc + (c - 48)) (repeat 48 k) 0 = 0) as ->
    by (induction k; simpl; auto).
  reflexivity.
Qed.

Lemma zfill_head_digit width s c rest :
  forallb isdigit s = true -> zfill width s = c :: rest -> isdigit c = true.
Proof.
  intros Hs H. pose proof (zfill_digits width s Hs) as Hz.
  rewrite H in Hz. simpl in Hz. now apply andb_prop in Hz as [Hc _].
Qed.

Lemma format_04d_value z :
  (0 <= z)%Z -> dec_value (format_04d z) = Z.to_N z.
Proof.
  intros H. unfold format_04d. destruct (Z.ltb_spec z 0); [lia|].
  unfold zfill. now rewrite dec_value_zeros, to_dec_value.
Qed.

Lemma format_04d_inj a b : format_04d a = format_04d b -> a = b.
Proof.
  unfold format_04d.
  destruct (Z.ltb_spec a 0) as [Ha|Ha]; destruct (Z.ltb_spec b 0) as [Hb|Hb];
    intros H.
  - injection H as H.
    apply (f_equal dec_value) in H. unfold zfill in H.
    rewrite !dec_value_zeros, !to_dec_value in H. lia.
  - exfalso. symmetry in H.
    apply zfill_head_digit in H; [discriminate H|apply to_dec_digits].
  - exfalso.
    apply zfill_head_digit in H; [discriminate H|apply to_dec_digits].
  - apply (f_equal dec_value) in H. unfold zfill in H.
    rewrite !dec_value_zeros, !to_dec_value in H. lia.
Qed.

(** X1: a docket number names its counter value: when two calls of
    [get_next_docket_number], in whatever worlds, return the same string,
    the sequence stood at the same value, so that distinct values of the
    sequence always give distinct docket numbers. *)
Theorem docket_number_names_its_counter (w1 w2 : World) (s : list N) :
  fst (get_next_docket_number w1) = Ok s ->
  fst (get_next_docket_number w2) = Ok s ->
  docket_seq w1 = docket_seq w2.
Proof.
  intros H1 H2.
  destruct (get_next_docket_number w1) as [r1 w1'] eqn:E1.
  destruct (get_next_docket_number w2) as [r2 w2'] eqn:E2.
  simpl in H1, H2. subst r1 r2.
  apply get_next_docket_number_cases in E1 as [_ E1].
  apply get_next_docket_number_cases in E2 as [_ E2].
  destruct (E1 s eq_refl) as (Hs1 & _). destruct (E2 s eq_refl) as (Hs2 & _).
  rewrite Hs1 in Hs2. apply app_inv_head in Hs2.
  apply format_04d_inj in Hs2. lia.
Qed.

Lemma docket_number_names_its_counter_witness :
  docket_seq world0 = docket_seq world_no_blob_store.
Proof.
  apply (docket_number_names_its_counter world0 world_no_blob_store
           (lit "IDF-0007")); vm_compute; reflexivity.
Defined.

(* ===================================================================== *)
(** ** Components of the world a computation leaves alone *)
(* ===================================================================== *)

Section Frame.

Context {X : Type} (f : World -> X).

Lemma keeps_ret {A} (a : A) : keeps f (ret a).
Proof. intros w r w' H. now inversion H. Qed.

Lemma keeps_raise {A} (e : exn) : keeps f (@raise A e).
Proof. intros w r w' H. now inversion H. Qed.

Lemma keeps_lift {A} (r : exn + A) : keeps f (lift r).
Proof. intros w r0 w' H. destruct r; now inversion H. Qed.

Lemma keeps_bind {A B} (m : M A) (k : A -> M B) :
  keeps f m -> (forall a, keeps f (k a)) -> keeps f (bind m k).
Proof.
  intros Hm Hk w r w' H. unfold bind in H.
  destruct (m w) as [[a|e] w1] eqn:E.
  - rewrite (Hk a _ _ _ H). eapply Hm; eauto.
  - inversion H; subst. eapply Hm; eauto.
Qed.

Lemma keeps_try_except {A} (m : M A) (h : exn -> M A) :
  keeps f m -> (forall e, keeps f (h e)) -> keeps f (try_except m h).
Proof.
  intros Hm Hh w r w' H. unfold try_except in H.
  destruct (m w) as [[a|e] w1] eqn:E.
  - inversion H; subst. eapply Hm; eauto.
  - rewrite (Hh e _ _ _ H). eapply Hm; eauto.
Qed.

Lemma keeps_except_ClientError {A} (m : M A) (h : exn -> M A) :
  keeps f m -> (forall e, keeps f (h e)) -> keeps f (except_ClientError m h).
Proof.
  intros Hm Hh. apply keeps_try_except; [assumption|].
  intros e. destruct e; auto using keeps_raise.
Qed.

Section Relational.

(** [f] does not look at the connection. *)
Hypothesis f_tx : forall t w, f (set_tx t w) = f w.
Hypothesis f_db_faults : forall l w, f (set_db_faults l w) = f w.

Lemma keeps_statement {A} (run : World -> exn + (A * World)) :
  (forall w a w', run w = inr (a, w') -> f w' = f w) ->
  keeps f (statement run).
Proof.
  intros Hrun w r w' H. unfold statement, next_db_fault, poison in H.
  destruct (tx w) eqn:Htx; destruct (db_faults w) as [|[e|] rest] eqn:Hf;
    simpl in H; try rewrite Htx in H;
    try (destruct (run _) as [e'|[a w2]] eqn:Hr; simpl in H;
         try rewrite Htx in H);
    inversion H; subst; rewrite ?f_tx, ?f_db_faults; auto;
    rewrite (Hrun _ _ _ Hr), ?f_db_faults; reflexivity.
Qed.

Lemma keeps_get_connection {A} (body : M A) :
  keeps f body -> keeps f (get_connection body).
Proof.
  intros Hb w r w' H. apply get_connection_inv in H as (w1 & H & ->).
  rewrite f_tx, (Hb _ _ _ H). apply f_tx.
Qed.

End Relational.

Section Blob.

Hypothesis f_s3_faults : forall l w, f (set_s3_faults l w) = f w.

Lemma keeps_s3_call {A} (run : World -> exn + (A * World)) :
  (forall w a w', run w = inr (a, w') -> f w' = f w) ->
  keeps f (s3_call run).
Proof.
  intros Hrun w r w' H. unfold s3_call, next_s3_fault in H.
  destruct (s3_faults w) as [|[e|] rest] eqn:Hf; simpl in H;
    try (destruct (run _) as [e'|[a w2]] eqn:Hr);
    inversion H; subst; rewrite ?f_s3_faults; auto;
    rewrite (Hrun _ _ _ Hr), ?f_s3_faults; reflexivity.
Qed.

End Blob.

Lemma keeps_logger l msg :
  (forall w, f (add_log l msg w) = f w) -> keeps f (logger l msg).
Proof. intros Hl w r w' H. inversion H; subst. apply Hl. Qed.

End Frame.

Lemma keeps_transaction {X A} (f : World -> X) (body : M A) :
  (forall t w, f (set_tx t w) = f w) ->
  (forall l w, f (set_db_faults l w) = f w) ->
  (forall t w, f (set_tables t w) = f w) ->
  (forall e w, f (emit e w) = f w) ->
  keeps f body -> keeps f (transaction body).
Proof.
  intros f_tx f_db f_tb f_em Hb w r w' H.
  unfold transaction, next_db_fault in H.
  assert (Hd : forall w0, f (match db_faults w0 with
                             | [] => (None, w0)
                             | x :: rest => (x, set_db_faults rest w0)
                             end).2 = f w0).
  { intros w0. destruct (db_faults w0); simpl; auto. }
  destruct (db_faults w) as [|[e|] rest] eqn:Hf; simpl in H.
  2:{ inversion H; subst. apply f_db. }
  all: destruct (body _) as [[a|e] w1] eqn:Hbody;
       apply Hb in Hbody; rewrite ?f_em, ?f_tx, ?f_db in Hbody.
  all: try (inversion H; subst; now rewrite f_em, f_tx, f_tb).
  all: destruct (tx w1);
       try (inversion H; subst; now rewrite f_em, f_tx, f_tb);
       specialize (Hd w1);
       destruct (db_faults w1) as [|[e2|] rest2]; simpl in *;
       inversion H; subst; rewrite f_em, f_tx, ?f_tb; congruence.
Qed.

(** Splitting a statement body along its tests. *)
Ltac split_run H :=
  repeat (simpl in H;
          match type of H with
          | context [match ?x with _ => _ end] => destruct x eqn:?
          end);
  simpl in H.

Ltac run_keeps :=
  let H := fresh "H" in
  intros ? ? ? H; unfold bindE, text_param, not_null in H;
  split_run H; inversion H; reflexivity.

(** One step of a proof that a handler keeps a component that no setter
    but its own touches. *)
Ltac keeps_step :=
  first
    [ apply keeps_ret
    | apply keeps_raise
    | apply keeps_lift
    | apply keeps_bind; [|intros ?]
    | apply keeps_try_except; [|intros ?]
    | apply keeps_except_ClientError; [|intros ?]
    | apply keeps_get_connection; [reflexivity|]
    | apply keeps_transaction; [reflexivity ..|]
    | apply keeps_statement; [reflexivity | reflexivity | run_keeps]
    | apply keeps_s3_call; [reflexivity | run_keeps]
    | apply keeps_logger; reflexivity
    | match goal with
      | |- keeps _ (match ?x with _ => _ end) => destruct x
      | |- keeps _ (if ?x then _ else _) => destruct x
      end ].

Lemma upload_pdf_keeps_seq did fn content :
  keeps docket_seq (upload_pdf did fn content).
Proof.
  unfold upload_pdf, ensure_bucket_exists, head_bucket, create_bucket, put_object.
  repeat keeps_step.
Qed.

Lemma insert_inventors_keeps_seq id invs :
  keeps docket_seq (insert_inventors id invs).
Proof.
  induction invs as [|inv invs IH]; simpl.
  - apply keeps_ret.
  - unfold insert_inventor. repeat first [exact IH | keeps_step].
Qed.

Lemma upload_transaction_keeps_seq extracted docket fn content :
  keeps docket_seq (upload_transaction extracted docket fn content).
Proof.
  unfold upload_transaction, insert_disclosure, attach_pdf, set_pdf_object_key,
    insert_status_history.
  repeat first [ apply upload_pdf_keeps_seq
               | apply insert_inventors_keeps_seq
               | keeps_step ].
Qed.

(* ===================================================================== *)
(** ** The docket sequence across the handlers *)
(* ===================================================================== *)

Lemma get_next_docket_number_seq w r w' :
  get_next_docket_number w = (r, w') ->
  ((exists e, r = Raise e) /\ docket_seq w' = docket_seq w)
  \/ ((exists s, r = Ok s) /\ docket_seq w' = (docket_seq w + 1)%Z).
Proof.
  unfold get_next_docket_number, get_connection, bind, nextval_docket_seq,
    statement, next_db_fault, ret, poison.
  intros H. crunch H; inversion H; subst; cbn; eauto.
Qed.

Lemma update_disclosure_keeps_seq id upd :
  keeps docket_seq (update_disclosure id upd).
Proof.
  unfold update_disclosure, select_status, update_finish, update_row,
    insert_status_history.
  repeat keeps_step.
Qed.

Lemma delete_pdf_keeps_seq key : keeps docket_seq (delete_pdf key).
Proof. unfold delete_pdf, delete_object. repeat keeps_step. Qed.

Lemma delete_disclosure_keeps_seq id : keeps docket_seq (delete_disclosure id).
Proof.
  unfold delete_disclosure, select_pdf_object_key, delete_row, cleanup_pdf.
  repeat first [apply delete_pdf_keeps_seq | keeps_step].
Qed.

Lemma get_disclosure_keeps_seq id : keeps docket_seq (get_disclosure id).
Proof.
  unfold get_disclosure, select_disclosure, select_inventors_of,
    select_history_of.
  repeat keeps_step.
Qed.

Lemma export_keeps_seq env search status :
  keeps docket_seq (export_disclosures_csv env search status).
Proof.
  unfold export_disclosures_csv, export_rows, select_disclosures,
    select_inventors.
  repeat keeps_step.
Qed.

Lemma download_keeps_seq id : keeps docket_seq (download_disclosure_pdf id).
Proof.
  unfold download_disclosure_pdf, select_disclosure, download_pdf, get_object.
  repeat keeps_step.
Qed.

(** X2: the docket sequence never rewinds and only an upload advances it.
    An upload leaves the sequence where it was or one further; an upload
    that returns has advanced it by one and stored the number formed from
    the new value; update, delete, get, export and download leave it
    alone, whatever their outcome. *)
Theorem sequence_never_rewinds (env : Env) :
  (forall file w,
     docket_seq (snd (upload_disclosure env file w)) = docket_seq w
     \/ docket_seq (snd (upload_disclosure env file w))
        = (docket_seq w + 1)%Z)
  /\ (forall file w resp w',
        upload_disclosure env file w = (Ok resp, w') ->
        docket_seq w' = (docket_seq w + 1)%Z
        /\ m_docket_number (w_disclosure (r_disclosure resp))
           = lit "IDF-" ++ format_04d (docket_seq w'))
  /\ (forall id upd, keeps docket_seq (update_disclosure id upd))
  /\ (forall id, keeps docket_seq (delete_disclosure id))
  /\ (forall id, keeps docket_seq (get_disclosure id))
  /\ (forall search status,
        keeps docket_seq (export_disclosures_csv env search status))
  /\ (forall id, keeps docket_seq (download_disclosure_pdf id)).
Proof.
  assert (Hup : forall file w r w',
            upload_disclosure env file w = (r, w') ->
            docket_seq w' = docket_seq w
            \/ (docket_seq w' = (docket_seq w + 1)%Z)).
  { intros file w r w' H. unfold upload_disclosure in H.
    destruct (filename file) as [[|c name]|]; try (inversion H; now left).
    destruct (negb _); try (inversion H; now left).
    destruct (file_read file) as [e0|content]; try (inversion H; now left).
    destruct (extract_text_from_pdf env content) as [e0|text].
    { destruct e0; inversion H; now left. }
    destruct (_ || _); try (inversion H; now left).
    destruct (extract_disclosure_info env text) as [e0|extracted];
      try (inversion H; now left).
    unfold bind in H.
    destruct (get_next_docket_number w) as [[docket|e] w1] eqn:Hd;
      apply get_next_docket_number_seq in Hd
        as [[[e1 He1] Hs]|[[s1 Hs1] Hs]]; try discriminate.
    2:{ inversion H; subst. now left. }
    destruct (get_connection _ w1) as [[d|e] w2] eqn:Ht;
      apply (keeps_get_connection docket_seq) in Ht;
      try reflexivity;
      try (apply keeps_transaction; try reflexivity;
           apply upload_transaction_keeps_seq).
    all: inversion H; subst; right; congruence. }
  split; [intros file w; destruct (upload_disclosure env file w) eqn:E;
          simpl; eapply Hup; eauto|].
  split.
  { intros file w resp w' H.
    pose proof (upload_disclosure_ok _ _ _ _ _ H)
      as (row & key & hist & items & _ & _ & Hwd & _ & _ & _ & Hdock & _).
    assert (Hs : docket_seq w' = (docket_seq w + 1)%Z).
    { destruct (Hup _ _ _ _ H) as [Hsame|Hnext]; [|assumption].
      exfalso.
      pose proof (upload_disclosure_ok _ _ _ _ _ H)
        as (row' & key' & hist' & items' & _ & _ & _ & _ & _ & _ & _ & _ & _
            & _ & _ & _ & _ & _ & Htr & _).
      clear Hdock Hwd.
      unfold upload_disclosure in H.
      destruct (filename file) as [[|c name]|]; try discriminate H.
      destruct (negb _); try discriminate H.
      destruct (file_read file) as [e0|content]; try discriminate H.
      destruct (extract_text_from_pdf env content) as [e0|text];
        [destruct e0; discriminate H|].
      destruct (_ || _); try discriminate H.
      destruct (extract_disclosure_info env text) as [e0|extracted];
        try discriminate H.
      apply bind_ok in H as (docket & w1 & Hd & H).
      apply bind_ok in H as (d & w2 & Ht & H).
      apply Ok_inj_pair in H as [_ <-].
      apply get_next_docket_number_seq in Hd as [[[e1 He1] _]|[_ Hs1]];
        [discriminate|].
      apply (keeps_get_connection docket_seq) in Ht; try reflexivity;
        [lia|].
      apply keeps_transaction; try reflexivity.
      apply upload_transaction_keeps_seq. }
    split; [assumption|]. rewrite Hwd, Hs. simpl. exact Hdock. }
  split; [apply update_disclosure_keeps_seq|].
  split; [apply delete_disclosure_keeps_seq|].
  split; [apply get_disclosure_keeps_seq|].
  split; [apply export_keeps_seq|apply download_keeps_seq].
Qed.

Lemma sequence_never_rewinds_witness :
  docket_seq (snd (upload_disclosure env0 finfet_file world0)) = 7%Z.
Proof.
  destruct (upload_disclosure env0 finfet_file world0) as [r w'] eqn:H.
  assert (Hr : exists resp, r = Ok resp).
  { assert (E : r = fst (upload_disclosure env0 finfet_file world0))
      by now rewrite H.
    rewrite E. vm_compute. eauto. }
  destruct Hr as [resp ->].
  exact (proj1 (proj1 (proj2 (sequence_never_rewinds env0))
                  finfet_file world0 resp w' H)).
Defined.

Example rolled_back_upload_uses_up_its_number :
  docket_seq (snd (upload_disclosure env0 finfet_file world_history_fails))
  = 7%Z
  /\ disclosures
       (tables (snd (upload_disclosure env0 finfet_file world_history_fails)))
     = [].
Proof. split; vm_compute; reflexivity. Qed.

(* ===================================================================== *)
(** ** Update: what a patch does to a row *)
(* ===================================================================== *)

Lemma assign_identity c v r : same_identity r (assign c v r).
Proof. unfold same_identity. destruct c; simpl; auto. Qed.

Lemma same_identity_trans a b c :
  same_identity a b -> same_identity b c -> same_identity a c.
Proof. unfold same_identity. intuition congruence. Qed.

Lemma same_identity_refl r : same_identity r r.
Proof. unfold same_identity. auto. Qed.

Lemma apply_set_identity U now r : same_identity r (apply_set U now r).
Proof.
  unfold apply_set.
  assert (H : forall r0, same_identity r0
                (fold_left (fun r cv => assign (fst cv) (snd cv) r) U r0)).
  { induction U as [|cv U IH]; intros r0; simpl.
    - apply same_identity_refl.
    - eapply same_identity_trans; [apply assign_identity|apply IH]. }
  eapply same_identity_trans; [apply H|].
  unfold same_identity. simpl. auto.
Qed.

Lemma apply_set_clause_fields upd now r :
  let r' := apply_set (set_clause upd) now r in
  d_title r' = patched (u_title upd) (d_title r)
  /\ d_description r' = patched (u_description upd) (d_description r)
  /\ d_key_differences r'
     = patched (u_key_differences upd) (d_key_differences r)
  /\ d_status r' = patched (u_status upd) (d_status r)
  /\ d_review_notes r'
     = match u_review_notes upd with
       | Some v => Some v
       | None => d_review_notes r
       end
  /\ d_updated_at r' = now.
Proof.
  destruct upd as [[t|] [d|] [k|] [s|] [n|]]; simpl; repeat split.
Qed.

Lemma find_updated id (g : DisclosureRow -> DisclosureRow) l :
  (forall r, d_id (g r) = d_id r) ->
  List.find (fun r => d_id r =? id)
    (List.map (fun r => if d_id r =? id then g r else r) l)
  = match List.find (fun r => d_id r =? id) l with
    | Some r => Some (g r)
    | None => None
    end.
Proof.
  intros Hg. induction l as [|r l IH]; simpl; [reflexivity|].
  destruct (d_id r =? id) eqn:E; simpl.
  - now rewrite Hg, E.
  - now rewrite E.
Qed.

Lemma update_finish_ok id upd U changed w d w' :
  update_finish id upd U changed w = (Ok d, w') ->
  exists r,
    List.find (fun r => d_id r =? id)
      (disclosures (updated_tables U id (clock w) (tables w))) = Some r
    /\ d = Disclosure_of_row r.
Proof.
  unfold update_finish. destruct U as [|u U]; [discriminate|].
  intros H. apply bind_ok in H as (row & w1 & Hrow & H).
  apply update_row_cases in Hrow as [(e & He & _)|(Hr & _)]; [discriminate|].
  apply Ok_inj in Hr.
  apply bind_ok in H as (x & w2 & _ & H).
  destruct row as [r|]; [|discriminate].
  apply Ok_inj_pair in H as [<- _]. exists r. auto.
Qed.

(** An update that returns has rewritten the stored row of the disclosure
    with the SET clause of the patch, and answers with that row. *)
Lemma update_disclosure_ok id upd w d w' :
  update_disclosure id upd w = (Ok d, w') ->
  exists row0,
    List.find (fun r => d_id r =? id) (disclosures (tables w)) = Some row0
    /\ d = Disclosure_of_row (apply_set (set_clause upd) (clock w) row0)
    /\ List.find (fun r => d_id r =? id) (disclosures (tables w'))
       = Some (apply_set (set_clause upd) (clock w) row0).
Proof.
  intros H.
  pose proof (update_disclosure_cases _ _ _ _ _ H)
    as [[_ [e He]]|(c & _ & _ & _ & Hdis & _)]; [discriminate|].
  assert (Hfind : exists r,
            List.find (fun r => d_id r =? id)
              (disclosures (updated_tables (set_clause upd) id (clock w) (tables w)))
            = Some r /\ d = Disclosure_of_row r).
  { unfold update_disclosure in H.
    apply get_connection_inv in H as (w2 & H & _).
    apply bind_ok in H as (cur & w1 & Hsel & H).
    apply select_status_cases in Hsel
      as [(e & He & _)|(_ & Ht & _ & Hc & _)]; [discriminate|].
    simpl in Ht, Hc. rewrite <- Ht, <- Hc.
    destruct cur as [cur|]; [|discriminate].
    destruct (u_status upd) as [s|] eqn:Hs.
    - destruct (negb (is_valid_status s)); [discriminate|].
      rewrite (set_clause_with_status upd s Hs) in H.
      now apply update_finish_ok in H.
    - rewrite (set_clause_without_status upd Hs) in H.
      now apply update_finish_ok in H. }
  destruct Hfind as (r & Hfind & ->).
  unfold updated_tables, map_disclosures in Hfind. simpl in Hfind.
  rewrite find_updated in Hfind
    by (intros r0; apply (apply_set_identity _ _ r0)).
  destruct (List.find _ (disclosures (tables w))) as [row0|] eqn:E;
    [|discriminate].
  apply Some_eq_inj in Hfind. subst r.
  exists row0. split; [reflexivity|]. split; [reflexivity|].
  rewrite Hdis. unfold updated_tables, map_disclosures. simpl.
  rewrite find_updated by (intros r0; apply (apply_set_identity _ _ r0)).
  now rewrite E.
Qed.

Lemma update_disclosure_keeps_s3 id upd : keeps s3 (update_disclosure id upd).
Proof.
  unfold update_disclosure, select_status, update_finish, update_row,
    insert_status_history.
  repeat keeps_step.
Qed.

(** X3: an update never changes the identity of a disclosure.  Whatever
    the patch and the outcome, every disclosure keeps its id, docket number,
    original file name, blob key and creation time; the disclosures with
    another id are not changed at all; the inventors and the bucket are as
    they were. *)
Theorem update_keeps_identity (id : N) (upd : DisclosureUpdate) (w : World) :
  let w' := snd (update_disclosure id upd w) in
  Forall2 (fun r r' => same_identity r r' /\ (d_id r <> id -> r' = r))
    (disclosures (tables w)) (disclosures (tables w'))
  /\ inventors (tables w') = inventors (tables w)
  /\ s3 w' = s3 w.
Proof.
  destruct (update_disclosure id upd w) as [r w'] eqn:H. simpl.
  pose proof (update_disclosure_keeps_s3 _ _ _ _ _ H) as Hs3.
  apply update_disclosure_cases in H
    as [[Ht _]|(c & _ & _ & _ & Hdis & Hinv & _)].
  - rewrite Ht. split; [|auto].
    apply Forall2_diag. intros x. split; [apply same_identity_refl|auto].
  - rewrite Hdis. split; [|auto]. simpl.
    apply Forall2_map_self. intros x.
    destruct (N.eqb_spec (d_id x) id) as [E|E].
    + split; [apply apply_set_identity|contradiction].
    + split; [apply same_identity_refl|auto].
Qed.

(** X4: the answer of a successful update is the stored row after the
    update: each column of the patch carries the value of the patch, each
    other column the value stored before, [updated_at] is the time of the
    update, and id, docket number, file name and creation time are the
    stored ones. *)
Theorem update_answers_with_the_patched_row (id : N) (upd : DisclosureUpdate)
    (w : World) (d : Disclosure) (w' : World) :
  update_disclosure id upd w = (Ok d, w') ->
  exists row0 row1,
    List.find (fun r => d_id r =? id) (disclosures (tables w)) = Some row0
    /\ List.find (fun r => d_id r =? id) (disclosures (tables w')) = Some row1
    /\ d = Disclosure_of_row row1
    /\ m_id d = id
    /\ m_title d = patched (u_title upd) (d_title row0)
    /\ m_description d = patched (u_description upd) (d_description row0)
    /\ m_key_differences d
       = patched (u_key_differences upd) (d_key_differences row0)
    /\ m_status d = patched (u_status upd) (d_status row0)
    /\ m_review_notes d
       = match u_review_notes upd with
         | Some v => Some v
         | None => d_review_notes row0
         end
    /\ m_updated_at d = clock w
    /\ m_docket_number d = d_docket_number row0
    /\ m_original_filename d = d_original_filename row0
    /\ m_created_at d = d_created_at row0.
Proof.
  intros H. apply update_disclosure_ok in H as (row0 & Hfind & -> & Hafter).
  exists row0, (apply_set (set_clause upd) (clock w) row0).
  pose proof (apply_set_clause_fields upd (clock w) row0)
    as (Ht & Hd & Hk & Hs & Hn & Hu).
  pose proof (apply_set_identity (set_clause upd) (clock w) row0)
    as (Hid & Hdock & Hfn & _ & Hc).
  apply find_some in Hfind as Hid0. destruct Hid0 as [_ Hid0].
  apply N.eqb_eq in Hid0.
  remember (apply_set (set_clause upd) (clock w) row0) as row1 eqn:E.
  clear E. simpl. repeat split; auto; congruence.
Qed.

Lemma update_answers_with_the_patched_row_witness :
  exists d, fst (update_disclosure 1 approve_patch world1) = Ok d
            /\ m_status d = lit "approved"
            /\ m_title d = lit "Test Invention".
Proof.
  destruct (update_disclosure 1 approve_patch world1) as [r w'] eqn:H.
  assert (Hr : exists d, r = Ok d).
  { assert (E : r = fst (update_disclosure 1 approve_patch world1))
      by now rewrite H.
    rewrite E. vm_compute. eauto. }
  destruct Hr as [d ->]. exists d. split; [reflexivity|].
  destruct (update_answers_with_the_patched_row 1 approve_patch world1 d w' H)
    as (row0 & row1 & Hf & _ & _ & _ & Ht & _ & _ & Hs & _).
  vm_compute in Hf. apply Some_eq_inj in Hf. subst row0.
  split; [exact Hs|exact Ht].
Defined.

(** X5: sending the same patch again appends nothing to the history:
    after an update that returned, the stored status is the one of the
    patch, so the second update finds no change, whatever its outcome. *)
Theorem repeated_update_appends_nothing (id : N) (upd : DisclosureUpdate)
    (w : World) (d : Disclosure) (w' : World) :
  update_disclosure id upd w = (Ok d, w') ->
  status_history (tables (snd (update_disclosure id upd w')))
  = status_history (tables w').
Proof.
  intros H. apply update_disclosure_ok in H as (row0 & _ & _ & Hafter).
  destruct (update_disclosure id upd w') as [r2 w2] eqn:H2. simpl.
  apply update_disclosure_cases in H2
    as [[Ht _]|(c & Hc & _ & _ & _ & _ & [[Hsame _]|(s & Hs & Hne & _)])].
  - now rewrite Ht.
  - exact Hsame.
  - exfalso. apply Hne.
    unfold stored_status in Hc. rewrite Hafter in Hc. simpl in Hc.
    apply Some_eq_inj in Hc. rewrite <- Hc.
    pose proof (apply_set_clause_fields upd (clock w) row0)
      as (_ & _ & _ & Hst & _).
    simpl in Hst. rewrite Hst, Hs. reflexivity.
Qed.

Lemma repeated_update_appends_nothing_witness :
  let w' := snd (update_disclosure 1 approve_patch world1) in
  status_history (tables (snd (update_disclosure 1 approve_patch w')))
  = status_history (tables w').
Proof.
  destruct (update_disclosure 1 approve_patch world1) as [r w'] eqn:H.
  assert (Hr : exists d, r = Ok d).
  { assert (E : r = fst (update_disclosure 1 approve_patch world1))
      by now rewrite H.
    rewrite E. vm_compute. eauto. }
  destruct Hr as [d ->]. simpl.
  exact (repeated_update_appends_nothing 1 approve_patch world1 d w' H).
Defined.

(* ===================================================================== *)
(** ** Routes by id: unknown ids *)
(* ===================================================================== *)

Lemma statement_run {A} (run : World -> exn + (A * World)) w :
  tx w <> Failed -> hd None (db_faults w) = None ->
  statement run w
  = match run (snd (next_db_fault w)) with
    | inl e => (Raise e, poison (snd (next_db_fault w)))
    | inr (a, w2) => (Ok a, w2)
    end.
Proof.
  intros Htx Hf. unfold statement, next_db_fault.
  destruct (db_faults w) as [|[e|] rest]; simpl in *; try discriminate;
    destruct (tx w); try contradiction; reflexivity.
Qed.

Lemma next_db_fault_idle w :
  tables (snd (next_db_fault (set_tx Idle w))) = tables w
  /\ s3 (snd (next_db_fault (set_tx Idle w))) = s3 w.
Proof.
  pose proof (next_db_fault_frame (set_tx Idle w)) as F. simpl in F. tauto.
Qed.

(** X6: on every route that names a disclosure by its id, an id that is
    not stored is answered with 404 "Disclosure not found" before anything
    else is looked at: an update is refused whatever its patch (also an
    empty or an invalid one), and neither update nor delete has changed a
    table or the bucket. *)
Theorem unknown_id_is_not_found (id : N) (w : World) :
  hd None (db_faults w) = None ->
  List.find (fun r => d_id r =? id) (disclosures (tables w)) = None ->
  (forall upd,
     fst (update_disclosure id upd w)
     = Raise (HTTPException 404 (lit "Disclosure not found"))
     /\ tables (snd (update_disclosure id upd w)) = tables w
     /\ s3 (snd (update_disclosure id upd w)) = s3 w)
  /\ fst (get_disclosure id w)
     = Raise (HTTPException 404 (lit "Disclosure not found"))
  /\ fst (delete_disclosure id w)
     = Raise (HTTPException 404 (lit "Disclosure not found"))
  /\ tables (snd (delete_disclosure id w)) = tables w
  /\ s3 (snd (delete_disclosure id w)) = s3 w
  /\ fst (download_disclosure_pdf id w)
     = Raise (HTTPException 404 (lit "Disclosure not found")).
Proof.
  intros Hf Hnone.
  destruct (next_db_fault_idle w) as [Ht Hs].
  assert (Htx : tx (set_tx Idle w) <> Failed) by discriminate.
  assert (Hf' : hd None (db_faults (set_tx Idle w)) = None) by exact Hf.
  split; [intros upd|]; repeat split.
  - unfold update_disclosure, get_connection, bind, select_status.
    rewrite (statement_run _ _ Htx Hf'), Ht. unfold stored_status.
    rewrite Hnone. reflexivity.
  - unfold update_disclosure, get_connection, bind, select_status.
    rewrite (statement_run _ _ Htx Hf'), Ht. unfold stored_status.
    rewrite Hnone. simpl. exact Ht.
  - destruct (update_disclosure id upd w) as [r w'] eqn:E. simpl.
    exact (update_disclosure_keeps_s3 id upd _ _ _ E).
  - unfold get_disclosure, get_connection, bind, select_disclosure.
    rewrite (statement_run _ _ Htx Hf'), Ht, Hnone. reflexivity.
  - unfold delete_disclosure, get_connection, bind, select_pdf_object_key.
    rewrite (statement_run _ _ Htx Hf'), Ht, Hnone. reflexivity.
  - unfold delete_disclosure, get_connection, bind, select_pdf_object_key.
    rewrite (statement_run _ _ Htx Hf'), Ht, Hnone. simpl. exact Ht.
  - unfold delete_disclosure, get_connection, bind, select_pdf_object_key.
    rewrite (statement_run _ _ Htx Hf'), Ht, Hnone. simpl. exact Hs.
  - unfold download_disclosure_pdf, get_connection, bind, select_disclosure.
    rewrite (statement_run _ _ Htx Hf'), Ht, Hnone. reflexivity.
Qed.

Lemma unknown_id_is_not_found_witness :
  fst (delete_disclosure 9 world1)
  = Raise (HTTPException 404 (lit "Disclosure not found"))
  /\ tables (snd (delete_disclosure 9 world1)) = tables world1
  /\ fst (update_disclosure 9 bogus_patch world1)
     = Raise (HTTPException 404 (lit "Disclosure not found"))
  /\ s3 (snd (update_disclosure 9 bogus_patch world1)) = s3 world1.
Proof.
  destruct (unknown_id_is_not_found 9 world1 eq_refl eq_refl)
    as (Hupd & _ & H1 & H2 & _).
  destruct (Hupd bogus_patch) as (H3 & _ & H4).
  split; [exact H1|]. split; [exact H2|]. split; [exact H3|exact H4].
Defined.

(* ===================================================================== *)
(** ** Blob store: put, get, delete *)
(* ===================================================================== *)

Lemma upload_pdf_objects did fn content w key w1 :
  upload_pdf did fn content w = (Ok key, w1) ->
  key = lit "disclosures/" ++ did ++ lit "/" ++ fn
  /\ s3 w1 = Some (<[key := content]> (objects w)).
Proof.
  unfold upload_pdf, ensure_bucket_exists, except_ClientError, try_except, bind,
    head_bucket, create_bucket, put_object, s3_call, next_s3_fault, logger,
    modify, raise, ret, objects.
  intros H. crunch H; inversion H; subst; cbn;
    repeat match goal with
           | E : Some _ = Some _ |- _ => apply Some_eq_inj in E; subst
           | E : s3 _ = _ |- _ => rewrite E
           end;
    split; reflexivity.
Qed.

Lemma download_pdf_run key w objs body :
  hd None (s3_faults w) = None -> s3 w = Some objs -> objs !! key = Some body ->
  fst (download_pdf key w) = Ok body.
Proof.
  intros Hf Hs Hk.
  unfold download_pdf, except_ClientError, try_except, get_object, s3_call,
    next_s3_fault.
  destruct (s3_faults w) as [|[e|] rest]; simpl in *; try discriminate;
    now rewrite Hs, Hk.
Qed.

(** X7: what [upload_pdf] has stored, [download_pdf] gives back.  When
    [upload_pdf] returns, its key is [disclosures/<id>/<filename>], the
    bucket holds the content under that key and every other object as
    before, and the next [download_pdf] of the key, if the store answers,
    returns the same bytes. *)
Theorem uploaded_pdf_is_downloadable (did fn : list N) (content : list byte)
    (w : World) (key : list N) (w1 : World) :
  upload_pdf did fn content w = (Ok key, w1) ->
  key = lit "disclosures/" ++ did ++ lit "/" ++ fn
  /\ objects w1 !! key = Some content
  /\ (forall k, k <> key -> objects w1 !! k = objects w !! k)
  /\ (hd None (s3_faults w1) = None -> fst (download_pdf key w1) = Ok content).
Proof.
  intros H. apply upload_pdf_objects in H as [Hk Hs].
  split; [exact Hk|]. unfold objects at 1 2. rewrite Hs.
  split; [apply lookup_insert_eq|].
  split; [intros k Hne; now apply lookup_insert_ne|].
  intros Hf. eapply download_pdf_run; eauto. apply lookup_insert_eq.
Qed.

Lemma uploaded_pdf_is_downloadable_witness :
  exists key w1,
    upload_pdf (uuid_str 1) (lit "FinFET.pdf") [x25; x50] world_no_bucket
    = (Ok key, w1)
    /\ fst (download_pdf key w1) = Ok [x25; x50].
Proof.
  destruct (upload_pdf (uuid_str 1) (lit "FinFET.pdf") [x25; x50]
              world_no_bucket) as [r w1] eqn:H.
  assert (Hr : exists key, r = Ok key).
  { assert (E : r = fst (upload_pdf (uuid_str 1) (lit "FinFET.pdf") [x25; x50]
                           world_no_bucket)) by now rewrite H.
    rewrite E. vm_compute. eauto. }
  destruct Hr as [key ->]. exists key, w1. split; [reflexivity|].
  destruct (uploaded_pdf_is_downloadable _ _ _ _ _ _ H) as (_ & _ & _ & Hd).
  apply Hd.
  assert (E : w1 = snd (upload_pdf (uuid_str 1) (lit "FinFET.pdf") [x25; x50]
                          world_no_bucket)) by now rewrite H.
  rewrite E. vm_compute. reflexivity.
Defined.

Lemma delete_pdf_cases key w r w' :
  delete_pdf key w = (r, w') ->
  db_same w w' /\ trace w' = trace w
  /\ ((r = Ok tt /\ (objects w' = objects w
                    \/ objects w' = delete key (objects w)))
      \/ (exists e, r = Raise e /\ (forall m, e <> ClientError m)
                    /\ objects w' = objects w)).
Proof.
  unfold delete_pdf, except_ClientError, try_except, bind, delete_object,
    s3_call, next_s3_fault, logger, modify, raise, ret, db_same, objects.
  intros H. crunch H; inversion H; subst; cbn;
    repeat match goal with
           | E : Some _ = Some _ |- _ => apply Some_eq_inj in E; subst
           | E : s3 _ = _ |- _ => rewrite E
           end;
    (split; [repeat split|split; [reflexivity|]]);
    first [ left; split; [reflexivity|]; first [left; reflexivity | right; reflexivity]
          | right; eexists; split; [reflexivity|]; split;
            [intros ? ?; discriminate | reflexivity] ].
Qed.

(* ===================================================================== *)
(** ** Delete *)
(* ===================================================================== *)

Lemma cleanup_pdf_cases key w r w' :
  cleanup_pdf key w = (r, w') ->
  r = Ok tt /\ tables w' = tables w
  /\ (objects w' = objects w
      \/ exists k, key = Some k /\ k <> []
                   /\ objects w' = delete k (objects w)).
Proof.
  unfold cleanup_pdf. destruct key as [[|c k]|].
  1,3: intros H; inversion H; subst; auto.
  unfold try_except, logger, modify. intros H.
  destruct (delete_pdf (c :: k) w) as [[[]|e] w1] eqn:Hd;
    apply delete_pdf_cases in Hd
      as ((Ht & _) & _ & [(Hr & Ho)|(e0 & Hr & _ & Ho)]);
    try discriminate; inversion H; subst; simpl.
  - split; [reflexivity|]. split; [assumption|].
    destruct Ho as [Ho|Ho]; [now left|].
    right. exists (c :: k). split; [reflexivity|]. split; [discriminate|].
    exact Ho.
  - split; [reflexivity|]. split; [assumption|]. left. exact Ho.
Qed.

Lemma get_disclosure_unknown id w :
  hd None (db_faults w) = None ->
  List.find (fun r => d_id r =? id) (disclosures (tables w)) = None ->
  fst (get_disclosure id w)
  = Raise (HTTPException 404 (lit "Disclosure not found")).
Proof.
  intros Hf Hnone. destruct (next_db_fault_idle w) as [Ht _].
  unfold get_disclosure, get_connection, bind, select_disclosure.
  rewrite statement_run by (try discriminate; exact Hf).
  now rewrite Ht, Hnone.
Qed.

Lemma find_without id l :
  List.find (fun r => d_id r =? id)
    (List.filter (fun r => negb (d_id r =? id)) l) = None.
Proof.
  induction l as [|r l IH]; simpl; [reflexivity|].
  destruct (d_id r =? id) eqn:E; simpl; [assumption|]. now rewrite E.
Qed.

Lemma delete_disclosure_cases id w r w' :
  delete_disclosure id w = (r, w') ->
  ((exists e, r = Raise e) /\ tables w' = tables w /\ objects w' = objects w)
  \/ (r = Ok (lit "Disclosure deleted successfully")
      /\ exists row,
           List.find (fun r => d_id r =? id) (disclosures (tables w)) = Some row
           /\ tables w' = without_disclosure id (tables w)
           /\ (objects w' = objects w
               \/ exists k, d_pdf_object_key row = Some k /\ k <> []
                            /\ objects w' = delete k (objects w))).
Proof.
  unfold delete_disclosure. intros H. unfold bind at 1 in H.
  destruct (get_connection _ w) as [[[]|e] w1] eqn:Hc.
  2:{ inversion H; subst. left. split; [eauto|].
      apply get_connection_inv in Hc as (w2 & Hc & ->). simpl.
      unfold objects. simpl.
      apply bind_raise in Hc as [Hc|(row & w3 & Hsel & Hc)].
      { apply statement_raise in Hc as (Ht & _ & _ & Hs & _).
        simpl in *. now rewrite Ht, Hs. }
      apply statement_ok in Hsel as [_ Hsel].
      destruct (next_db_fault_idle w) as [Ft Fs].
      assert (w3 = snd (next_db_fault (set_tx Idle w))) as ->
        by now inversion Hsel.
      destruct row as [key|]; [|inversion Hc; subst; now rewrite Ft, Fs].
      apply bind_raise in Hc as [Hc|([] & w4 & _ & Hc)].
      - apply statement_raise in Hc as (Ht & _ & _ & Hs & _).
        now rewrite Ht, Hs, Ft, Fs.
      - apply cleanup_pdf_cases in Hc as [Hc _]. discriminate Hc. }
  inversion H; subst. right. split; [reflexivity|].
  apply get_connection_inv in Hc as (w2 & Hc & ->).
  apply bind_ok in Hc as (row & w3 & Hsel & Hc).
  apply statement_ok in Hsel as [_ Hsel].
  destruct (next_db_fault_idle w) as [Ft Fs].
  assert (Hw3 : w3 = snd (next_db_fault (set_tx Idle w)))
    by now inversion Hsel.
  assert (Hrow : row = d_pdf_object_key
                         <$> List.find (fun r => d_id r =? id)
                               (disclosures (tables w))).
  { rewrite <- Ft. now inversion Hsel. }
  destruct (List.find _ (disclosures (tables w))) as [r0|] eqn:Hfind;
    simpl in Hrow; subst row; [|discriminate].
  exists r0. split; [reflexivity|].
  apply bind_ok in Hc as ([] & w4 & Hdel & Hc).
  apply statement_ok in Hdel as [_ Hdel].
  pose proof (next_db_fault_frame w3) as G. simpl in G.
  destruct G as (Gt & _ & _ & _ & Gs & _).
  assert (Hw4 : tables w4 = without_disclosure id (tables w)
                /\ s3 w4 = s3 w).
  { inversion Hdel; subst w4. simpl. rewrite Gt, Gs. subst w3.
    now rewrite Ft, Fs. }
  destruct Hw4 as [Ht4 Hs4].
  apply cleanup_pdf_cases in Hc as (_ & Ht & Ho).
  simpl. rewrite Ht, Ht4. split; [reflexivity|].
  assert (Hobj : objects w4 = objects w) by (unfold objects; now rewrite Hs4).
  assert (Hobj2 : objects (set_tx Idle w2) = objects w2) by reflexivity.
  rewrite Hobj2, <- Hobj. exact Ho.
Qed.

(** X8: a delete is all or nothing on the tables, and the blob store
    cannot make it fail.  When [delete_disclosure] raises, no table and no
    object has changed.  When it returns, the disclosure is gone together
    with its inventors and its history, every row of another disclosure is
    as it was, and the bucket is either unchanged or has lost exactly the
    object under the key of the disclosure; a [get] that follows is
    answered with 404.  With a working database the delete of a stored
    disclosure returns whatever the blob store does. *)
Theorem delete_removes_the_disclosure (id : N) (w : World) :
  (forall e w',
     delete_disclosure id w = (Raise e, w') ->
     tables w' = tables w /\ objects w' = objects w)
  /\ (forall msg w',
        delete_disclosure id w = (Ok msg, w') ->
        msg = lit "Disclosure deleted successfully"
        /\ tables w' = without_disclosure id (tables w)
        /\ has_disclosure id (tables w') = false
        /\ Forall (fun i => i_disclosure_id i <> id) (inventors (tables w'))
        /\ Forall (fun h => h_disclosure_id h <> id)
             (status_history (tables w'))
        /\ (objects w' = objects w
            \/ exists row k,
                 List.find (fun r => d_id r =? id) (disclosures (tables w))
                 = Some row
                 /\ d_pdf_object_key row = Some k
                 /\ objects w' = delete k (objects w))
        /\ (hd None (db_faults w') = None ->
            fst (get_disclosure id w')
            = Raise (HTTPException 404 (lit "Disclosure not found"))))
  /\ (db_faults w = [] ->
      has_disclosure id (tables w) = true ->
      fst (delete_disclosure id w)
      = Ok (lit "Disclosure deleted successfully")).
Proof.
  split; [|split].
  - intros e w' H.
    apply delete_disclosure_cases in H as [(_ & Ht & Ho)|(Hr & _)];
      [auto|discriminate].
  - intros msg w' H.
    apply delete_disclosure_cases in H
      as [([e He] & _)|(Hr & row & Hfind & Ht & Ho)]; [discriminate|].
    apply Ok_inj in Hr. split; [assumption|]. split; [assumption|].
    assert (Hnone : List.find (fun r => d_id r =? id) (disclosures (tables w'))
                    = None).
    { rewrite Ht. simpl. apply find_without. }
    split.
    { unfold has_disclosure.
      destruct (existsb _ _) eqn:E; [|reflexivity].
      apply existsb_exists in E as (x & Hin & Hx).
      eapply find_none in Hnone; [|exact Hin]. simpl in Hnone. congruence. }
    split.
    { rewrite Ht. simpl. apply List.Forall_forall. intros i Hin.
      apply filter_In in Hin as [_ Hi].
      apply negb_true_iff, N.eqb_neq in Hi. exact Hi. }
    split.
    { rewrite Ht. simpl. apply List.Forall_forall. intros h Hin.
      apply filter_In in Hin as [_ Hi].
      apply negb_true_iff, N.eqb_neq in Hi. exact Hi. }
    split.
    { destruct Ho as [Ho|(k & Hk & _ & Ho)]; [now left|].
      right. exists row, k. auto. }
    intros Hf. now apply get_disclosure_unknown.
  - intros Hf Hhas.
    destruct (delete_disclosure id w) as [r w'] eqn:H. simpl.
    pose proof H as H0.
    apply delete_disclosure_cases in H
      as [([e He] & _)|(Hr & _)]; [|assumption].
    exfalso. subst r. clear - H0 Hf Hhas.
    unfold delete_disclosure in H0.
    apply bind_raise in H0 as [H0|(x & w1 & _ & H0)]; [|discriminate H0].
    apply get_connection_inv in H0 as (w2 & H0 & _).
    unfold bind, select_pdf_object_key in H0.
    rewrite statement_run in H0 by (simpl; try discriminate; now rewrite Hf).
    destruct (next_db_fault_idle w) as [Ft _]. rewrite Ft in H0.
    unfold has_disclosure in Hhas.
    destruct (List.find _ (disclosures (tables w))) as [r0|] eqn:Hfind.
    2:{ apply existsb_exists in Hhas as (x & Hin & Hx).
        eapply find_none in Hfind; [|exact Hin]. simpl in Hfind. congruence. }
    simpl in H0. unfold delete_row in H0.
    rewrite statement_run in H0.
    + simpl in H0.
      match type of H0 with
      | context [cleanup_pdf ?k ?w0] =>
          destruct (cleanup_pdf k w0) as [rc wc] eqn:Hc
      end.
      apply cleanup_pdf_cases in Hc as [-> _]. discriminate H0.
    + unfold next_db_fault. simpl. rewrite Hf. discriminate.
    + unfold next_db_fault. simpl. rewrite Hf. simpl. now rewrite Hf.
Qed.

Lemma delete_removes_the_disclosure_witness :
  fst (delete_disclosure 1 world1)
  = Ok (lit "Disclosure deleted successfully").
Proof.
  exact (proj2 (proj2 (delete_removes_the_disclosure 1 world1))
           eq_refl eq_refl).
Defined.

(* ===================================================================== *)
(** ** Invariants of the tables *)
(* ===================================================================== *)

Lemma upload_disclosure_tables env file w r w' :
  upload_disclosure env file w = (r, w') ->
  tables w' = tables w
  \/ exists row hist invs,
       d_id row = fresh w /\ d_status row = default_status
       /\ h_status hist = default_status /\ h_disclosure_id hist = fresh w
       /\ Forall (fun i => i_disclosure_id i = fresh w) invs
       /\ disclosures (tables w') = disclosures (tables w) ++ [row]
       /\ inventors (tables w') = inventors (tables w) ++ invs
       /\ status_history (tables w') = status_history (tables w) ++ [hist].
Proof.
  intros H. destruct r as [resp|e].
  2:{ left. eapply upload_disclosure_raise; eauto. }
  right. apply upload_disclosure_ok in H
    as (row & key & hist & items & _ & HF & _ & _ & Hid & Hst & _ & _ & _
        & Hhs & Hhd & Hdis & Hinv & Hhis & _).
  exists (with_pdf_object_key key row), hist, (w_inventors (r_disclosure resp)).
  simpl. repeat split; try assumption; try congruence.
  clear - HF Hid. induction HF as [|x y l l' Hxy HF IH]; constructor; auto.
  destruct Hxy as [Hxy _]. congruence.
Qed.

Lemma has_disclosure_find id t :
  has_disclosure id t = true
  <-> exists r, List.find (fun r => d_id r =? id) (disclosures t) = Some r.
Proof.
  unfold has_disclosure. split.
  - intros H. apply existsb_exists in H as (x & Hin & Hx).
    destruct (List.find _ (disclosures t)) as [r|] eqn:E; [eauto|].
    eapply find_none in E; [|exact Hin]. simpl in E. congruence.
  - intros [r H]. apply find_some in H as [Hin Hr].
    apply existsb_exists. eauto.
Qed.

Lemma has_disclosure_updated U id now t i :
  has_disclosure i (updated_tables U id now t) = has_disclosure i t.
Proof.
  unfold has_disclosure, updated_tables, map_disclosures. simpl.
  induction (disclosures t) as [|r l IH]; simpl; [reflexivity|].
  rewrite IH. f_equal.
  destruct (d_id r =? id); [|reflexivity].
  now destruct (apply_set_identity U now r) as [-> _].
Qed.

Lemma has_disclosure_without id t i :
  i <> id ->
  has_disclosure i (without_disclosure id t) = has_disclosure i t.
Proof.
  intros Hne. unfold has_disclosure, without_disclosure. simpl.
  induction (disclosures t) as [|r l IH]; simpl; [reflexivity|].
  destruct (d_id r =? id) eqn:E; simpl; rewrite IH; [|reflexivity].
  apply N.eqb_eq in E. rewrite E.
  apply N.eqb_neq in Hne. rewrite N.eqb_sym, Hne. reflexivity.
Qed.

Lemma default_status_valid : In default_status valid_statuses.
Proof. left. reflexivity. Qed.

(** X9: no request stores a status outside the four.  When every status
    in the disclosures and in the history is one of [pending], [reviewed],
    [approved], [rejected], it still is after an upload, an update or a
    delete, whatever the request holds and however it ends. *)
Theorem stored_statuses_stay_valid (env : Env) (w : World) :
  statuses_valid (tables w) ->
  (forall file, statuses_valid (tables (snd (upload_disclosure env file w))))
  /\ (forall id upd,
        statuses_valid (tables (snd (update_disclosure id upd w))))
  /\ (forall id, statuses_valid (tables (snd (delete_disclosure id w)))).
Proof.
  intros [Hd Hh]. split; [|split].
  - intros file.
    destruct (upload_disclosure env file w) as [r w'] eqn:H. simpl.
    apply upload_disclosure_tables in H
      as [->|(row & hist & invs & _ & Hst & Hhs & _ & _ & Hdis & _ & Hhis)];
      [now split|].
    unfold statuses_valid. rewrite Hdis, Hhis. split.
    + apply List.Forall_app. split; [assumption|].
      constructor; [|constructor]. rewrite Hst. apply default_status_valid.
    + apply List.Forall_app. split; [assumption|].
      constructor; [|constructor]. rewrite Hhs. apply default_status_valid.
  - intros id upd.
    destruct (update_disclosure id upd w) as [r w'] eqn:H. simpl.
    apply update_disclosure_cases in H
      as [[-> _]|(c & _ & Hvalid & _ & Hdis & _ & Hhis)]; [now split|].
    unfold statuses_valid. rewrite Hdis. split.
    + unfold updated_tables, map_disclosures. simpl.
      apply List.Forall_map.
      eapply List.Forall_impl; [|exact Hd]. intros r0 Hr0. simpl.
      destruct (d_id r0 =? id); [|assumption].
      destruct (apply_set_clause_fields upd (clock w) r0)
        as (_ & _ & _ & -> & _).
      destruct (u_status upd) as [s|]; unfold patched;
        [apply Hvalid; reflexivity|assumption].
    + destruct Hhis as [[-> _]|(s & Hs & _ & ->)]; [assumption|].
      apply List.Forall_app. split; [assumption|].
      constructor; [|constructor]. cbn [h_status]. apply Hvalid, Hs.
  - intros id.
    destruct (delete_disclosure id w) as [r w'] eqn:H. simpl.
    apply delete_disclosure_cases in H
      as [(_ & -> & _)|(_ & row & _ & -> & _)]; [now split|].
    split; simpl.
    + apply List.Forall_forall. intros x Hx. apply filter_In in Hx as [Hx _].
      eapply List.Forall_forall in Hd; eauto. exact Hd.
    + apply List.Forall_forall. intros x Hx. apply filter_In in Hx as [Hx _].
      eapply List.Forall_forall in Hh; eauto. exact Hh.
Qed.

Lemma stored_statuses_stay_valid_witness :
  statuses_valid (tables world1)
  /\ statuses_valid
       (tables (snd (update_disclosure 1
                       {| u_title := None; u_description := None;
                          u_key_differences := None;
                          u_status := Some (lit "approved");
                          u_review_notes := None |} world1))).
Proof.
  assert (H : statuses_valid (tables world1)).
  { split; repeat constructor; vm_compute; tauto. }
  split; [exact H|].
  apply (stored_statuses_stay_valid env0 world1 H).
Defined.

(** X10: no request leaves a row without its disclosure.  When every
    inventor row and every history row belongs to a stored disclosure, it
    still does after an upload, an update or a delete, whatever the request
    holds and however it ends. *)
Theorem rows_keep_their_disclosure (env : Env) (w : World) :
  referential_integrity (tables w) ->
  (forall file,
     referential_integrity (tables (snd (upload_disclosure env file w))))
  /\ (forall id upd,
        referential_integrity (tables (snd (update_disclosure id upd w))))
  /\ (forall id,
        referential_integrity (tables (snd (delete_disclosure id w)))).
Proof.
  intros [Hi Hh]. split; [|split].
  - intros file.
    destruct (upload_disclosure env file w) as [r w'] eqn:H. simpl.
    apply upload_disclosure_tables in H
      as [->|(row & hist & invs & Hid & _ & _ & Hhd & Hinvs & Hdis & Hinv
              & Hhis)]; [now split|].
    assert (Hold : forall i, has_disclosure i (tables w) = true ->
                             has_disclosure i (tables w') = true).
    { intros i. unfold has_disclosure. rewrite Hdis, existsb_app.
      intros ->. reflexivity. }
    assert (Hnew : has_disclosure (fresh w) (tables w') = true).
    { unfold has_disclosure. rewrite Hdis, existsb_app. simpl.
      rewrite Hid, N.eqb_refl. now rewrite orb_true_r. }
    unfold referential_integrity. rewrite Hinv, Hhis. split.
    + apply List.Forall_app. split.
      * eapply List.Forall_impl; [|exact Hi]. intros a. apply Hold.
      * eapply List.Forall_impl; [|exact Hinvs]. intros a ->. exact Hnew.
    + apply List.Forall_app. split.
      * eapply List.Forall_impl; [|exact Hh]. intros a. apply Hold.
      * constructor; [|constructor]. now rewrite Hhd.
  - intros id upd.
    destruct (update_disclosure id upd w) as [r w'] eqn:H. simpl.
    apply update_disclosure_cases in H
      as [[-> _]|(c & Hc & _ & _ & Hdis & Hinv & Hhis)]; [now split|].
    assert (Hsame : forall i, has_disclosure i (tables w')
                              = has_disclosure i (tables w)).
    { intros i.
      rewrite <- (has_disclosure_updated (set_clause upd) id (clock w)
                    (tables w) i).
      unfold has_disclosure. now rewrite Hdis. }
    unfold referential_integrity. rewrite Hinv. split.
    + eapply List.Forall_impl; [|exact Hi]. intros a. now rewrite Hsame.
    + assert (Hold : Forall (fun h => has_disclosure (h_disclosure_id h)
                                        (tables w') = true)
                       (status_history (tables w))).
      { eapply List.Forall_impl; [|exact Hh]. intros a. now rewrite Hsame. }
      destruct Hhis as [[-> _]|(s & _ & _ & ->)]; [assumption|].
      apply List.Forall_app. split; [assumption|].
      constructor; [|constructor]. simpl. rewrite Hsame.
      apply has_disclosure_find. unfold stored_status in Hc.
      destruct (List.find _ (disclosures (tables w))) as [r0|]; [eauto|].
      discriminate Hc.
  - intros id.
    destruct (delete_disclosure id w) as [r w'] eqn:H. simpl.
    apply delete_disclosure_cases in H
      as [(_ & -> & _)|(_ & row & _ & -> & _)]; [now split|].
    split; simpl.
    + apply List.Forall_forall. intros x Hx. apply filter_In in Hx as [Hx Hne].
      apply negb_true_iff, N.eqb_neq in Hne.
      rewrite has_disclosure_without by assumption.
      eapply List.Forall_forall in Hi; eauto.
    + apply List.Forall_forall. intros x Hx. apply filter_In in Hx as [Hx Hne].
      apply negb_true_iff, N.eqb_neq in Hne.
      rewrite has_disclosure_without by assumption.
      eapply List.Forall_forall in Hh; eauto.
Qed.

Lemma rows_keep_their_disclosure_witness :
  referential_integrity (tables world1)
  /\ referential_integrity (tables (snd (delete_disclosure 1 world1))).
Proof.
  assert (H : referential_integrity (tables world1)).
  { split; repeat constructor. }
  split; [exact H|].
  apply (rows_keep_their_disclosure env0 world1 H).
Defined.

(* ===================================================================== *)
(** ** The extractor *)
(* ===================================================================== *)

Lemma check_required_dict m f :
  check_required (JDict m) f
  = if match m !! f with Some v => negb (truthy v) | None => true end
    then inl (ValueError (lit "Missing required field: " ++ f))
    else inr tt.
Proof.
  unfold check_required, py_contains, py_getitem, bindE.
  destruct (m !! f) as [v|] eqn:E.
  - rewrite bool_decide_eq_true_2 by eauto. simpl.
    now destruct (truthy v).
  - rewrite bool_decide_eq_false_2 by (intros [x Hx]; discriminate).
    reflexivity.
Qed.

Lemma check_all_required_dict m fields :
  check_all_required (JDict m) fields
  = match List.find (fun f => match m !! f with
                              | Some v => negb (truthy v)
                              | None => true
                              end) fields with
    | Some f => inl (ValueError (lit "Missing required field: " ++ f))
    | None => inr tt
    end.
Proof.
  induction fields as [|f rest IH]; simpl; [reflexivity|].
  rewrite check_required_dict.
  destruct (match m !! f with Some v => negb (truthy v) | None => true end);
    simpl; [reflexivity|exact IH].
Qed.

Lemma check_required_not_an_object data f :
  (forall m, data <> JDict m) -> exists e, check_required data f = inl e.
Proof.
  intros Hd. unfold check_required, py_contains, py_getitem, bindE.
  destruct data as [|b|z|fl|s|l|m]; try (eexists; reflexivity).
  - destruct (negb _); eexists; reflexivity.
  - destruct (negb _); eexists; reflexivity.
  - now destruct (Hd m).
Qed.

Lemma join_items_nonempty env i items :
  join [10] (List.map (format_item env) (i :: items)) <> [].
Proof.
  simpl. unfold format_item at 1, item_marker.
  destruct (List.map _ items); simpl; discriminate.
Qed.

Lemma normalize_field_dict env m f v :
  m !! f = Some v -> truthy v = true ->
  exists v',
    normalize_field env (JDict m) f = inr (JDict (<[f := v']> m))
    /\ is_list v' = false /\ truthy v' = true
    /\ (is_list v = false -> v' = v).
Proof.
  intros Hf Hv. unfold normalize_field, py_getitem, bindE. rewrite Hf.
  destruct (is_list v) eqn:El.
  - destruct v as [|b|z|fl|s|items|m0]; try discriminate El.
    destruct items as [|i items]; [discriminate Hv|].
    eexists. split; [reflexivity|]. split; [reflexivity|].
    split; [|discriminate].
    pose proof (join_items_nonempty env i items) as Hne.
    unfold truthy.
    destruct (join [10] (List.map (format_item env) (i :: items)));
      [contradiction|reflexivity].
  - exists v. rewrite insert_id by exact Hf.
    split; [destruct v; try reflexivity; discriminate El|]. auto.
Qed.

Lemma normalize_fields_dict env fields : forall m,
  (forall f, In f fields -> exists v, m !! f = Some v /\ truthy v = true) ->
  exists m',
    normalize_fields env (JDict m) fields = inr (JDict m')
    /\ (forall k, ~ In k fields -> m' !! k = m !! k)
    /\ (forall f, In f fields ->
          exists v', m' !! f = Some v' /\ is_list v' = false
                     /\ truthy v' = true)
    /\ (forall k v, m !! k = Some v -> is_list v = false -> m' !! k = Some v).
Proof.
  induction fields as [|f rest IH]; intros m Hm.
  { exists m. simpl. repeat split; auto. intros f []. }
  destruct (Hm f (or_introl eq_refl)) as (v & Hf & Hv).
  destruct (normalize_field_dict env m f v Hf Hv)
    as (v' & Hn & Hl & Ht & Hsame).
  simpl. rewrite Hn. simpl.
  destruct (IH (<[f := v']> m)) as (m' & Hrun & Hout & Hin & Hkeep).
  { intros g Hg. destruct (decide (g = f)) as [->|Hne].
    - exists v'. now rewrite lookup_insert_eq.
    - rewrite lookup_insert_ne by congruence. apply Hm. now right. }
  exists m'. split; [exact Hrun|]. split; [|split].
  - intros k Hk. rewrite Hout by (intros Hr; apply Hk; now right).
    apply lookup_insert_ne. intros ->. apply Hk. now left.
  - intros g [<-|Hg]; [|now apply Hin].
    destruct (decide (f ∈ rest)) as [Hr|Hr];
      [apply Hin; now apply list_elem_of_In|].
    assert (Hr' : ~ In f rest) by (intros X; apply Hr, list_elem_of_In, X).
    clear Hr. rename Hr' into Hr.
    exists v'. rewrite Hout by exact Hr. now rewrite lookup_insert_eq.
  - intros k u Hk Hu. apply Hkeep; [|exact Hu].
    destruct (decide (k = f)) as [->|Hne].
    + rewrite lookup_insert_eq. f_equal.
      rewrite Hf in Hk. apply Some_eq_inj in Hk. subst u. now apply Hsame.
    + now rewrite lookup_insert_ne by congruence.
Qed.

Lemma ensure_inventors_dict m :
  exists l,
    ensure_inventors (JDict m) = inr (JDict (<[lit "inventors" := JList l]> m))
    /\ (m !! lit "inventors" = Some (JList l)
        \/ (l = [] /\ forall l0, m !! lit "inventors" <> Some (JList l0))).
Proof.
  unfold ensure_inventors, py_contains, py_getitem, py_setitem, bindE.
  destruct (m !! lit "inventors") as [v|] eqn:E.
  - rewrite bool_decide_eq_true_2 by eauto. simpl.
    destruct v as [|b|z|fl|s|l|m0];
      try (exists []; split; [reflexivity|right; split; [reflexivity|];
           intros l0 H0; discriminate H0]).
    exists l. rewrite insert_id by exact E. auto.
  - rewrite bool_decide_eq_false_2 by (intros [x Hx]; discriminate).
    simpl. exists []. split; [reflexivity|]. right. split; [reflexivity|].
    intros l0 H0; discriminate H0.
Qed.

Lemma inventors_not_required : ~ In (lit "inventors") required_fields.
Proof.
  unfold required_fields. intros [H|[H|[H|[]]]]; vm_compute in H;
    discriminate H.
Qed.

Lemma first_missing_none m :
  first_missing m = None ->
  forall f, In f required_fields ->
            exists v, m !! f = Some v /\ truthy v = true.
Proof.
  unfold first_missing. intros H f Hf.
  eapply find_none in H; [|exact Hf]. simpl in H.
  destruct (m !! f) as [v|]; [|discriminate].
  exists v. split; [reflexivity|]. now apply negb_false_iff.
Qed.

(** What [parse_extraction] makes of a reply that decodes to an object. *)
Lemma parse_extraction_dict env content m :
  content <> [] ->
  json_loads env (strip_code_fence content) = inr (JDict m) ->
  match first_missing m with
  | Some f =>
      parse_extraction env (Some content)
      = inl (ValueError (lit "Missing required field: " ++ f))
  | None =>
      exists m' l,
        parse_extraction env (Some content) = inr (JDict m')
        /\ (forall f, In f required_fields ->
              exists v, m' !! f = Some v /\ is_list v = false
                        /\ truthy v = true)
        /\ m' !! lit "inventors" = Some (JList l)
        /\ (m !! lit "inventors" = Some (JList l)
            \/ (l = [] /\ forall l0, m !! lit "inventors" <> Some (JList l0)))
        /\ (forall k v, k <> lit "inventors" -> m !! k = Some v ->
              is_list v = false -> m' !! k = Some v)
        /\ (forall k, k <> lit "inventors" -> ~ In k required_fields ->
              m' !! k = m !! k)
  end.
Proof.
  intros Hne Hload.
  assert (Hrun : parse_extraction env (Some content)
                 = let+ _ := check_all_required (JDict m) required_fields in
                   let+ data := normalize_fields env (JDict m) required_fields in
                   ensure_inventors data).
  { unfold parse_extraction. destruct content; [contradiction|].
    now rewrite Hload. }
  rewrite Hrun, check_all_required_dict. fold (first_missing m).
  destruct (first_missing m) as [f|] eqn:Hmiss; [reflexivity|].
  destruct (normalize_fields_dict env required_fields m
              (first_missing_none m Hmiss)) as (m1 & Hn & Hout & Hin & Hkeep).
  destruct (ensure_inventors_dict m1) as (l & He & Hl).
  unfold bindE at 1. rewrite Hn. unfold bindE. rewrite He.
  exists (<[lit "inventors" := JList l]> m1), l.
  split; [reflexivity|]. split; [|split; [|split; [|split]]].
  - intros f Hf. rewrite lookup_insert_ne.
    + now apply Hin.
    + intros <-. now apply inventors_not_required.
  - now rewrite lookup_insert_eq.
  - rewrite Hout in Hl by apply inventors_not_required. exact Hl.
  - intros k v Hk Hv Hlist. rewrite lookup_insert_ne by congruence.
    now apply Hkeep.
  - intros k Hk Hreq. rewrite lookup_insert_ne by congruence.
    now apply Hout.
Qed.

Lemma parse_extraction_ok env c data :
  parse_extraction env c = inr data ->
  exists content m,
    c = Some content /\ content <> []
    /\ json_loads env (strip_code_fence content) = inr (JDict m)
    /\ first_missing m = None.
Proof.
  intros H. destruct c as [content|]; [|discriminate H].
  destruct content as [|c0 content]; [discriminate H|].
  exists (c0 :: content).
  unfold parse_extraction in H.
  destruct (json_loads env (strip_code_fence (c0 :: content)))
    as [msg|loaded] eqn:Hload; [discriminate H|].
  assert (Hd : (exists m, loaded = JDict m) \/ (forall m, loaded <> JDict m))
    by (destruct loaded; eauto; right; intros; discriminate).
  destruct Hd as [Hd|Hd].
  2:{ destruct (check_required_not_an_object loaded (lit "title") Hd)
        as [e He].
      unfold required_fields in H. cbn [check_all_required] in H.
      rewrite He in H. discriminate H. }
  destruct Hd as [m ->]. exists m.
  split; [reflexivity|]. split; [discriminate|]. split; [reflexivity|].
  rewrite check_all_required_dict in H. fold (first_missing m) in H.
  destruct (first_missing m); [discriminate H|reflexivity].
Qed.

(** X11: what [extract_disclosure_info] returns is always an object in
    which [title], [description] and [key_differences] are present, truthy
    and not lists, and in which [inventors] is a list; and the reply of the
    model then decoded to an object: a reply that decodes to anything else
    never gives a result. *)
Theorem extraction_result_shape (env : Env) (text : list N) (data : json) :
  extract_disclosure_info env text = inr data ->
  exists m,
    data = JDict m
    /\ (forall f, In f required_fields ->
          exists v, m !! f = Some v /\ is_list v = false /\ truthy v = true)
    /\ (exists l, m !! lit "inventors" = Some (JList l))
    /\ exists content decoded,
         chat_completion env (truncate_document text) = inr (Some content)
         /\ json_loads env (strip_code_fence content) = inr (JDict decoded).
Proof.
  unfold extract_disclosure_info. intros H.
  destruct (openai_api_key env); [discriminate H|].
  destruct (chat_completion env (truncate_document text)) as [e|c];
    [discriminate H|].
  unfold bindE in H.
  destruct (parse_extraction_ok env c data H)
    as (content & m & -> & Hne & Hload & Hmiss).
  pose proof (parse_extraction_dict env content m Hne Hload) as P.
  rewrite Hmiss in P. destruct P as (m' & l1 & Hrun & Hreq & Hinv & _).
  rewrite Hrun in H. exists m'. split; [now inversion H|].
  split; [exact Hreq|]. split; [eauto|]. eauto.
Qed.

Lemma extraction_result_shape_witness :
  exists data m,
    extract_disclosure_info env0 long_page = inr data
    /\ data = JDict m
    /\ (forall f, In f required_fields ->
          exists v, m !! f = Some v /\ is_list v = false /\ truthy v = true)
    /\ exists l, m !! lit "inventors" = Some (JList l).
Proof.
  destruct (extract_disclosure_info env0 long_page) as [e|data] eqn:E;
    [vm_compute in E; discriminate E|].
  destruct (extraction_result_shape env0 long_page data E)
    as (m & Hd & Hreq & Hinv & _).
  exists data, m. split; [reflexivity|]. split; [exact Hd|].
  split; [exact Hreq|exact Hinv].
Defined.

(** X12: when the reply decodes to an object, the extraction fails exactly
    when a required field is absent or falsy, with a [ValueError] that names
    the first such field in the order title, description, key_differences.
    Otherwise it returns the object in which every value that is not a list
    stands as it was decoded, every key other than the required ones and
    [inventors] is untouched, and [inventors] is the decoded list, or the
    empty list when it was absent or not a list. *)
Theorem missing_field_is_named (env : Env) (text content : list N)
    (m : gmap (list N) json) :
  openai_api_key env <> [] ->
  chat_completion env (truncate_document text) = inr (Some content) ->
  content <> [] ->
  json_loads env (strip_code_fence content) = inr (JDict m) ->
  match first_missing m with
  | Some f =>
      extract_disclosure_info env text
      = inl (ValueError (lit "Missing required field: " ++ f))
  | None =>
      exists m' l,
        extract_disclosure_info env text = inr (JDict m')
        /\ m' !! lit "inventors" = Some (JList l)
        /\ (m !! lit "inventors" = Some (JList l)
            \/ (l = [] /\ forall l0, m !! lit "inventors" <> Some (JList l0)))
        /\ (forall k v, k <> lit "inventors" -> m !! k = Some v ->
              is_list v = false -> m' !! k = Some v)
        /\ (forall k, k <> lit "inventors" -> ~ In k required_fields ->
              m' !! k = m !! k)
  end.
Proof.
  intros Hkey Hchat Hne Hload.
  assert (Hrun : extract_disclosure_info env text
                 = parse_extraction env (Some content)).
  { unfold extract_disclosure_info.
    destruct (openai_api_key env); [contradiction|]. now rewrite Hchat. }
  rewrite Hrun.
  pose proof (parse_extraction_dict env content m Hne Hload) as P.
  destruct (first_missing m); [exact P|].
  destruct P as (m' & l & H1 & _ & H3 & H4 & H5 & H6).
  exists m', l. auto.
Qed.

Lemma missing_field_is_named_witness :
  extract_disclosure_info env_untitled long_page
  = inl (ValueError (lit "Missing required field: " ++ lit "title")).
Proof.
  apply (missing_field_is_named env_untitled long_page (lit "{untitled}")
           untitled_value);
    [vm_compute; discriminate|reflexivity|vm_compute; discriminate
    |reflexivity].
Defined.

(* ===================================================================== *)
(** ** Truncation *)
(* ===================================================================== *)






(* ===================================================================== *)
(** ** Upload: what a rejected file leaves behind *)
(* ===================================================================== *)

(** X14: an upload touches nothing before the extraction has succeeded.
    When the world after [upload_disclosure] differs from the world before
    in any component (tables, sequence, bucket, log, trace), then the file
    had a name ending in [.pdf], could be read, gave at least fifty
    characters of text, and the model's answer passed the validation. *)
Theorem upload_acts_only_after_extraction (env : Env) (file : UploadFile)
    (w : World) :
  snd (upload_disclosure env file w) <> w ->
  exists name content text data,
    filename file = Some name
    /\ endswith (str_lower env name) (lit ".pdf") = true
    /\ file_read file = inr content
    /\ extract_text_from_pdf env content = inr text
    /\ (min_text_length <= length (strip text))%nat
    /\ extract_disclosure_info env text = inr data.
Proof.
  unfold upload_disclosure. intros H.
  destruct (filename file) as [[|c name]|] eqn:Hname;
    try (exfalso; apply H; reflexivity).
  destruct (endswith _ _) eqn:Hpdf; simpl in H;
    [|exfalso; apply H; reflexivity].
  destruct (file_read file) as [e0|content] eqn:Hread;
    [exfalso; apply H; reflexivity|].
  destruct (extract_text_from_pdf env content) as [e0|text] eqn:Htext.
  { exfalso. apply H. now destruct e0. }
  destruct text as [|t0 text]; [exfalso; apply H; reflexivity|].
  simpl orb in H.
  destruct (length (strip (t0 :: text)) <? min_text_length)%nat eqn:Hlen;
    [exfalso; apply H; reflexivity|].
  destruct (extract_disclosure_info env (t0 :: text)) as [e0|data] eqn:Hex;
    [exfalso; apply H; reflexivity|].
  exists (c :: name), content, (t0 :: text), data.
  apply Nat.ltb_ge in Hlen. auto 10.
Qed.

Lemma upload_acts_only_after_extraction_witness :
  exists name content text data,
    filename finfet_file = Some name
    /\ endswith (str_lower env0 name) (lit ".pdf") = true
    /\ file_read finfet_file = inr content
    /\ extract_text_from_pdf env0 content = inr text
    /\ (min_text_length <= length (strip text))%nat
    /\ extract_disclosure_info env0 text = inr data.
Proof.
  apply (upload_acts_only_after_extraction env0 finfet_file world0).
  intros H.
  apply (f_equal docket_seq) in H. vm_compute in H. discriminate H.
Defined.

(* ===================================================================== *)
(** ** Reading one disclosure, and the list *)
(* ===================================================================== *)

#[local] Instance latest_first_total : Total latest_first.
Proof. intros a b. unfold latest_first. lia. Qed.

Lemma statement_quiet {A} (run : World -> exn + (A * World)) w :
  db_faults w = [] -> tx w <> Failed ->
  statement run w
  = match run w with
    | inl e => (Raise e, poison w)
    | inr (a, w2) => (Ok a, w2)
    end.
Proof.
  intros Hf Htx. unfold statement, next_db_fault. rewrite Hf.
  destruct (tx w); try contradiction; reflexivity.
Qed.

Lemma get_disclosure_run id w :
  db_faults w = [] ->
  fst (get_disclosure id w)
  = match List.find (fun r => d_id r =? id) (disclosures (tables w)) with
    | None => Raise (HTTPException 404 (lit "Disclosure not found"))
    | Some r =>
        Ok {| w_disclosure := Disclosure_of_row r;
              w_inventors :=
                merge_sort oldest_first
                  (List.filter (fun i => i_disclosure_id i =? id)
                     (inventors (tables w)));
              w_status_history :=
                merge_sort latest_first
                  (List.filter (fun h => h_disclosure_id h =? id)
                     (status_history (tables w))) |}
    end.
Proof.
  intros Hf.
  unfold get_disclosure, get_connection, bind, select_disclosure,
    select_inventors_of, select_history_of.
  rewrite statement_quiet by (simpl; first [exact Hf|discriminate]). simpl.
  destruct (List.find _ (disclosures (tables w))) as [r|]; [|reflexivity].
  rewrite statement_quiet by (simpl; first [exact Hf|discriminate]). simpl.
  rewrite statement_quiet by (simpl; first [exact Hf|discriminate]). reflexivity.
Qed.

Lemma statement_select {A} (q : World -> A) w a w' :
  statement (fun w => inr (q w, w)) w = (Ok a, w') ->
  a = q w' /\ tables w' = tables w /\ s3 w' = s3 w /\ tx w' = tx w.
Proof.
  intros H. apply statement_ok in H as [_ H].
  pose proof (next_db_fault_frame w) as F. simpl in F.
  destruct F as (Ft & Fx & _ & _ & Fs & _).
  apply (f_equal (fun r => match r with inr p => Some p | inl _ => None end))
    in H. apply Some_eq_inj in H.
  assert (E : w' = snd (next_db_fault w)) by now inversion H.
  subst w'. split; [now inversion H|auto].
Qed.

Lemma get_disclosure_ok id w d w' :
  get_disclosure id w = (Ok d, w') ->
  exists r,
    List.find (fun r => d_id r =? id) (disclosures (tables w)) = Some r
    /\ w_disclosure d = Disclosure_of_row r
    /\ w_inventors d
       = merge_sort oldest_first
           (List.filter (fun i => i_disclosure_id i =? id)
              (inventors (tables w)))
    /\ w_status_history d
       = merge_sort latest_first
           (List.filter (fun h => h_disclosure_id h =? id)
              (status_history (tables w)))
    /\ tables w' = tables w /\ s3 w' = s3 w.
Proof.
  intros H. apply get_connection_inv in H as (w1 & H & ->).
  apply bind_ok in H as (row & w2 & Hsel & H).
  apply statement_select in Hsel as (Hrow & Ht2 & Hs2 & _).
  destruct row as [r|]; [|discriminate H].
  apply bind_ok in H as (invs & w3 & Hinv & H).
  apply statement_select in Hinv as (Hinvs & Ht3 & Hs3 & _).
  apply bind_ok in H as (hist & w4 & Hhist & H).
  apply statement_select in Hhist as (Hh & Ht4 & Hs4 & _).
  apply Ok_inj_pair in H as [<- <-].
  exists r. simpl in *.
  rewrite Ht4, Ht3, Ht2, Hs4, Hs3, Hs2.
  rewrite Ht2 in Hrow. rewrite Ht3, Ht2 in Hinvs.
  rewrite Ht4, Ht3, Ht2 in Hh.
  repeat split; auto.
Qed.

(** X15: [get_disclosure] answers with the stored disclosure, every
    inventor of that disclosure and no other in the order of their creation,
    and every history entry of that disclosure and no other, the latest
    first; it changes neither a table nor the bucket.  With a working
    database it answers for every stored id. *)
Theorem get_returns_the_disclosure_with_its_rows (id : N) (w : World) :
  (forall d w',
     get_disclosure id w = (Ok d, w') ->
     exists r,
       List.find (fun r => d_id r =? id) (disclosures (tables w)) = Some r
       /\ w_disclosure d = Disclosure_of_row r
       /\ w_inventors d
          ≡ₚ List.filter (fun i => i_disclosure_id i =? id)
               (inventors (tables w))
       /\ Sorted oldest_first (w_inventors d)
       /\ w_status_history d
          ≡ₚ List.filter (fun h => h_disclosure_id h =? id)
               (status_history (tables w))
       /\ Sorted latest_first (w_status_history d)
       /\ tables w' = tables w /\ s3 w' = s3 w)
  /\ (db_faults w = [] -> has_disclosure id (tables w) = true ->
      exists d, fst (get_disclosure id w) = Ok d).
Proof.
  split.
  - intros d w' H.
    apply get_disclosure_ok in H as (r & Hr & Hd & Hi & Hh & Ht & Hs).
    exists r. rewrite Hi, Hh.
    split; [exact Hr|]. split; [exact Hd|].
    split; [apply merge_sort_Permutation|].
    split; [apply Sorted_merge_sort; apply _|].
    split; [apply merge_sort_Permutation|].
    split; [apply Sorted_merge_sort; apply _|]. auto.
  - intros Hf Hhas. rewrite get_disclosure_run by exact Hf.
    apply has_disclosure_find in Hhas as [r ->]. eauto.
Qed.

Lemma get_returns_the_disclosure_with_its_rows_witness :
  exists d, fst (get_disclosure 1 world1) = Ok d.
Proof.
  apply (get_returns_the_disclosure_with_its_rows 1 world1); reflexivity.
Defined.

Lemma list_disclosures_ok env search status w rows w' :
  list_disclosures env search status w = (Ok rows, w') ->
  rows = merge_sort newest_first
           (List.filter (matches_filters env search status)
              (disclosures (tables w)))
  /\ tables w' = tables w /\ s3 w' = s3 w.
Proof.
  intros H. apply get_connection_inv in H as (w1 & H & ->).
  apply statement_select in H as (Hrows & Ht & Hs & _).
  simpl in *. rewrite Ht in Hrows. auto.
Qed.

(** X16: the list holds exactly the disclosures that match, the newest
    first, and the route changes nothing.  A status parameter is compared
    with the stored status and never validated: every listed row has that
    status, and a status that is not one of the four gives the empty list
    when the stored statuses are valid.  An empty parameter filters nothing:
    with both parameters absent or empty, every disclosure is listed. *)
Theorem list_selects_the_matching_rows (env : Env)
    (search status : option (list N)) (w : World)
    (rows : list DisclosureRow) (w' : World) :
  list_disclosures env search status w = (Ok rows, w') ->
  rows ≡ₚ List.filter (matches_filters env search status)
            (disclosures (tables w))
  /\ Sorted newest_first rows
  /\ tables w' = tables w /\ s3 w' = s3 w
  /\ (forall st, given status = Some st ->
        Forall (fun r => d_status r = st) rows)
  /\ (forall st, given status = Some st -> ~ In st valid_statuses ->
        statuses_valid (tables w) -> rows = [])
  /\ (given search = None -> given status = None ->
      rows ≡ₚ disclosures (tables w)).
Proof.
  intros H. apply list_disclosures_ok in H as (Hrows & Ht & Hs).
  assert (Hperm : rows ≡ₚ List.filter (matches_filters env search status)
                            (disclosures (tables w))).
  { rewrite Hrows. apply merge_sort_Permutation. }
  assert (Hstatus : forall st, given status = Some st ->
            Forall (fun r => d_status r = st) rows).
  { intros st Hst. apply List.Forall_forall. intros r Hr.
    eapply Permutation_in in Hr; [|exact Hperm].
    apply filter_In in Hr as [_ Hr]. unfold matches_filters in Hr.
    rewrite Hst in Hr. apply andb_true_iff in Hr as [_ Hr].
    now apply str_eqb_true. }
  split; [exact Hperm|].
  split; [rewrite Hrows; apply Sorted_merge_sort; apply _|].
  split; [exact Ht|]. split; [exact Hs|]. split; [exact Hstatus|]. split.
  - intros st Hst Hbad [Hvalid _].
    destruct rows as [|r rows]; [reflexivity|]. exfalso.
    pose proof (Hstatus st Hst) as Hall.
    apply List.Forall_inv in Hall.
    assert (Hin : In r (disclosures (tables w))).
    { eapply Permutation_in in Hperm; [|left; reflexivity].
      now apply filter_In in Hperm as [Hin _]. }
    eapply List.Forall_forall in Hvalid; [|exact Hin].
    apply Hbad. now rewrite <- Hall.
  - intros Hsearch Hst. rewrite Hperm.
    assert (E : forall l, List.filter (matches_filters env search status) l = l).
    { induction l as [|r l IH]; simpl; [reflexivity|].
      unfold matches_filters at 1. rewrite Hsearch, Hst. simpl. now rewrite IH. }
    now rewrite E.
Qed.

Lemma list_selects_the_matching_rows_witness :
  exists rows,
    fst (list_disclosures env0 (Some []) (Some (lit "pending")) world1)
    = Ok rows
    /\ Forall (fun r => d_status r = lit "pending") rows.
Proof.
  destruct (list_disclosures env0 (Some []) (Some (lit "pending")) world1)
    as [r w'] eqn:E.
  destruct r as [rows|e]; [|vm_compute in E; discriminate E].
  exists rows. split; [reflexivity|].
  apply (list_selects_the_matching_rows env0 _ _ world1 rows w' E).
  reflexivity.
Defined.

(* ===================================================================== *)
(** ** Upload, then read *)
(* ===================================================================== *)

Lemma insert_inventors_keeps_s3 id invs : keeps s3 (insert_inventors id invs).
Proof.
  induction invs as [|inv invs IH]; simpl.
  - apply keeps_ret.
  - unfold insert_inventor. repeat first [exact IH | keeps_step].
Qed.

Lemma attach_pdf_blob row fn content w k w' :
  attach_pdf row fn content w = (Ok (Some k), w') ->
  s3 w' = Some (<[k := content]> (objects w)).
Proof.
  unfold attach_pdf, try_except. intros H.
  match type of H with
  | (match ?m with _ => _ end) = _ => destruct m as [[key|e] w1] eqn:Hb
  end.
  - apply Ok_inj_pair in H as [-> ->].
    apply bind_ok in Hb as (key & w2 & Hup & Hb).
    apply upload_pdf_objects in Hup as [_ Hs3].
    apply bind_ok in Hb as ([] & w3 & Hset & Hb).
    apply Ok_inj_pair in Hb as [Hb ->]. apply Some_eq_inj in Hb. subst key.
    assert (Hk : keeps s3 (set_pdf_object_key k (d_id row)))
      by (unfold set_pdf_object_key; repeat keeps_step).
    now rewrite (Hk _ _ _ Hset).
  - unfold bind, logger, modify, ret in H. inversion H.
Qed.

Lemma upload_transaction_blob extracted docket fn content w0 d key w1 :
  upload_transaction extracted docket fn content w0 = (Ok (d, key), w1) ->
  has_disclosure (fresh w0) (tables w0) = false
  /\ forall k, key = Some k -> s3 w1 = Some (<[k := content]> (objects w0)).
Proof.
  intros H. unfold upload_transaction in H.
  apply bind_ok in H as (t & wa & Ht & H). apply lift_ok in Ht as [Ht ->].
  apply bind_ok in H as (de & wa & Hde & H). apply lift_ok in Hde as [Hde ->].
  apply bind_ok in H as (kd & wa & Hkd & H). apply lift_ok in Hkd as [Hkd ->].
  apply bind_ok in H as (row & wa & Hrow & H).
  apply bind_ok in H as (key' & wb & Hkey & H).
  apply bind_ok in H as (items & wc & Hitems & H).
  apply lift_ok in Hitems as [Hitems ->].
  apply bind_ok in H as (rows & wc & Hrows & H).
  apply bind_ok in H as (hist & wd & Hhist & H).
  apply Ok_inj_pair in H as [H ->].
  assert (key' = key) as -> by now inversion H.
  apply insert_disclosure_ok in Hrow
    as (_ & _ & _ & _ & _ & _ & _ & _ & _ & Hfresh & _ & _ & _ & _ & _ & Hsa
        & _).
  split; [exact Hfresh|]. intros k ->.
  apply attach_pdf_blob in Hkey.
  apply insert_inventors_keeps_s3 in Hrows.
  assert (Hk : keeps s3 (insert_status_history (d_id row) (d_status row)))
    by (unfold insert_status_history; repeat keeps_step).
  rewrite (Hk _ _ _ Hhist), Hrows, Hkey. unfold objects. now rewrite Hsa.
Qed.

(** What a successful upload has stored, in the tables and in the bucket. *)
Lemma upload_disclosure_stored env file w resp w' :
  upload_disclosure env file w = (Ok resp, w') ->
  exists row content name,
    file_read file = inr content /\ filename file = Some name /\ name <> []
    /\ d_id row = fresh w /\ d_original_filename row = Some name
    /\ Disclosure_of_row row = w_disclosure (r_disclosure resp)
    /\ has_disclosure (fresh w) (tables w) = false
    /\ disclosures (tables w') = disclosures (tables w) ++ [row]
    /\ inventors (tables w')
       = inventors (tables w) ++ w_inventors (r_disclosure resp)
    /\ Forall (fun i => i_disclosure_id i = fresh w)
         (w_inventors (r_disclosure resp))
    /\ (exists hist,
          w_status_history (r_disclosure resp) = [hist]
          /\ h_disclosure_id hist = fresh w
          /\ status_history (tables w') = status_history (tables w) ++ [hist])
    /\ (forall k, d_pdf_object_key row = Some k ->
          k = lit "disclosures/" ++ uuid_str (fresh w) ++ lit "/" ++ name
          /\ s3 w' = Some (<[k := content]> (objects w))).
Proof.
  intros H. pose proof H as H0.
  apply upload_disclosure_ok in H0
    as (row & key & hist & items & _ & HF & Hwd & Hwh & Hid & _ & _ & Hfn & _
        & _ & Hhd & Hdis & Hinv & Hhis & _ & _ & Hkey).
  unfold upload_disclosure in H.
  destruct (filename file) as [[|c name]|] eqn:Hname; try discriminate H.
  destruct (negb _); try discriminate H.
  destruct (file_read file) as [e0|content]; try discriminate H.
  destruct (extract_text_from_pdf env content) as [e0|text].
  { destruct e0; discriminate H. }
  destruct (_ || _); try discriminate H.
  destruct (extract_disclosure_info env text) as [e0|extracted];
    try discriminate H.
  apply bind_ok in H as (docket & w1 & Hd & H).
  apply bind_ok in H as ([d key'] & w2 & Htx & H).
  apply Ok_inj_pair in H as [Hresp <-].
  assert (Hs1 : s3 w1 = s3 w /\ tables w1 = tables w /\ fresh w1 = fresh w).
  { apply get_next_docket_number_cases in Hd as [Ht1 Hd].
    destruct (Hd docket eq_refl) as (_ & _ & _ & Hf1 & _ & Hs1 & _).
    repeat split; assumption. }
  destruct Hs1 as (Hs1 & Ht1 & Hf1).
  apply get_connection_inv in Htx as (w3 & Htx & ->).
  apply transaction_ok in Htx as (w4 & Hbody & Hend).
  pose proof (next_db_fault_frame (set_tx Idle w1)) as F. simpl in F.
  destruct F as (Ft & _ & _ & _ & Fs & _ & _ & Ff & _).
  pose proof Hbody as Hbody'.
  apply upload_transaction_ok in Hbody'; [|reflexivity].
  destruct Hbody' as (row' & _ & _ & _ & _ & _ & _ & Hid' & _ & _ & _ & _ & _
                      & _ & Hdis' & _ & _ & Hx4 & _).
  apply upload_transaction_blob in Hbody as [Hfresh Hblob].
  simpl in Hfresh, Hblob, Hdis', Hid'.
  rewrite Ff, Hf1 in Hfresh, Hid'. rewrite Ft, Ht1 in Hfresh, Hdis'.
  destruct Hend as [[Hx _]|[_ ->]]; [congruence|].
  pose proof (next_db_fault_frame w4) as G. simpl in G.
  destruct G as (Gt & _ & _ & _ & Gs & _).
  assert (Hkeys : key' = key).
  { simpl in Hdis. rewrite Gt, Hdis' in Hdis.
    apply app_inv_head in Hdis.
    apply (f_equal (fun l => match l with
                             | [r] => d_pdf_object_key r
                             | _ => None
                             end)) in Hdis.
    exact Hdis. }
  subst key'.
  exists (with_pdf_object_key key row), content, (c :: name).
  simpl in *.
  split; [reflexivity|]. split; [reflexivity|]. split; [discriminate|].
  split; [exact Hid|]. split; [exact Hfn|]. split; [now rewrite Hwd|].
  split; [exact Hfresh|]. split; [exact Hdis|]. split; [exact Hinv|].
  split.
  { clear - HF Hid. induction HF as [|x y l l' Hxy HF IH]; constructor; auto.
    destruct Hxy as [Hxy _]. congruence. }
  split.
  { exists hist. split; [exact Hwh|]. split; [congruence|exact Hhis]. }
  intros k Hk. subst key. split.
  - destruct (Hkey k eq_refl) as (name' & Hn & ->).
    apply Some_eq_inj in Hn. subst name'. now rewrite Hid.
  - rewrite Gs, (Hblob k eq_refl). unfold objects. simpl.
    now rewrite Fs, Hs1.
Qed.

Lemma filter_none_app {A} (p : A -> bool) l l' :
  Forall (fun x => p x = false) l -> Forall (fun x => p x = true) l' ->
  List.filter p (l ++ l') = l'.
Proof.
  intros Hl Hl'. rewrite List.filter_app.
  assert (E1 : List.filter p l = []).
  { induction Hl as [|x l Hx Hl IH]; simpl; [reflexivity|]. now rewrite Hx. }
  assert (E2 : List.filter p l' = l').
  { induction Hl' as [|x l' Hx Hl' IH]; simpl; [reflexivity|].
    now rewrite Hx, IH. }
  now rewrite E1, E2.
Qed.

Lemma find_app_fresh id (l : list DisclosureRow) row :
  existsb (fun r => d_id r =? id) l = false -> d_id row = id ->
  List.find (fun r => d_id r =? id) (l ++ [row]) = Some row.
Proof.
  intros Hl Hrow. induction l as [|r l IH]; simpl in *.
  - now rewrite Hrow, N.eqb_refl.
  - apply orb_false_iff in Hl as [-> Hl]. now apply IH.
Qed.

(** X17: a disclosure that has just been uploaded is read back as it was
    answered.  After a successful upload into tables whose rows all belong
    to stored disclosures, [get_disclosure] of the new id returns the
    disclosure of the upload response, the same inventors (in some order of
    their common creation time) and the same single history entry. *)
Theorem uploaded_disclosure_is_read_back (env : Env) (file : UploadFile)
    (w : World) (resp : UploadResponse) (w' : World) :
  upload_disclosure env file w = (Ok resp, w') ->
  referential_integrity (tables w) ->
  db_faults w' = [] ->
  exists d,
    fst (get_disclosure (m_id (w_disclosure (r_disclosure resp))) w') = Ok d
    /\ w_disclosure d = w_disclosure (r_disclosure resp)
    /\ w_inventors d ≡ₚ w_inventors (r_disclosure resp)
    /\ w_status_history d = w_status_history (r_disclosure resp).
Proof.
  intros H [Hi Hh] Hf.
  apply upload_disclosure_stored in H
    as (row & content & name & _ & _ & _ & Hid & _ & Hresp & Hfresh & Hdis
        & Hinv & Hnew & (hist & Hwh & Hhd & Hhis) & _).
  assert (Hmid : m_id (w_disclosure (r_disclosure resp)) = fresh w)
    by (rewrite <- Hresp; exact Hid).
  rewrite Hmid, get_disclosure_run by exact Hf.
  rewrite Hdis, find_app_fresh by assumption.
  eexists. split; [reflexivity|]. simpl.
  assert (Hold : forall i, has_disclosure i (tables w) = true ->
                           (i =? fresh w) = false).
  { intros i Hhas. apply N.eqb_neq. intros ->. congruence. }
  split; [exact Hresp|]. split.
  - rewrite merge_sort_Permutation, Hinv.
    rewrite filter_none_app; [reflexivity| |].
    + eapply List.Forall_impl; [|exact Hi]. intros a. apply Hold.
    + eapply List.Forall_impl; [|exact Hnew]. intros a ->. apply N.eqb_refl.
  - rewrite Hhis, Hwh, filter_none_app with (l' := [hist]).
    + reflexivity.
    + eapply List.Forall_impl; [|exact Hh]. intros a. apply Hold.
    + constructor; [|constructor]. rewrite Hhd. apply N.eqb_refl.
Qed.

Lemma uploaded_disclosure_is_read_back_witness :
  exists resp w' d,
    upload_disclosure env0 finfet_file world1 = (Ok resp, w')
    /\ fst (get_disclosure (m_id (w_disclosure (r_disclosure resp))) w') = Ok d
    /\ w_disclosure d = w_disclosure (r_disclosure resp)
    /\ w_inventors d ≡ₚ w_inventors (r_disclosure resp)
    /\ w_status_history d = w_status_history (r_disclosure resp).
Proof.
  destruct (upload_disclosure env0 finfet_file world1) as [r w'] eqn:E.
  destruct r as [resp|e]; [|vm_compute in E; discriminate E].
  assert (Hr : referential_integrity (tables world1))
    by (split; repeat constructor).
  assert (Hf : db_faults w' = []).
  { apply (f_equal (fun p => db_faults (snd p))) in E. vm_compute in E.
    symmetry. exact E. }
  destruct (uploaded_disclosure_is_read_back env0 finfet_file world1 resp w'
              E Hr Hf) as (d & Hd).
  exists resp, w', d. split; [reflexivity|exact Hd].
Defined.

Lemma leading_all (p : N -> bool) s : forallb p s = true -> leading p s = s.
Proof.
  induction s as [|c s IH]; simpl; [reflexivity|].
  intros H. apply andb_true_iff in H as [-> H]. now rewrite IH.
Qed.

Lemma leading_stops (p : N -> bool) s :
  forallb p s = false ->
  exists c rest, drop (length (leading p s)) s = c :: rest.
Proof.
  induction s as [|c s IH]; simpl; [discriminate|].
  destruct (p c); simpl; [exact IH|eauto].
Qed.

Lemma encode_latin1_ok s : forallb latin1 s = true -> encode_latin1 s = inr s.
Proof.
  intros H. unfold encode_latin1. rewrite (leading_all _ _ H).
  now rewrite drop_all.
Qed.

Lemma encode_latin1_error s :
  forallb latin1 s = false -> exists msg, encode_latin1 s = inl (ValueError msg).
Proof.
  intros H. unfold encode_latin1.
  destruct (leading_stops _ _ H) as (c & rest & ->). eauto.
Qed.

Lemma attachment_header_latin1 name :
  forallb latin1 (attachment_header name) = forallb latin1 name.
Proof.
  unfold attachment_header. rewrite !forallb_app.
  replace (forallb latin1 (lit "attachment; filename=")) with true
    by (vm_compute; reflexivity).
  simpl. now rewrite andb_true_r.
Qed.

(** The response for the name of a file: the attachment when every
    character of the name is in latin-1, the codec's error otherwise. *)
Lemma Response_cases body name :
  (forallb latin1 name = true
   /\ Response body (attachment_header name)
      = inr {| p_content := body;
               p_content_disposition := attachment_header name |})
  \/ (forallb latin1 name = false
      /\ exists msg,
           encode_latin1 (attachment_header name) = inl (ValueError msg)
           /\ Response body (attachment_header name) = inl (ValueError msg)).
Proof.
  unfold Response, bindE.
  destruct (forallb latin1 name) eqn:E.
  - left. split; [reflexivity|].
    now rewrite encode_latin1_ok by (now rewrite attachment_header_latin1).
  - right. split; [reflexivity|].
    destruct (encode_latin1_error (attachment_header name)) as [msg Hm];
      [now rewrite attachment_header_latin1|].
    exists msg. now rewrite Hm.
Qed.

Lemma download_disclosure_pdf_run id w r c key body :
  db_faults w = [] -> hd None (s3_faults w) = None ->
  List.find (fun r => d_id r =? id) (disclosures (tables w)) = Some r ->
  d_pdf_object_key r = Some (c :: key) ->
  objects w !! (c :: key) = Some body ->
  fst (download_disclosure_pdf id w)
  = match Response body (attachment_header (served_filename r)) with
    | inr resp => Ok resp
    | inl e => Raise e
    end.
Proof.
  intros Hf Hsf Hfind Hkey Hobj.
  unfold download_disclosure_pdf, get_connection, bind, select_disclosure.
  rewrite statement_quiet by (simpl; first [exact Hf|discriminate]).
  simpl. rewrite Hfind, Hkey.
  unfold try_except.
  assert (Hs : exists objs, s3 (set_tx Idle w) = Some objs
                            /\ objs !! (c :: key) = Some body).
  { unfold objects in Hobj. simpl.
    destruct (s3 w) as [objs|]; [eauto|]. now rewrite lookup_empty in Hobj. }
  destruct Hs as (objs & Hs & Hlook).
  pose proof (download_pdf_run (c :: key) (set_tx Idle w) objs body Hsf Hs Hlook)
    as Hrun.
  destruct (download_pdf (c :: key) (set_tx Idle w)) as [res w1].
  simpl in Hrun. subst res. unfold lift.
  now destruct (Response body (attachment_header (served_filename r))).
Qed.

Lemma download_disclosure_pdf_no_key id w r :
  db_faults w = [] ->
  List.find (fun r => d_id r =? id) (disclosures (tables w)) = Some r ->
  d_pdf_object_key r = None ->
  fst (download_disclosure_pdf id w)
  = Raise (HTTPException 404 (lit "PDF not available for this disclosure")).
Proof.
  intros Hf Hfind Hkey.
  unfold download_disclosure_pdf, get_connection, bind, select_disclosure.
  rewrite statement_quiet by (simpl; first [exact Hf|discriminate]).
  simpl. now rewrite Hfind, Hkey.
Qed.

Lemma lit_disclosures_head :
  lit "disclosures/" = 100 :: lit "isclosures/".
Proof. vm_compute. reflexivity. Qed.

(** X18: the file of an upload is served back by the download route when
    its name can be sent in a header.  After a successful upload the new
    disclosure either carries the key [disclosures/<id>/<filename>] and the
    bucket holds the uploaded bytes under it; then the download route, if
    database and blob store answer, returns those bytes as an attachment
    named like the uploaded file when every character of the name is in
    latin-1, and raises the [UnicodeEncodeError] of the header encoding
    otherwise.  Or the disclosure carries no key, because the blob write
    failed, and the download route answers 404. *)
Theorem uploaded_file_is_served_back (env : Env) (file : UploadFile)
    (w : World) (resp : UploadResponse) (w' : World) :
  upload_disclosure env file w = (Ok resp, w') ->
  db_faults w' = [] ->
  let id := m_id (w_disclosure (r_disclosure resp)) in
  exists row content name,
    file_read file = inr content /\ filename file = Some name
    /\ List.find (fun r => d_id r =? id) (disclosures (tables w')) = Some row
    /\ match d_pdf_object_key row with
       | Some k =>
           k = lit "disclosures/" ++ uuid_str id ++ lit "/" ++ name
           /\ objects w' !! k = Some content
           /\ (hd None (s3_faults w') = None ->
               forallb latin1 name = true ->
               fst (download_disclosure_pdf id w')
               = Ok {| p_content := content;
                       p_content_disposition :=
                         lit "attachment; filename=" ++ [34] ++ name ++ [34] |})
           /\ (hd None (s3_faults w') = None ->
               forallb latin1 name = false ->
               exists msg,
                 encode_latin1
                   (lit "attachment; filename=" ++ [34] ++ name ++ [34])
                 = inl (ValueError msg)
                 /\ fst (download_disclosure_pdf id w')
                    = Raise (ValueError msg))
       | None =>
           fst (download_disclosure_pdf id w')
           = Raise (HTTPException 404
                      (lit "PDF not available for this disclosure"))
       end.
Proof.
  intros H Hf id.
  apply upload_disclosure_stored in H
    as (row & content & name & Hread & Hname & Hne & Hid & Hfn & Hresp
        & Hfresh & Hdis & _ & _ & _ & Hkey).
  assert (Hmid : id = fresh w)
    by (unfold id; rewrite <- Hresp; exact Hid).
  assert (Hfind : List.find (fun r => d_id r =? id) (disclosures (tables w'))
                  = Some row).
  { rewrite Hmid, Hdis. now apply find_app_fresh. }
  exists row, content, name.
  split; [exact Hread|]. split; [exact Hname|]. split; [exact Hfind|].
  destruct (d_pdf_object_key row) as [k|] eqn:Hk.
  - destruct (Hkey k eq_refl) as [Hkform Hs3].
    assert (Hobj : objects w' !! k = Some content).
    { unfold objects at 1. rewrite Hs3. apply lookup_insert_eq. }
    rewrite Hmid. split; [exact Hkform|]. split; [exact Hobj|].
    assert (Hcons : exists c key, k = c :: key).
    { rewrite Hkform, lit_disclosures_head. simpl. eauto. }
    destruct Hcons as (c & key & ->).
    assert (Hserved : served_filename row = name).
    { unfold served_filename. rewrite Hfn.
      destruct name; [contradiction|reflexivity]. }
    assert (Hrun : hd None (s3_faults w') = None ->
              fst (download_disclosure_pdf (fresh w) w')
              = match Response content (attachment_header name) with
                | inr resp => Ok resp
                | inl e => Raise e
                end).
    { intros Hsf. rewrite <- Hmid, <- Hserved.
      now apply download_disclosure_pdf_run with (c := c) (key := key). }
    split; intros Hsf Hlatin; rewrite (Hrun Hsf);
      destruct (Response_cases content name)
        as [(Hl & ->)|(Hl & msg & Henc & ->)]; try congruence.
    + reflexivity.
    + exists msg. split; [exact Henc|reflexivity].
  - now apply download_disclosure_pdf_no_key with (r := row).
Qed.

Lemma uploaded_file_is_served_back_witness :
  let run := upload_disclosure env0 finfet_file world_no_bucket in
  exists resp,
    run = (Ok resp, snd run)
    /\ fst (download_disclosure_pdf
              (m_id (w_disclosure (r_disclosure resp))) (snd run))
       = Ok {| p_content := [x25; x50; x44; x46];
               p_content_disposition :=
                 lit "attachment; filename=" ++ [34] ++ lit "FinFET.pdf"
                 ++ [34] |}.
Proof.
  intros run.
  destruct (fst run) as [resp|e] eqn:Hfst; [|vm_compute in Hfst; discriminate].
  assert (E : run = (Ok resp, snd run))
    by (rewrite <- Hfst; now destruct run).
  exists resp. split; [exact E|].
  assert (Hf : db_faults (snd run) = []) by (vm_compute; reflexivity).
  assert (Hsf : hd None (s3_faults (snd run)) = None)
    by (vm_compute; reflexivity).
  destruct (uploaded_file_is_served_back env0 finfet_file world_no_bucket
              resp (snd run) E Hf)
    as (row & content & name & Hread & Hname & Hfind & Hcase).
  apply Some_eq_inj in Hname. subst name.
  assert (content = [x25; x50; x44; x46]) as -> by now inversion Hread.
  assert (Hid : m_id (w_disclosure (r_disclosure resp)) = 1).
  { apply (f_equal (fun r => match r with
                             | Ok x => m_id (w_disclosure (r_disclosure x))
                             | Raise _ => 0
                             end)) in Hfst.
    vm_compute in Hfst. symmetry. exact Hfst. }
  rewrite Hid in Hfind, Hcase |- *.
  assert (Hkey : d_pdf_object_key row <> None).
  { vm_compute in Hfind. apply Some_eq_inj in Hfind. subst row. discriminate. }
  destruct (d_pdf_object_key row) as [k|]; [|contradiction].
  destruct Hcase as (_ & _ & Hserved & _).
  apply Hserved; [exact Hsf|vm_compute; reflexivity].
Defined.

Example sample_upload_is_served_back :
  let w' := snd (upload_disclosure env0 finfet_file world_no_bucket) in
  fst (download_disclosure_pdf 1 w')
  = Ok {| p_content := [x25; x50; x44; x46];
          p_content_disposition :=
            lit "attachment; filename=" ++ [34] ++ lit "FinFET.pdf" ++ [34] |}.
Proof. vm_compute. reflexivity. Qed.

(** A file uploaded under a name with U+0130 is stored, and its download
    fails in the header encoding. *)
Example dotted_name_is_not_served :
  fst (download_disclosure_pdf 1 world_dotted_name)
  = Raise (ValueError
             (lit "'latin-1' codec can't encode character '\u0130' in position 22: ordinal not in range(256)")).
Proof. vm_compute. reflexivity. Qed.

(* ===================================================================== *)
(** ** Download: the failures of the blob store *)
(* ===================================================================== *)





